(** * LogMiner-QA: the flaky test analysis engine

    A shallow embedding of [src/logminer_qa/flaky_test_analyzer.py] and
    the properties of its parsers, directory loader, classifier and
    summary aggregator.

    Modelling conventions.
    - A Python [str] is a Rocq [string]; a character stands for the code
      point of the same number, so the model covers the strings whose code
      points are below 256.  [isspace], [lower] and the classes of the
      regular expression are Python's, restricted to that range.  Where
      a property would not hold of a text beyond it (a letter that the
      pattern, ignoring case, takes for an ASCII letter; a decimal digit
      that is no ASCII digit), it is stated for ASCII text, [is_ascii].
    - A Python float is a [Float.t]: a number, an infinity or a NaN.
      [Float.of_Q] gives the double nearest to a rational, ties to even,
      as [float] of a literal and the division of two integers do.
    - The classifier is given twice.  [_classify_test] computes the rates
      and the score exactly, as rationals ([Q]); the properties that do
      not hang on rounding are proved of it.  [Binary64._classify_test]
      computes them as the interpreter does, in doubles, and compares
      them with thresholds that are floats; the decision at the
      thresholds is proved of it.
    - A [list(set(...))] has no specified order in Python; such fields are
      finite sets ([gset string]).
    - A function that logs or raises is a computation in [M]: the records
      logged so far and either the exception or the value.
    - The standard library is not part of the source: [ET.parse],
      [json.load] and [Path.read_text] are given by what they return on
      each file, and [repr] is a parameter. *)

From Stdlib Require Import Ascii String DecimalString QArith Qminmax Lqa.
From stdpp Require Import gmap strings list sorting.

Set Warnings "-register-all,-clear-no-such-hyp".

Local Open Scope string_scope.
Local Open Scope list_scope.

(** ** Python strings *)

Module Py.

(** [str.isspace] on one character, code points below 256. *)
Definition isspace (c : ascii) : bool :=
  let n := nat_of_ascii c in
  (((9 <=? n) && (n <=? 13)) || ((28 <=? n) && (n <=? 32))
   || (n =? 133) || (n =? 160))%nat.

(** [str.lower] on one character, code points below 256. *)
Definition lower_char (c : ascii) : ascii :=
  let n := nat_of_ascii c in
  if (((65 <=? n) && (n <=? 90))
      || ((192 <=? n) && (n <=? 222) && negb (n =? 215)))%nat
  then ascii_of_nat (n + 32) else c.

Fixpoint lower (s : string) : string :=
  match s with
  | EmptyString => EmptyString
  | String c s' => String (lower_char c) (lower s')
  end.

(** The string without the characters of the class [space] at its start,
    and at its end. *)
Fixpoint lstrip_by (space : ascii → bool) (s : string) : string :=
  match s with
  | EmptyString => EmptyString
  | String c s' => if space c then lstrip_by space s' else s
  end.

Fixpoint rstrip_by (space : ascii → bool) (s : string) : string :=
  match s with
  | EmptyString => EmptyString
  | String c s' =>
      match rstrip_by space s' with
      | EmptyString => if space c then EmptyString else String c EmptyString
      | t => String c t
      end
  end.

(** [str.strip]. *)
Definition strip (s : string) : string := rstrip_by isspace (lstrip_by isspace s).

(** Truth value of a string: non-empty. *)
Definition truthy (s : string) : bool :=
  match s with EmptyString => false | _ => true end.

(** [a or b] on strings. *)
Definition or_else (a b : string) : string := if truthy a then a else b.

(** [s[:n]]. *)
Definition take (n : nat) (s : string) : string := String.substring 0 n s.

(** [x in (a, b, ...)] on strings. *)
Definition mem (x : string) (l : list string) : bool :=
  existsb (String.eqb x) l.

(** [min(a, b)]: the first argument unless the second is strictly less. *)
Definition min (a b : Q) : Q := if Qle_bool a b then a else b.

(** True division of two counts, [a / b] with [b] non-zero. *)
Definition truediv (a b : nat) : Q := inject_Z (Z.of_nat a) / inject_Z (Z.of_nat b).

End Py.

(** ** Python floats as the parsers meet them *)

Module Float.
(** A Python float: a number, an infinity or a NaN.  A number is given by
    its exact value; the floats that the functions below compute are
    doubles.  The two zeros are one. *)
Inductive t :=
  | Num (q : Q)
  | Inf (negative : bool)
  | NaN.

Definition zero : t := Num 0.

(** Truth value: every float but zero. *)
Definition truthy (f : t) : bool :=
  match f with Num q => negb (Qeq_bool q 0) | _ => true end.

(** *** Doubles *)

(** [floor (log2 q)] of a positive rational. *)
Definition ilog2 (q : Q) : Z :=
  let k := (Z.log2 (Qnum q) - Z.log2 (Z.pos (Qden q)))%Z in
  if Qle_bool (2 ^ k) q then k else (k - 1)%Z.

(** The integer nearest to a rational that is not negative; of two
    integers that are as near, the even one. *)
Definition nearest_even (q : Q) : Z :=
  let f := (Qnum q / Z.pos (Qden q))%Z in
  match (q - inject_Z f ?= 1 # 2)%Q with
  | Lt => f
  | Gt => (f + 1)%Z
  | Eq => if Z.even f then f else (f + 1)%Z
  end.

(** The double nearest to a positive rational: 53 binary digits, the last
    of them no finer than [2 ^ -1074]; [None] when that is [2 ^ 1024] or
    more, beyond the largest double. *)
Definition nearest_double (q : Q) : option Q :=
  let e := Z.max (ilog2 q - 52) (-1074) in
  let r := (inject_Z (nearest_even (q / 2 ^ e)) * 2 ^ e)%Q in
  if Qle_bool (2 ^ 1024) r then None else Some (Qred r).

(** The float nearest to a rational; an infinity beyond the largest
    double. *)
Definition of_Q (q : Q) : t :=
  match (q ?= 0)%Q with
  | Eq => zero
  | Gt => match nearest_double q with Some r => Num r | None => Inf false end
  | Lt => match nearest_double (- q) with Some r => Num (- r) | None => Inf true end
  end.

(** The order of the floats.  A NaN compares with nothing; a number is
    compared by its exact value, so that a threshold may as well be an
    integer. *)
Definition compare (x y : t) : option comparison :=
  match x, y with
  | NaN, _ | _, NaN => None
  | Num a, Num b => Some (a ?= b)%Q
  | Inf s, Inf s' => Some (if Bool.eqb s s' then Eq else if s then Lt else Gt)
  | Inf s, Num _ => Some (if s then Lt else Gt)
  | Num _, Inf s => Some (if s then Gt else Lt)
  end.

(** [x < y] and [x <= y]. *)
Definition ltb (x y : t) : bool :=
  match compare x y with Some Lt => true | _ => false end.

Definition leb (x y : t) : bool :=
  match compare x y with Some Lt | Some Eq => true | _ => false end.

(** [min(x, y)]: the first argument unless the second is less. *)
Definition min (x y : t) : t := if ltb y x then y else x.

(** [x * y]. *)
Definition mul (x y : t) : t :=
  match x, y with
  | NaN, _ | _, NaN => NaN
  | Num a, Num b => of_Q (a * b)
  | Inf s, Inf s' => Inf (xorb s s')
  | Inf s, Num b | Num b, Inf s =>
      match (b ?= 0)%Q with
      | Eq => NaN
      | Gt => Inf s
      | Lt => Inf (negb s)
      end
  end.

(** [a / b] for two integers that are not negative, [b] not zero: the
    double nearest to the quotient. *)
Definition truediv (a b : nat) : t := of_Q (Z.of_nat a # Pos.of_nat b).

(** The whitespace that [float] ignores around a number: that of
    [str.isspace] but for the four separators, code points 28 to 31. *)
Definition is_space (c : ascii) : bool :=
  let n := nat_of_ascii c in
  (((9 <=? n) && (n <=? 13)) || (n =? 32) || (n =? 133) || (n =? 160))%nat.

Definition is_digit (c : ascii) : bool :=
  let n := nat_of_ascii c in ((48 <=? n) && (n <=? 57))%nat.

Definition digit_val (c : ascii) : Z := Z.of_nat (nat_of_ascii c - 48).

(** The rest of a group of digits, [("_"? digit)*]: the number read so
    far, how many digits it has, and what follows the group. *)
Fixpoint digits_rest (acc : Z) (n : nat) (s : string) : Z * nat * string :=
  match s with
  | String c s' =>
      if is_digit c then digits_rest (10 * acc + digit_val c) (S n) s'
      else if Ascii.eqb c "_" then
        match s' with
        | String d s'' =>
            if is_digit d then digits_rest (10 * acc + digit_val d) (S n) s''
            else (acc, n, s)
        | EmptyString => (acc, n, s)
        end
      else (acc, n, s)
  | EmptyString => (acc, n, s)
  end.

(** A group of digits that continues the number [acc], if one starts
    here: [digit ("_"? digit)*]. *)
Definition digitpart (acc : Z) (s : string) : option (Z * nat * string) :=
  match s with
  | String c s' =>
      if is_digit c then Some (digits_rest (10 * acc + digit_val c) 1 s')
      else None
  | EmptyString => None
  end.

Definition sign (s : string) : bool * string :=
  match s with
  | String "-" r => (true, r)
  | String "+" r => (false, r)
  | _ => (false, s)
  end.

(** The exponent [("e" | "E") sign? digitpart], when the text goes on;
    [None] when what is left is not an exponent up to the end. *)
Definition exponent (s : string) : option Z :=
  match s with
  | EmptyString => Some 0%Z
  | String c r =>
      if Ascii.eqb c "e" || Ascii.eqb c "E" then
        let '(neg, r) := sign r in
        match digitpart 0 r with
        | Some (e, _, EmptyString) => Some (if neg then (- e)%Z else e)
        | _ => None
        end
      else None
  end.

(** [float(s)] on a string: the double nearest to the number written,
    an infinity when it is too large; [None] is [ValueError]. *)
Definition of_string (s : string) : option t :=
  let '(neg, body) := sign (Py.rstrip_by is_space (Py.lstrip_by is_space s)) in
  let low := Py.lower body in
  if String.eqb low "inf" || String.eqb low "infinity" then Some (Inf neg)
  else if String.eqb low "nan" then Some NaN
  else
    let '(int_digits, mant, after_int) :=
      match digitpart 0 body with
      | Some (m, _, r) => (true, m, r)
      | None => (false, 0%Z, body)
      end in
    let '(frac_digits, mant, scale, after_frac) :=
      match after_int with
      | String "." r =>
          match digitpart mant r with
          | Some (m, n, r') => (true, m, n, r')
          | None => (false, mant, 0%nat, r)
          end
      | _ => (false, mant, 0%nat, after_int)
      end in
    if int_digits || frac_digits then
      match exponent after_frac with
      | Some e =>
          let m := if neg then (- mant)%Z else mant in
          Some (of_Q (inject_Z m * 10 ^ (e - Z.of_nat scale)))
      | None => None
      end
    else None.
End Float.

(** ** Data classes *)

Module TestExecution.
Record t := mk {
  test_name : string;
  status : string;
  run_id : string;
  duration_seconds : Float.t;
  error_message : string;
  timestamp : string
}.
End TestExecution.

Module FlakyTestResult.
Record t := mk {
  test_name : string;
  total_runs : nat;
  pass_count : nat;
  fail_count : nat;
  error_count : nat;
  skip_count : nat;
  flakiness_score : Q;
  classification : string;
  fail_run_ids : gset string;
  pass_run_ids : gset string;
  error_messages : gset string
}.
End FlakyTestResult.

Module FlakyTestConfig.
Record t := mk {
  flakiness_threshold : Q;
  min_runs_required : Z;
  true_failure_threshold : Q
}.
(** The defaults of the data class. *)
Definition default : t := mk 0 2 1.
End FlakyTestConfig.

(** The [metadata] dictionary built by [analyze]. *)
Module Metadata.
Record t := mk {
  total_executions : nat;
  unique_runs : nat;
  config : FlakyTestConfig.t
}.
End Metadata.

Module FlakyTestSummary.
(** [metadata] is [None] for the empty dictionary, the default of the
    data class. *)
Record t := mk {
  total_tests_analyzed : nat;
  flaky_tests : list FlakyTestResult.t;
  true_failures : list FlakyTestResult.t;
  stable_tests : nat;
  always_skipped : nat;
  overall_flakiness_rate : Q;
  metadata : option Metadata.t
}.
End FlakyTestSummary.

Abbreviation Exec := TestExecution.t.
Abbreviation Result := FlakyTestResult.t.
Abbreviation Config := FlakyTestConfig.t.
Abbreviation Summary := FlakyTestSummary.t.

(** ** The status normalizer *)

Definition _normalize_status (raw : string) : string :=
  let raw := Py.lower (Py.strip raw) in
  if Py.mem raw ["pass"; "passed"; "ok"; "success"] then "passed"
  else if Py.mem raw ["fail"; "failed"; "failure"] then "failed"
  else if Py.mem raw ["error"; "errored"] then "error"
  else if Py.mem raw ["skip"; "skipped"; "ignored"; "pending"] then "skipped"
  else "failed".

(** ** The classifier *)

(** [sum(1 for e in execs if e.status == s)]. *)
Definition count_status (s : string) (execs : list Exec) : nat :=
  length (filter (λ e, TestExecution.status e = s) execs).

(** [{e.run_id for e in execs if e.status in sts and e.run_id}]. *)
Definition run_ids_with (sts : list string) (execs : list Exec) : gset string :=
  list_to_set
    (TestExecution.run_id <$>
       filter (λ e, Py.mem (TestExecution.status e) sts
                    && Py.truthy (TestExecution.run_id e) = true) execs).

(** [{e.error_message for e in execs if e.error_message}]. *)
Definition message_set (execs : list Exec) : gset string :=
  list_to_set
    (TestExecution.error_message <$>
       filter (λ e, Py.truthy (TestExecution.error_message e) = true) execs).

Definition _classify_test (config : Config) (test_name : string)
    (execs : list Exec) : Result :=
  let pass_count := count_status "passed" execs in
  let fail_count := count_status "failed" execs in
  let error_count := count_status "error" execs in
  let skip_count := count_status "skipped" execs in
  let total_runs := length execs in
  let fail_run_ids := run_ids_with ["failed"; "error"] execs in
  let pass_run_ids := run_ids_with ["passed"] execs in
  let error_messages := message_set execs in
  let effective_runs := (pass_count + fail_count + error_count)%nat in
  let combined_fails := (fail_count + error_count)%nat in
  let '(classification, flakiness_score) :=
    if (effective_runs =? 0)%nat then ("always_skipped", 0%Q)
    else if (Z.of_nat effective_runs <? FlakyTestConfig.min_runs_required config)%Z then
      let classification :=
        if (combined_fails =? effective_runs)%nat then "true_failure"
        else if (combined_fails =? 0)%nat then "stable"
        else "flaky" in
      let fail_rate := Py.truediv combined_fails effective_runs in
      let pass_rate := Py.truediv pass_count effective_runs in
      (classification, (2 * Py.min pass_rate fail_rate)%Q)
    else
      let fail_rate := Py.truediv combined_fails effective_runs in
      let pass_rate := Py.truediv pass_count effective_runs in
      let flakiness_score := (2 * Py.min pass_rate fail_rate)%Q in
      let classification :=
        if Qle_bool (FlakyTestConfig.true_failure_threshold config) fail_rate
        then "true_failure"
        else if negb (Qle_bool flakiness_score (FlakyTestConfig.flakiness_threshold config))
                && (0 <? combined_fails)%nat && (0 <? pass_count)%nat
        then "flaky"
        else "stable" in
      (classification, flakiness_score) in
  FlakyTestResult.mk test_name total_runs pass_count fail_count error_count
    skip_count flakiness_score classification fail_run_ids pass_run_ids
    error_messages.

(** ** The classifier in doubles

    The same function with the arithmetic of the interpreter: a rate is
    the double nearest to the quotient of the two counts, the score is
    twice the lesser rate, and the thresholds of the configuration are
    floats.  The counts, the run identifiers and the messages are those of
    [_classify_test]. *)

Module Binary64.

Record Config := mk_config {
  flakiness_threshold : Float.t;
  min_runs_required : Z;
  true_failure_threshold : Float.t
}.

(** [FlakyTestConfig()]: the thresholds [0.0] and [1.0], two runs. *)
Definition default_config : Config := mk_config (Float.Num 0) 2 (Float.Num 1).

Record Result := mk_result {
  test_name : string;
  total_runs : nat;
  pass_count : nat;
  fail_count : nat;
  error_count : nat;
  skip_count : nat;
  flakiness_score : Float.t;
  classification : string;
  fail_run_ids : gset string;
  pass_run_ids : gset string;
  error_messages : gset string
}.

Definition _classify_test (config : Config) (test_name : string)
    (execs : list Exec) : Result :=
  let pass_count := count_status "passed" execs in
  let fail_count := count_status "failed" execs in
  let error_count := count_status "error" execs in
  let skip_count := count_status "skipped" execs in
  let total_runs := length execs in
  let fail_run_ids := run_ids_with ["failed"; "error"] execs in
  let pass_run_ids := run_ids_with ["passed"] execs in
  let error_messages := message_set execs in
  let effective_runs := (pass_count + fail_count + error_count)%nat in
  let combined_fails := (fail_count + error_count)%nat in
  let '(classification, flakiness_score) :=
    if (effective_runs =? 0)%nat then ("always_skipped", Float.Num 0)
    else if (Z.of_nat effective_runs <? min_runs_required config)%Z then
      let classification :=
        if (combined_fails =? effective_runs)%nat then "true_failure"
        else if (combined_fails =? 0)%nat then "stable"
        else "flaky" in
      let fail_rate := Float.truediv combined_fails effective_runs in
      let pass_rate := Float.truediv pass_count effective_runs in
      (classification, Float.mul (Float.Num 2) (Float.min pass_rate fail_rate))
    else
      let fail_rate := Float.truediv combined_fails effective_runs in
      let pass_rate := Float.truediv pass_count effective_runs in
      let flakiness_score := Float.mul (Float.Num 2) (Float.min pass_rate fail_rate) in
      let classification :=
        if Float.leb (true_failure_threshold config) fail_rate
        then "true_failure"
        else if Float.ltb (flakiness_threshold config) flakiness_score
                && (0 <? combined_fails)%nat && (0 <? pass_count)%nat
        then "flaky"
        else "stable" in
      (classification, flakiness_score) in
  mk_result test_name total_runs pass_count fail_count error_count
    skip_count flakiness_score classification fail_run_ids pass_run_ids
    error_messages.

(** The float that a literal of the source or of a configuration file
    stands for; a NaN for a text that is no number. *)
Definition literal (s : string) : Float.t := default Float.NaN (Float.of_string s).

End Binary64.

(** ** The summary aggregator *)

(** [grouped[ex.test_name].append(ex)] on a dictionary that keeps its keys
    in insertion order. *)
Fixpoint group_append (ex : Exec) (grouped : list (string * list Exec))
    : list (string * list Exec) :=
  match grouped with
  | [] => [(TestExecution.test_name ex, [ex])]
  | (k, execs) :: rest =>
      if String.eqb k (TestExecution.test_name ex)
      then (k, execs ++ [ex]) :: rest
      else (k, execs) :: group_append ex rest
  end.

(** The loop [for ex in executions: grouped[ex.test_name].append(ex)]. *)
Definition group_by_name (executions : list Exec) : list (string * list Exec) :=
  fold_left (λ grouped ex, group_append ex grouped) executions [].

(** [sorted(l, key=lambda r: r.flakiness_score, reverse=True)]: a stable
    sort, greatest score first. *)
Fixpoint insert_by_score (r : Result) (l : list Result) : list Result :=
  match l with
  | [] => [r]
  | x :: l' =>
      if Qle_bool (FlakyTestResult.flakiness_score x) (FlakyTestResult.flakiness_score r)
      then r :: l
      else x :: insert_by_score r l'
  end.

Definition sorted_by_score_desc (l : list Result) : list Result :=
  foldr insert_by_score [] l.

(** [[r for r in results if r.classification == c]]. *)
Definition with_classification (c : string) (results : list Result) : list Result :=
  filter (λ r, FlakyTestResult.classification r = c) results.

(** The list [results] of [analyze]: one result per group, in the order in
    which the test names first occur. *)
Definition classify_all (config : Config) (executions : list Exec) : list Result :=
  (λ g, _classify_test config g.1 g.2) <$> group_by_name executions.

(** [{ex.run_id for ex in executions if ex.run_id}]. *)
Definition run_id_set (executions : list Exec) : gset string :=
  list_to_set
    (TestExecution.run_id <$>
       filter (λ ex, Py.truthy (TestExecution.run_id ex) = true) executions).

Definition analyze (config : Config) (executions : list Exec) : Summary :=
  match executions with
  | [] => FlakyTestSummary.mk 0 [] [] 0 0 0 None
  | _ =>
      let results := classify_all config executions in
      let flaky := sorted_by_score_desc (with_classification "flaky" results) in
      let true_failures := with_classification "true_failure" results in
      let stable := length (with_classification "stable" results) in
      let always_skipped := length (with_classification "always_skipped" results) in
      let total := length results in
      let flakiness_rate :=
        if (0 <? total)%nat then Py.truediv (length flaky) total else 0%Q in
      let run_ids := run_id_set executions in
      FlakyTestSummary.mk total flaky true_failures stable always_skipped
        flakiness_rate
        (Some (Metadata.mk (length executions) (size run_ids) config))
  end.

(** ** Exceptions, logging and the files read *)

(** The exception classes that the parsers can meet; [OSError] stands for
    its subclasses too. *)
Inductive exn :=
  | ParseError | JSONDecodeError | OSError | UnicodeDecodeError
  | ValueError | TypeError | AttributeError | OverflowError | RecursionError.

Global Instance exn_eq_dec : EqDecision exn.
Proof. solve_decision. Defined.

Inductive level := WARNING | INFO.

(** One call of [LOGGER.warning] or [LOGGER.info]: the level, the format
    string and the path it is about. *)
Record log_record := LogRecord {
  log_level : level;
  log_format : string;
  log_path : string
}.

(** What a call ends with: a value, a Python exception, or [IllTyped] when
    the record to build would hold a test name that is not a [str]: the data
    class declares [test_name: str], and the model stops there. *)
Inductive result (A : Type) :=
  | Return (a : A)
  | Raise (e : exn)
  | IllTyped.
Arguments Return {A} a.
Arguments Raise {A} e.
Arguments IllTyped {A}.

(** A computation: the records logged, in order, and the result. *)
Definition M (A : Type) : Type := list log_record * result A.

Definition raise {A} (e : exn) : M A := ([], Raise e).
Definition ill_typed {A} : M A := ([], IllTyped).
Definition warning (fmt path : string) : M unit :=
  ([LogRecord WARNING fmt path], Return tt).
Definition info (fmt path : string) : M unit :=
  ([LogRecord INFO fmt path], Return tt).

Global Instance M_ret : MRet M := λ A a, ([], Return a).

Global Instance M_bind : MBind M := λ A B k m,
  match m with
  | (l, Return a) => let '(l', r) := k a in (l ++ l', r)
  | (l, Raise e) => (l, Raise e)
  | (l, IllTyped) => (l, IllTyped)
  end.

(** [for x in xs: acc.extend(f(x))]. *)
Fixpoint extend_each {A B} (f : A → M (list B)) (xs : list A) (acc : list B)
    : M (list B) :=
  match xs with
  | [] => mret acc
  | x :: xs' => ys ← f x; extend_each f xs' (acc ++ ys)
  end.

(** What a library call that reads a file gives back. *)
Inductive io (A : Type) :=
  | Got (a : A)
  | Thrown (e : exn).
Arguments Got {A} a.
Arguments Thrown {A} e.

(** *** Element trees *)

Inductive element :=
  | Element (tag : string) (attrib : list (string * string))
      (text : option string) (children : list element).

Definition tag (e : element) : string := let 'Element t _ _ _ := e in t.
Definition attrib (e : element) : list (string * string) := let 'Element _ a _ _ := e in a.
Definition text (e : element) : option string := let 'Element _ _ t _ := e in t.
Definition children (e : element) : list element := let 'Element _ _ _ c := e in c.

(** [d.get(key, default)] on a dictionary given by its items. *)
Fixpoint assoc_get {V} (key : string) (default : V) (items : list (string * V)) : V :=
  match items with
  | [] => default
  | (k, v) :: rest => if String.eqb k key then v else assoc_get key default rest
  end.

(** [e.get(key, default)]. *)
Definition attr_get (e : element) (key default : string) : string :=
  assoc_get key default (attrib e).

(** [e.findall(t)]: the children with tag [t], in document order. *)
Definition findall (e : element) (t : string) : list element :=
  filter (λ c, tag c = t) (children e).

(** [e.find(t)]: the first child with tag [t]. *)
Definition find (e : element) (t : string) : option element :=
  head (findall e t).

(** [e.findall(".//" + t)]: the descendants with tag [t], in document
    order; the element itself is not one of them. *)
Fixpoint descendants (e : element) : list element :=
  let 'Element _ _ _ cs := e in
  flat_map (λ c, c :: descendants c) cs.

Definition findall_deep (e : element) (t : string) : list element :=
  filter (λ c, tag c = t) (descendants e).

(** *** Decoded JSON *)

Inductive json :=
  | JNull
  | JBool (b : bool)
  | JInt (z : Z)
  | JFloat (f : Float.t)
  | JStr (s : string)
  | JList (items : list json)
  | JDict (items : list (string * json)).

(** *** The file system *)

(** A regular file, by what each reader makes of it: [ET.parse],
    [json.load] on the file opened as UTF-8, and [read_text] with
    undecodable bytes replaced. *)
Record file := File_ {
  file_xml : io element;
  file_json : io json;
  file_text : io string
}.

(** A directory entry: a regular file, a directory with its entries (names
    are distinct), or anything else. *)
Inductive node :=
  | File (f : file)
  | Dir (entries : list (string * node))
  | Other.

(** A path: its last component and what it leads to, if anything. *)
Record Path := Path_ {
  name : string;
  target : option node
}.

(** [p.suffix] and [p.stem]: the name is cut at its last dot, unless that
    dot is the first or the last character. *)
Fixpoint rfind_dot (s : string) : option nat :=
  match s with
  | EmptyString => None
  | String c s' =>
      match rfind_dot s' with
      | Some i => Some (S i)
      | None => if Ascii.eqb c "." then Some 0%nat else None
      end
  end.

Definition split_name (n : string) : string * string :=
  match rfind_dot n with
  | Some i =>
      if ((0 <? i) && (i <? String.length n - 1))%nat
      then (String.substring 0 i n, String.substring i (String.length n - i) n)
      else (n, "")
  | None => (n, "")
  end.

Definition stem (p : Path) : string := (split_name (name p)).1.
Definition suffix (p : Path) : string := (split_name (name p)).2.

Definition is_dir (p : Path) : bool :=
  match target p with Some (Dir _) => true | _ => false end.

Definition is_file (p : Path) : bool :=
  match target p with Some (File _) => true | _ => false end.

(** [p.iterdir()] of a directory, in no particular order. *)
Definition iterdir (p : Path) : list Path :=
  match target p with
  | Some (Dir entries) => (λ e, Path_ e.1 (Some e.2)) <$> entries
  | _ => []
  end.

(** [sorted(paths)] for paths of one directory: by name, code point by
    code point. *)
Fixpoint insert_by_name (p : Path) (l : list Path) : list Path :=
  match l with
  | [] => [p]
  | q :: l' =>
      if String.leb (name p) (name q) then p :: l else q :: insert_by_name p l'
  end.

Definition sorted_paths (l : list Path) : list Path := foldr insert_by_name [] l.

(** The three readers.  A path that does not lead to a regular file makes
    each of them fail with an [OSError]. *)
Definition et_parse (p : Path) : io element :=
  match target p with Some (File f) => file_xml f | _ => Thrown OSError end.

Definition json_load (p : Path) : io json :=
  match target p with Some (File f) => file_json f | _ => Thrown OSError end.

Definition read_text (p : Path) : io string :=
  match target p with Some (File f) => file_text f | _ => Thrown OSError end.

(** ** The structured-XML parser *)

(** [float(s)]. *)
Definition float_of_string (s : string) : M Float.t :=
  match Float.of_string s with
  | Some f => mret f
  | None => raise ValueError
  end.

(** The body of the loop over the test cases of a suite. *)
Definition junit_testcase (path : Path) (run_id : string) (tc : element) : M Exec :=
  let name := attr_get tc "name" "unknown" in
  let classname := attr_get tc "classname" "" in
  let full_name := if Py.truthy classname then classname +:+ "::" +:+ name else name in
  duration ← float_of_string (Py.or_else (attr_get tc "time" "0") "0");
  let failure := find tc "failure" in
  let error := find tc "error" in
  let skipped := find tc "skipped" in
  let '(status, msg) :=
    match failure, error, skipped with
    | Some failure, _, _ =>
        ("failed", attr_get failure "message" (default "" (text failure)))
    | None, Some error, _ =>
        ("error", attr_get error "message" (default "" (text error)))
    | None, None, Some skipped =>
        ("skipped", attr_get skipped "message" "")
    | None, None, None => ("passed", "")
    end in
  mret (TestExecution.mk full_name status (Py.or_else run_id (stem path))
          duration (Py.take 500 msg) "").

Definition parse_junit_xml (path : Path) (run_id : string) : M (list Exec) :=
  match et_parse path with
  | Thrown ParseError =>
      warning "Failed to parse JUnit XML %s: %s" (name path);; mret []
  | Thrown e => raise e
  | Got root =>
      let suites :=
        if String.eqb (tag root) "testsuites"
        then findall_deep root "testsuite" else [root] in
      let suites := if String.eqb (tag root) "testsuite" then [root] else suites in
      extend_each
        (λ suite,
           extend_each (λ tc, ex ← junit_testcase path run_id tc; mret [ex])
             (findall suite "testcase") [])
        suites []
  end.

(** ** The structured-JSON parser *)

(** Truth value of a decoded JSON value. *)
Definition json_truthy (v : json) : bool :=
  match v with
  | JNull => false
  | JBool b => b
  | JInt z => negb (z =? 0)%Z
  | JFloat f => Float.truthy f
  | JStr s => Py.truthy s
  | JList items => match items with [] => false | _ => true end
  | JDict items => match items with [] => false | _ => true end
  end.

(** [a or b]. *)
Definition json_or (a b : json) : json := if json_truthy a then a else b.

(** [str(v)].  The text of a float, a list or a dictionary is left to
    [repr], which stands for the built-in of that name. *)
Definition json_str (repr : json → string) (v : json) : string :=
  match v with
  | JStr s => s
  | JNull => "None"
  | JBool true => "True"
  | JBool false => "False"
  | JInt z => NilZero.string_of_int (Z.to_int z)
  | _ => repr v
  end.

(** [float(v)].  An integer gives the double nearest to it, and an
    [OverflowError] when it is too large for a double. *)
Definition json_float (v : json) : M Float.t :=
  match v with
  | JInt z =>
      match Float.of_Q (inject_Z z) with
      | Float.Inf _ => raise OverflowError
      | f => mret f
      end
  | JFloat f => mret f
  | JBool b => mret (Float.Num (if b then 1 else 0))
  | JStr s => float_of_string s
  | JNull | JList _ | JDict _ => raise TypeError
  end.

(** The body of the loop over the records, for a record that is a
    dictionary.  The arguments of [TestExecution(...)] are evaluated in
    order, so a bad duration raises whatever the name is.  The class
    takes any value for the name, where the record of the model holds a
    string: a name that is no string ends in [ill_typed], and what is
    proved about when the parser returns is stated for dictionaries whose
    name is a string. *)
Definition json_record (repr : json → string) (path : Path) (run_id : string)
    (record : list (string * json)) : M Exec :=
  let get key default := assoc_get key default record in
  let name :=
    json_or (json_or (get "name" JNull) (get "test_name" JNull))
      (get "testName" (JStr "unknown")) in
  let raw_status :=
    Py.lower (json_str repr (json_or (get "status" JNull) (get "result" (JStr "unknown")))) in
  let status := _normalize_status raw_status in
  duration ← json_float (json_or (get "duration" (JInt 0)) (JInt 0));
  let message :=
    Py.take 500
      (json_str repr (json_or (get "message" JNull) (get "error_message" (JStr "")))) in
  let timestamp := json_str repr (get "timestamp" (JStr "")) in
  match name with
  | JStr name =>
      mret (TestExecution.mk name status (Py.or_else run_id (stem path))
              duration message timestamp)
  | _ => ill_typed
  end.

Definition parse_json_results (repr : json → string) (path : Path) (run_id : string)
    : M (list Exec) :=
  match json_load path with
  | Thrown e =>
      if bool_decide (e = JSONDecodeError ∨ e = OSError)
      then warning "Failed to parse JSON results %s: %s" (name path);; mret []
      else raise e
  | Got data =>
      records ←
        match data with
        | JList _ => mret data
        | JDict items =>
            mret (assoc_get "test_results" (assoc_get "tests" (JList []) items) items)
        | _ => raise AttributeError
        end;
      match records with
      | JList records =>
          extend_each
            (λ record,
               match record with
               | JDict items => ex ← json_record repr path run_id items; mret [ex]
               | _ => mret []
               end)
            records []
      | _ => warning "Unexpected JSON structure in %s" (name path);; mret []
      end
  end.

(** ** The free-text parser *)

(** A literal of the pattern at the start of [s], letter case ignored:
    what follows it. *)
Fixpoint imatch (pat s : string) : option string :=
  match pat with
  | EmptyString => Some s
  | String p pat' =>
      match s with
      | String c s' =>
          if Ascii.eqb (Py.lower_char c) (Py.lower_char p) then imatch pat' s' else None
      | EmptyString => None
      end
  end.

(** The longest run of whitespace at the start of [s]: its length and what
    follows. *)
Fixpoint span_space (s : string) : nat * string :=
  match s with
  | String c s' =>
      if Py.isspace c then let '(n, r) := span_space s' in (S n, r) else (0%nat, s)
  | EmptyString => (0%nat, s)
  end.

(** The longest whitespace-free run at the start of [s]. *)
Fixpoint span_nonspace (s : string) : string :=
  match s with
  | String c s' => if Py.isspace c then EmptyString else String c (span_nonspace s')
  | EmptyString => EmptyString
  end.

(** [\s+(?P<test_name>\S+)] at the start of [s]: the length matched and
    the name.  Both runs are greedy, and giving a character back never
    helps: what follows a longest whitespace run is not whitespace. *)
Definition match_tail (s : string) : option (nat * string) :=
  let '(k, r) := span_space s in
  let test_name := span_nonspace r in
  if (0 <? k)%nat && Py.truthy test_name
  then Some ((k + String.length test_name)%nat, test_name) else None.

(** The alternatives of the group [status], in order: a word and its
    optional ending. *)
Definition status_alternatives : list (string * option string) :=
  [("PASS", Some "ED"); ("FAIL", Some "ED"); ("ERROR", None); ("SKIP", Some "PED")].

(** One alternative at the start of [s], followed by the rest of the
    pattern: the optional ending is tried first, then left out.  The result
    is the text of [status], the name and the length of the match. *)
Definition match_alternative (word : string) (ending : option string) (s : string)
    : option (string * string * nat) :=
  match imatch word s with
  | None => None
  | Some r =>
      let n := String.length word in
      let short :=
        match match_tail r with
        | Some (k, test_name) => Some (String.substring 0 n s, test_name, (n + k)%nat)
        | None => None
        end in
      match ending with
      | None => short
      | Some e =>
          match imatch e r with
          | None => short
          | Some r' =>
              let n' := (n + String.length e)%nat in
              match match_tail r' with
              | Some (k, test_name) =>
                  Some (String.substring 0 n' s, test_name, (n' + k)%nat)
              | None => short
              end
          end
      end
  end.

(** [_TEXT_RESULT_RE.match] at the start of [s]. *)
Definition match_here (s : string) : option (string * string * nat) :=
  foldr (λ alt rest,
           match match_alternative alt.1 alt.2 s with
           | Some m => Some m
           | None => rest
           end)
    None status_alternatives.

(** [_TEXT_RESULT_RE.finditer(s)]: the matches from left to right, each
    search starting where the last match ended; [skip] characters belong
    to the last match still. *)
Fixpoint finditer (skip : nat) (s : string) : list (string * string) :=
  match s with
  | EmptyString => []
  | String _ s' =>
      match skip with
      | S k => finditer k s'
      | O =>
          match match_here s with
          | Some (status, test_name, n) => (status, test_name) :: finditer (n - 1) s'
          | None => finditer 0 s'
          end
      end
  end.

(** The record that [parse_text_log] builds from one match. *)
Definition text_record (path : Path) (run_id : string) (m : string * string) : Exec :=
  TestExecution.mk m.2 (_normalize_status (Py.lower m.1))
    (Py.or_else run_id (stem path)) Float.zero "" "".

Definition parse_text_log (path : Path) (run_id : string) : M (list Exec) :=
  match read_text path with
  | Thrown OSError =>
      warning "Failed to read log file %s: %s" (name path);; mret []
  | Thrown e => raise e
  | Got content =>
      mret (text_record path run_id <$> finditer 0 content)
  end.

(** ** Format dispatch and the directory loader *)

Definition _auto_detect_and_parse (repr : json → string) (path : Path)
    (run_id : string) : M (list Exec) :=
  let suffix := Py.lower (suffix path) in
  if String.eqb suffix ".xml" then parse_junit_xml path run_id
  else if String.eqb suffix ".json" then parse_json_results repr path run_id
  else parse_text_log path run_id.

(** [file_path.is_file() and file_path.suffix.lower() in (...)]. *)
Definition is_result_file (p : Path) : bool :=
  is_file p && Py.mem (Py.lower (suffix p)) [".xml"; ".json"; ".log"; ".txt"].

(** The inner loop: the result files of one directory, parsed in the order
    of their names. *)
Definition load_files (repr : json → string) (dir : Path) (run_id : string)
    (acc : list Exec) : M (list Exec) :=
  extend_each (λ p, _auto_detect_and_parse repr p run_id)
    (filter (λ p, is_result_file p = true) (sorted_paths (iterdir dir))) acc.

Definition load_results_from_directory (repr : json → string) (directory : Path)
    : M (list Exec) :=
  if negb (is_dir directory) then
    warning "Test results directory does not exist: %s" (name directory);; mret []
  else
    let subdirs := sorted_paths (filter (λ d, is_dir d = true) (iterdir directory)) in
    all_executions ←
      match subdirs with
      | _ :: _ =>
          foldl (λ acc subdir, all ← acc; load_files repr subdir (name subdir) all)
            (mret []) subdirs
      | [] => load_files repr directory "" []
      end;
    info "Loaded %d test executions from %s" (name directory);;
    mret all_executions.

(** ** Quantities of the specification *)

(** The counts on which [_classify_test] decides. *)
Definition passes (execs : list Exec) : nat := count_status "passed" execs.
Definition combined_fails (execs : list Exec) : nat :=
  (count_status "failed" execs + count_status "error" execs)%nat.
Definition effective_runs (execs : list Exec) : nat :=
  (count_status "passed" execs + count_status "failed" execs
   + count_status "error" execs)%nat.
Definition pass_rate (execs : list Exec) : Q :=
  Py.truediv (passes execs) (effective_runs execs).
Definition fail_rate (execs : list Exec) : Q :=
  Py.truediv (combined_fails execs) (effective_runs execs).

(** The two rates as the interpreter computes them. *)
Definition pass_rate64 (execs : list Exec) : Float.t :=
  Float.truediv (passes execs) (effective_runs execs).
Definition fail_rate64 (execs : list Exec) : Float.t :=
  Float.truediv (combined_fails execs) (effective_runs execs).

(** The order of the flaky list: no score before a greater one. *)
Definition score_ge (a b : Result) : Prop :=
  (FlakyTestResult.flakiness_score b <= FlakyTestResult.flakiness_score a)%Q.

(** Exactly one of four propositions holds. *)
Definition exactly_one (P1 P2 P3 P4 : Prop) : Prop :=
  (P1 ∧ ¬ P2 ∧ ¬ P3 ∧ ¬ P4) ∨ (¬ P1 ∧ P2 ∧ ¬ P3 ∧ ¬ P4)
  ∨ (¬ P1 ∧ ¬ P2 ∧ P3 ∧ ¬ P4) ∨ (¬ P1 ∧ ¬ P2 ∧ ¬ P3 ∧ P4).

(** Every record of the list belongs to the run [id]. *)
Definition all_of_run (id : string) (recs : list Exec) : Prop :=
  Forall (λ ex, TestExecution.run_id ex = id) recs.

(** The subdirectories of a directory, in the order of the loader. *)
Definition subdirectories (directory : Path) : list Path :=
  sorted_paths (filter (λ d, is_dir d = true) (iterdir directory)).

(** A text of ASCII characters only. *)
Fixpoint is_ascii (s : string) : bool :=
  match s with
  | EmptyString => true
  | String c s' => (nat_of_ascii c <? 128)%nat && is_ascii s'
  end.

(** *** The pattern of the free-text parser, as a relation *)

Fixpoint all_space (s : string) : Prop :=
  match s with
  | EmptyString => True
  | String c s' => Py.isspace c = true ∧ all_space s'
  end.

Fixpoint no_space (s : string) : Prop :=
  match s with
  | EmptyString => True
  | String c s' => Py.isspace c = false ∧ no_space s'
  end.

(** The text ends here or goes on with a character that is no whitespace. *)
Definition at_word (s : string) : Prop :=
  match s with
  | EmptyString => True
  | String c _ => Py.isspace c = false
  end.

(** The text ends here or goes on with whitespace. *)
Definition at_boundary (s : string) : Prop :=
  match s with
  | EmptyString => True
  | String c _ => Py.isspace c = true
  end.

Definition status_words : list string :=
  ["pass"; "passed"; "fail"; "failed"; "error"; "skip"; "skipped"].

(** The pattern matches at the start of [s]: a status word in any letter
    case, a run of whitespace, and a run [test_name] without whitespace
    that cannot be made longer; [rest] is what follows the match. *)
Definition pattern_match (s status test_name rest : string) : Prop :=
  ∃ ws, s = status +:+ ws +:+ test_name +:+ rest
    ∧ Py.lower status ∈ status_words
    ∧ ws ≠ "" ∧ all_space ws
    ∧ test_name ≠ "" ∧ no_space test_name
    ∧ at_boundary rest.

(** The matches of the pattern in [s] from left to right, without
    overlap: where the pattern does not match, the search moves on by one
    character; where it does, it goes on after the match. *)
Inductive scan : string → list (string * string) → Prop :=
  | scan_end : scan "" []
  | scan_skip c s ms :
      (∀ status test_name rest, ¬ pattern_match (String c s) status test_name rest) →
      scan s ms → scan (String c s) ms
  | scan_match s status test_name rest ms :
      pattern_match s status test_name rest →
      scan rest ms → scan s ((status, test_name) :: ms).

(** *** The free-text format in the words of the specification *)

(** The lines of a text, cut at the line feeds. *)
Fixpoint split_lines_from (cur : string) (s : string) : list string :=
  match s with
  | EmptyString => [cur]
  | String c s' =>
      if Ascii.eqb c "010" then cur :: split_lines_from "" s'
      else split_lines_from (cur +:+ String c "") s'
  end.

Definition split_lines (s : string) : list string := split_lines_from "" s.

(** The tokens of a line: its longest runs without whitespace. *)
Fixpoint tokens_from (cur : option string) (s : string) : list string :=
  match s with
  | EmptyString => option_list cur
  | String c s' =>
      if Py.isspace c then option_list cur ++ tokens_from None s'
      else tokens_from (Some (default "" cur +:+ String c "")) s'
  end.

Definition tokens (line : string) : list string := tokens_from None line.

(** The first status token of a line that another token follows, with that
    token. *)
Fixpoint token_pair (toks : list string) : option (string * string) :=
  match toks with
  | status :: rest =>
      match rest with
      | test_name :: _ =>
          if Py.mem (Py.lower status) status_words then Some (status, test_name)
          else token_pair rest
      | [] => None
      end
  | [] => None
  end.

(** Follows the words of the specification: one record for each line that
    holds a status token followed by a name token. *)
Definition claimed_text_matches (content : string) : list (string * string) :=
  omap (λ line, token_pair (tokens line)) (split_lines content).

(** ** Sample inputs *)

Definition run (test_name status run_id : string) : Exec :=
  TestExecution.mk test_name status run_id Float.zero "" "".

(** Mixed outcomes over five runs. *)
Definition mixed_runs : list Exec :=
  [run "t" "passed" "r1"; run "t" "passed" "r2"; run "t" "failed" "r3";
   run "t" "passed" "r4"; run "t" "failed" "r5"].

(** Two passes and a failure. *)
Definition two_of_three : list Exec :=
  [run "t" "passed" "r1"; run "t" "passed" "r2"; run "t" "failed" "r3"].

(** Nine failures and a pass. *)
Definition nine_of_ten : list Exec :=
  run "t" "passed" "r0" :: ((λ id, run "t" "failed" id) <$>
    ["r1"; "r2"; "r3"; "r4"; "r5"; "r6"; "r7"; "r8"; "r9"]).

(** Four failing runs. *)
Definition failing_runs : list Exec :=
  [run "t" "failed" "r1"; run "t" "failed" "r2"; run "t" "failed" "r3";
   run "t" "failed" "r4"].

(** A single passing run. *)
Definition sparse_runs : list Exec := [run "t" "passed" "r1"].

(** Three skipped runs. *)
Definition skipped_runs : list Exec :=
  [run "t" "skipped" "r1"; run "t" "skipped" "r2"; run "t" "skipped" "r3"].

(** Two tests: the mixed one and one that fails in both of its runs. *)
Definition two_tests : list Exec :=
  mixed_runs ++ [run "u" "failed" "r1"; run "u" "failed" "r2"].

(** A test case that was skipped with a reason. *)
Definition skipped_testcase : element :=
  Element "testcase" [("classname", "tests.test_auth"); ("name", "test_login"); ("time", "0.5")]
    None [Element "skipped" [("message", "needs network")] None []].

Definition report_xml : Path :=
  Path_ "report.xml"
    (Some (File (File_ (Got (Element "testsuite" [("name", "auth")] None [skipped_testcase]))
                   (Thrown JSONDecodeError) (Got "")))).

(** A report whose only test case has a time that is not a number. *)
Definition bad_time_testcase : element :=
  Element "testcase" [("name", "test_login"); ("time", "abc")] None [].

Definition bad_time_xml : Path :=
  Path_ "bad.xml"
    (Some (File (File_ (Got (Element "testsuite" [] None [bad_time_testcase]))
                   (Thrown JSONDecodeError) (Got "")))).

(** A test case without a time. *)
Definition untimed_testcase : element :=
  Element "testcase" [("name", "test_logout")] None [].

(** A root with the runs [run_a] and [run_b]; each holds one result file
    whose own name suggests another run. *)
Definition results_root : Path :=
  Path_ "results"
    (Some (Dir
       [("run_b", Dir [("nightly.log", File (File_ (Thrown ParseError) (Thrown JSONDecodeError)
                                                (Got "PASS test_login")))]);
        ("run_a", Dir [("report.xml", File (File_
                          (Got (Element "testsuite" [] None [skipped_testcase]))
                          (Thrown JSONDecodeError) (Got "")))]);
        ("notes.txt", File (File_ (Thrown ParseError) (Thrown JSONDecodeError)
                              (Got "FAIL test_ignored")))])).

(** A path that leads nowhere. *)
Definition missing_root : Path := Path_ "nowhere" None.

(** A text log with the given content. *)
Definition text_log (content : string) : Path :=
  Path_ "ci.log"
    (Some (File (File_ (Thrown ParseError) (Thrown JSONDecodeError) (Got content)))).

(** ** More sample inputs *)

(** The mixed runs in another order. *)
Definition mixed_runs_shuffled : list Exec :=
  [run "t" "failed" "r3"; run "t" "passed" "r4"; run "t" "failed" "r5";
   run "t" "passed" "r1"; run "t" "passed" "r2"].

(** Two tests whose executions alternate. *)
Definition interleaved_runs : list Exec :=
  [run "a" "passed" "r1"; run "b" "failed" "r1"; run "a" "failed" "r2";
   run "b" "failed" "r2"; run "a" "passed" "r3"].

(** The four canonical statuses. *)
Definition canonical_statuses : list string := ["passed"; "failed"; "error"; "skipped"].

(** A JSON report: two records, one of them with a name and a result only. *)
Definition report_json : Path :=
  Path_ "nightly.JSON"
    (Some (File (File_ (Thrown ParseError)
       (Got (JDict [("tests",
               JList [JDict [("name", JStr "test_pay"); ("status", JStr "OK");
                             ("duration", JStr "1.5")];
                      JInt 7;
                      JDict [("testName", JStr "test_refund"); ("result", JStr "Broken")]])]))
       (Got "")))).

(** A flat directory with three files; one of them is not a result file. *)
Definition flat_root : Path :=
  Path_ "results"
    (Some (Dir
       [("b_run.txt", File (File_ (Thrown ParseError) (Thrown JSONDecodeError)
                              (Got "FAIL test_login")));
        ("a_run.xml", File (File_
                          (Got (Element "testsuite" [] None [skipped_testcase]))
                          (Thrown JSONDecodeError) (Got "")));
        ("notes.md", File (File_ (Thrown ParseError) (Thrown JSONDecodeError)
                             (Got "PASS test_ignored")))])).

(** A message of [n] characters. *)
Fixpoint filler (n : nat) : string :=
  match n with
  | O => EmptyString
  | S n' => String "x" (filler n')
  end.

(** A report with one failure whose message has 600 characters. *)
Definition verbose_xml : Path :=
  Path_ "verbose.xml"
    (Some (File (File_
       (Got (Element "testsuite" [] None
               [Element "testcase" [("name", "test_pay")] None
                  [Element "failure" [("message", filler 600)] None []]]))
       (Thrown JSONDecodeError) (Got "")))).

(** The directory [flat_root], listed in another order. *)
Definition flat_root_relisted : Path :=
  Path_ "results"
    (Some (Dir
       [("a_run.xml", File (File_
                          (Got (Element "testsuite" [] None [skipped_testcase]))
                          (Thrown JSONDecodeError) (Got "")));
        ("notes.md", File (File_ (Thrown ParseError) (Thrown JSONDecodeError)
                             (Got "PASS test_ignored")));
        ("b_run.txt", File (File_ (Thrown ParseError) (Thrown JSONDecodeError)
                              (Got "FAIL test_login")))])).

(** The order of [sorted] on the paths of one directory. *)
Definition name_le (p q : Path) : Prop := String.leb (name p) (name q) = true.

(** An entry of a directory that is itself a directory. *)
Definition is_dir_entry (e : string * node) : Prop := is_dir (Path_ e.1 (Some e.2)) = true.

Global Instance is_dir_entry_dec (e : string * node) : Decision (is_dir_entry e).
Proof. unfold is_dir_entry. apply _. Defined.

(** The root [results_root] without the file at its top. *)
Definition results_root_runs_only : Path :=
  Path_ "results"
    (Some (Dir
       [("run_b", Dir [("nightly.log", File (File_ (Thrown ParseError) (Thrown JSONDecodeError)
                                                (Got "PASS test_login")))]);
        ("run_a", Dir [("report.xml", File (File_
                          (Got (Element "testsuite" [] None [skipped_testcase]))
                          (Thrown JSONDecodeError) (Got "")))])])).

(** ** The records of a report *)

(** The suites that the XML parser goes through: the root itself, unless
    it is a [testsuites] element, whose [testsuite] descendants are taken. *)
Definition junit_suites (root : element) : list element :=
  let suites :=
    if String.eqb (tag root) "testsuites"
    then findall_deep root "testsuite" else [root] in
  if String.eqb (tag root) "testsuite" then [root] else suites.

(** The test cases of a report, in the order of the parser. *)
Definition junit_testcases (root : element) : list element :=
  concat ((λ suite, findall suite "testcase") <$> junit_suites root).

(** The test case has a time that [float] accepts, or none. *)
Definition timed (tc : element) : Prop :=
  is_Some (Float.of_string (Py.or_else (attr_get tc "time" "0") "0")).

(** The records of a JSON list that are dictionaries. *)
Definition json_dicts (records : list json) : list (list (string * json)) :=
  omap (λ record, match record with JDict items => Some items | _ => None end) records.

(** A report with a timed test case and one whose time is no number. *)
Definition half_timed_xml : Path :=
  Path_ "half.xml"
    (Some (File (File_
       (Got (Element "testsuites" []  None
               [Element "testsuite" [] None [untimed_testcase];
                Element "testsuite" [] None [bad_time_testcase]]))
       (Thrown JSONDecodeError) (Got "")))).

(** The list of records that the JSON parser finds in a decoded file: the
    file itself when it is a list, else what its key [test_results], or
    else its key [tests], holds, when that is a list. *)
Definition json_records (data : json) : option (list json) :=
  match data with
  | JList records => Some records
  | JDict items =>
      match assoc_get "test_results" (assoc_get "tests" (JList []) items) items with
      | JList records => Some records
      | _ => None
      end
  | _ => None
  end.

(** The name that the JSON parser gives the record of a dictionary: the
    first of the values of [name], [test_name] and [testName] that counts
    as true, [unknown] without the last key. *)
Definition json_name (items : list (string * json)) : json :=
  json_or (json_or (assoc_get "name" JNull items) (assoc_get "test_name" JNull items))
    (assoc_get "testName" (JStr "unknown") items).

(** The dictionary has a name that is a string. *)
Definition named (items : list (string * json)) : Prop :=
  ∃ n, json_name items = JStr n.

(** How a parser ends on a file that it reads: with a value, or with one
    of the exceptions that [float] raises. *)
Definition float_outcome {A} (o : result A) : Prop :=
  match o with
  | Return _ => True
  | Raise e => e ∈ [ValueError; TypeError; OverflowError]
  | IllTyped => False
  end.

(** A JSON report with a duration too large for a double. *)
Definition overflow_json : Path :=
  Path_ "big.json"
    (Some (File (File_ (Thrown ParseError)
       (Got (JList [JDict [("name", JStr "test_pay"); ("duration", JInt (10 ^ 400))]]))
       (Got "")))).

(** A report with a suite inside a suite and a test case outside every
    suite.  In the document the test cases come as [stray], [a1], [b1],
    [a2]. *)
Definition nested_xml : Path :=
  Path_ "nested.xml"
    (Some (File (File_
       (Got (Element "testsuites" [] None
               [Element "testcase" [("name", "stray")] None [];
                Element "testsuite" [("name", "A")] None
                  [Element "testcase" [("name", "a1")] None [];
                   Element "testsuite" [("name", "B")] None
                     [Element "testcase" [("name", "b1")] None []];
                   Element "testcase" [("name", "a2")] None []]]))
       (Thrown JSONDecodeError) (Got "")))).

(** * Test-failure records

    A shallow embedding of [src/logminer_qa/test_failure.py], which turns
    a record of a failed test into a log record with a message and a
    timestamp.

    A record is a Python dictionary with string keys, here a finite map
    from the keys to decoded values ([json]); [isinstance(v, str)] holds of
    the values [JStr].  The clock is a parameter: [now] is what
    [datetime.now(timezone.utc)] gives.  [strftime] leaves the text of a
    year below 1000 to the C library, which pads it to four digits or does
    not: [padded] tells which. *)

Module TestFailure.

(** ** Built-ins *)

(** [p in s] for two strings. *)
Fixpoint startswith (s p : string) {struct p} : bool :=
  match p with
  | EmptyString => true
  | String a p' =>
      match s with
      | EmptyString => false
      | String b s' => Ascii.eqb a b && startswith s' p'
      end
  end.

Fixpoint contains (s p : string) : bool :=
  startswith s p
  || match s with
     | EmptyString => false
     | String _ s' => contains s' p
     end.

(** [sep.join(parts)]. *)
Fixpoint join (sep : string) (parts : list string) : string :=
  match parts with
  | [] => ""
  | [p] => p
  | p :: rest => p +:+ sep +:+ join sep rest
  end.

Definition hex_digit (n : nat) : ascii :=
  if (n <? 10)%nat then ascii_of_nat (48 + n) else ascii_of_nat (87 + n).

Definition quote : ascii := "'"%char.
Definition double_quote : ascii := "034"%char.
Definition backslash : ascii := "\"%char.

(** What [repr] writes for one character inside the quotes [q]. *)
Definition repr_char (q c : ascii) : string :=
  let n := nat_of_ascii c in
  if Ascii.eqb c q || Ascii.eqb c backslash then String backslash (String c "")
  else if (n =? 9)%nat then String backslash "t"
  else if (n =? 10)%nat then String backslash "n"
  else if (n =? 13)%nat then String backslash "r"
  else if ((n <? 32) || ((127 <=? n) && (n <=? 160)) || (n =? 173))%nat
  then String backslash (String "x" (String (hex_digit (n / 16))
                                       (String (hex_digit (n mod 16)) "")))
  else String c "".

Fixpoint repr_chars (q : ascii) (s : string) : string :=
  match s with
  | EmptyString => ""
  | String c s' => repr_char q c +:+ repr_chars q s'
  end.

(** [repr(s)] of a string: in single quotes, unless the string holds a
    single quote and no double quote. *)
Definition repr_str (s : string) : string :=
  let q :=
    if contains s (String quote "") && negb (contains s (String double_quote ""))
    then double_quote else quote in
  String q (repr_chars q s) +:+ String q "".

(** [str(parts)] of a list of strings. *)
Definition str_list (parts : list string) : string :=
  "[" +:+ join ", " (repr_str <$> parts) +:+ "]".

(** [int(s)] of a string of decimal digits. *)
Fixpoint int_from (acc : nat) (s : string) : nat :=
  match s with
  | EmptyString => acc
  | String c s' => int_from (10 * acc + (nat_of_ascii c - 48)) s'
  end.

Definition int (s : string) : nat := int_from 0 s.

(** *** Dates and times *)

Record datetime := Datetime {
  year : nat;
  month : nat;
  day : nat;
  hour : nat;
  minute : nat;
  second : nat
}.

Definition is_leap (y : nat) : bool :=
  ((y mod 4 =? 0) && (negb (y mod 100 =? 0) || (y mod 400 =? 0)))%nat.

Definition days_in_month (y m : nat) : nat :=
  if (m =? 2)%nat then (if is_leap y then 29 else 28)%nat
  else if ((m =? 4) || (m =? 6) || (m =? 9) || (m =? 11))%nat then 30%nat
  else 31%nat.

(** The fields that [datetime(...)] accepts; it raises a [ValueError] on
    the others. *)
Definition valid (dt : datetime) : bool :=
  ((1 <=? year dt) && (year dt <=? 99 * 101)
   && (1 <=? month dt) && (month dt <=? 12)
   && (1 <=? day dt) && (day dt <=? days_in_month (year dt) (month dt))
   && (hour dt <=? 23) && (minute dt <=? 59) && (second dt <=? 59))%nat.

Definition digit (n : nat) : ascii := ascii_of_nat (48 + n mod 10).

Definition two_digits (n : nat) : string :=
  String (digit (n / 10)) (String (digit n) "").

Definition four_digits (n : nat) : string :=
  String (digit (n / 1000)) (String (digit (n / 100)) (two_digits n)).

(** [%Y]. *)
Definition year_text (padded : bool) (y : nat) : string :=
  if padded || (1000 <=? y)%nat then four_digits y
  else if (100 <=? y)%nat then String (digit (y / 100)) (two_digits y)
  else if (10 <=? y)%nat then two_digits y
  else String (digit y) "".

(** [dt.strftime("%Y-%m-%dT%H:%M:%SZ")]. *)
Definition strftime (padded : bool) (dt : datetime) : string :=
  year_text padded (year dt) +:+ "-" +:+ two_digits (month dt) +:+ "-"
  +:+ two_digits (day dt) +:+ "T" +:+ two_digits (hour dt) +:+ ":"
  +:+ two_digits (minute dt) +:+ ":" +:+ two_digits (second dt) +:+ "Z".

(** ** The pattern of a timestamp in a path *)

(** The pattern [(\d{4})-(\d{2})-(\d{2})[-_](\d{2})-(\d{2})-(\d{2})] is a
    sequence of nineteen classes of one character each. *)
Inductive char_class := Digit | Hyphen | HyphenOrUnderscore.

Definition in_class (k : char_class) (c : ascii) : bool :=
  match k with
  | Digit => let n := nat_of_ascii c in ((48 <=? n) && (n <=? 57))%nat
  | Hyphen => Ascii.eqb c "-"
  | HyphenOrUnderscore => Ascii.eqb c "-" || Ascii.eqb c "_"
  end.

Definition _PATH_TIMESTAMP_PATTERN : list char_class :=
  [Digit; Digit; Digit; Digit; Hyphen; Digit; Digit; Hyphen; Digit; Digit;
   HyphenOrUnderscore; Digit; Digit; Hyphen; Digit; Digit; Hyphen; Digit; Digit].

(** The text that the pattern matches at the start of [s]. *)
Fixpoint match_at (pattern : list char_class) (s : string) : option string :=
  match pattern with
  | [] => Some ""
  | k :: pattern' =>
      match s with
      | EmptyString => None
      | String c s' =>
          if in_class k c then String c <$> match_at pattern' s' else None
      end
  end.

(** [pattern.search(s)]: the leftmost match. *)
Fixpoint search (pattern : list char_class) (s : string) : option string :=
  match match_at pattern s with
  | Some m => Some m
  | None =>
      match s with
      | EmptyString => None
      | String _ s' => search pattern s'
      end
  end.

(** ** The functions of the module *)

Definition _TEST_FAILURE_KEYS : gset string :=
  list_to_set ["error_message"; "log_message"; "selector"; "screenshot_path";
               "hook_error"; "browser"; "os"; "operating_system"].

Definition _has_test_failure_keys (record : gmap string json) : bool :=
  negb (bool_decide (_TEST_FAILURE_KEYS ∩ dom record = ∅)).

(** The timestamp of the first match of the pattern in a path, when the
    match is a date and a time of day; [None] for a value that is no
    string, an empty string, a path without a match and a match that
    [datetime] refuses. *)
Definition _extract_timestamp_from_path (padded : bool) (path : option json)
    : option string :=
  match path with
  | Some (JStr path) =>
      if negb (Py.truthy path) then None
      else
        match search _PATH_TIMESTAMP_PATTERN path with
        | None => None
        | Some m =>
            let dt :=
              Datetime (int (String.substring 0 4 m)) (int (String.substring 5 2 m))
                (int (String.substring 8 2 m)) (int (String.substring 11 2 m))
                (int (String.substring 14 2 m)) (int (String.substring 17 2 m)) in
            if valid dt then Some (strftime padded dt) else None
        end
  | _ => None
  end.

(** [v.strip()] when [isinstance(v, str) and v.strip()]. *)
Definition stripped (v : option json) : option string :=
  match v with
  | Some (JStr s) => if Py.truthy (Py.strip s) then Some (Py.strip s) else None
  | _ => None
  end.

(** The loops over keys that stop at the first value that is a string
    with something else than whitespace in it. *)
Fixpoint first_stripped (record : gmap string json) (keys : list string)
    : option string :=
  match keys with
  | [] => None
  | key :: keys' =>
      match stripped (record !! key) with
      | Some s => Some s
      | None => first_stripped record keys'
      end
  end.

Definition _get_message (record : gmap string json) : string :=
  let parts :=
    match first_stripped record ["error_message"; "log_message"; "message"] with
    | Some s => [s]
    | None => ["Test failure (no message)"]
    end in
  let parts :=
    match stripped (record !! "hook_error") with
    | Some hook => if negb (contains (str_list parts) hook) then parts ++ [hook] else parts
    | None => parts
    end in
  let parts :=
    match stripped (record !! "selector") with
    | Some sel => parts ++ [sel]
    | None => parts
    end in
  join " | " parts.

Definition _get_timestamp (padded : bool) (now : datetime) (record : gmap string json)
    : string :=
  match first_stripped record
          ["timestamp"; "time"; "ts"; "@timestamp"; "event_time"; "logged_at"] with
  | Some s => s
  | None =>
      match _extract_timestamp_from_path padded (record !! "screenshot_path") with
      | Some path_ts => if Py.truthy path_ts then path_ts else strftime padded now
      | None => strftime padded now
      end
  end.

Definition test_failure_to_canonical (padded : bool) (now : datetime)
    (record : gmap string json) : gmap string json :=
  let out := record in
  let out := <["message" := JStr (_get_message record)]> out in
  let out := <["timestamp" := JStr (_get_timestamp padded now record)]> out in
  out.

End TestFailure.

(** ** Quantities of the properties *)

(** A match of the pattern written as a timestamp: the date, [T], the
    time of day with colons, [Z]. *)
Definition iso_of_match (m : string) : string :=
  String.substring 0 10 m +:+ "T" +:+ String.substring 11 2 m +:+ ":"
  +:+ String.substring 14 2 m +:+ ":" +:+ String.substring 17 2 m +:+ "Z".

(** A text that is not empty and has no whitespace at either end. *)
Definition trimmed (s : string) : Prop := s ≠ "" ∧ Py.strip s = s.

(** A character that [repr] leaves as it is, whatever the quotes. *)
Definition plain_char (c : ascii) : bool :=
  let n := nat_of_ascii c in
  negb (Ascii.eqb c TestFailure.quote) && negb (Ascii.eqb c TestFailure.double_quote)
  && negb (Ascii.eqb c TestFailure.backslash)
  && negb ((n <? 32) || ((127 <=? n) && (n <=? 160)) || (n =? 173))%nat.

Fixpoint plain (s : string) : Prop :=
  match s with
  | EmptyString => True
  | String c s' => plain_char c = true ∧ plain s'
  end.

(** Sample records. *)
Definition failure_record : gmap string json :=
  list_to_map
    [("error_message", JStr "  element not found ");
     ("hook_error", JStr "not found");
     ("selector", JStr "#login");
     ("browser", JStr "firefox");
     ("screenshot_path", JStr "shots/2026-02-12_11-02-31/login.png")].

Definition message_record : gmap string json :=
  list_to_map
    [("message", JStr "boom"); ("selector", JStr "#ok"); ("os", JStr "linux")].

Definition noon : TestFailure.datetime := TestFailure.Datetime 2026 3 1 12 0 0.

(** The keys that [_get_timestamp] and [_get_message] look up, in their
    order. *)
Definition timestamp_keys : list string :=
  ["timestamp"; "time"; "ts"; "@timestamp"; "event_time"; "logged_at"].

Definition message_keys : list string := ["error_message"; "log_message"; "message"].

(** * The loaders of the command line

    A shallow embedding of the line loaders of [src/logminer_qa/cli.py].
    A loader is a generator over an open file; the model gives the list
    of what it yields for a file that opens and decodes, from the list of
    the lines that iterating over the file gives.  [json.loads] is a
    parameter: [loads line] is the decoded value, or the exception that
    [json.loads] raises, a [JSONDecodeError] or another one, such as the
    [ValueError] of an integer with too many digits or a
    [RecursionError].  A record that is a line of text is the string
    [JStr]. *)

From Stdlib Require DecimalNat DecimalFacts.

Module Cli.

(** [for line in handle: line = line.strip(); if line: yield line]. *)
Fixpoint _load_plain_text (handle : list string) : list string :=
  match handle with
  | [] => []
  | line :: handle' =>
      let line := Py.strip line in
      if Py.truthy line then line :: _load_plain_text handle'
      else _load_plain_text handle'
  end.

(** [yield value] before the rest of a generator. *)
Definition yield {A} (value : A) (rest : list A * option exn) : list A * option exn :=
  (value :: rest.1, rest.2).

(** What [_load_json_lines] yields, and the exception that ends it, if
    one does: only a [JSONDecodeError] is caught. *)
Fixpoint _load_json_lines (loads : string → io json) (handle : list string)
    : list json * option exn :=
  match handle with
  | [] => ([], None)
  | line :: handle' =>
      let line := Py.strip line in
      if negb (Py.truthy line) then _load_json_lines loads handle'
      else
        match loads line with
        | Got value => yield value (_load_json_lines loads handle')
        | Thrown JSONDecodeError => yield (JStr line) (_load_json_lines loads handle')
        | Thrown e => ([], Some e)
        end
  end.

(** [key or f"column_{idx}"], for a key that is a string or [None]. *)
Definition column_key (idx : nat) (key : option string) : string :=
  match key with
  | Some key => if Py.truthy key then key
                else "column_" +:+ NilZero.string_of_uint (Nat.to_uint idx)
  | None => "column_" +:+ NilZero.string_of_uint (Nat.to_uint idx)
  end.

(** The dictionary comprehension of [_load_csv] on the items of a row, the
    first of which has the index [idx]. *)
Fixpoint cleaned_from {V} (idx : nat) (items : list (option string * V))
    (acc : gmap string V) : gmap string V :=
  match items with
  | [] => acc
  | (key, value) :: items' =>
      cleaned_from (S idx) items' (<[column_key idx key := value]> acc)
  end.

Definition cleaned {V} (items : list (option string * V)) : gmap string V :=
  cleaned_from 0 items ∅.

End Cli.

(** A line in which something else than whitespace stands. *)
Definition non_blank (line : string) : Prop := Py.strip line ≠ "".

Global Instance non_blank_dec (line : string) : Decision (non_blank line).
Proof. unfold non_blank. apply _. Defined.

(** A file of three records among blank lines. *)
Definition sample_lines : list string :=
  ["{}
"; "
"; "  plain text  
"; " 	
"; "7"].

(** The keys that the comprehension of [_load_csv] assigns, in their
    order, for items the first of which has the index [idx]. *)
Fixpoint column_keys {V} (idx : nat) (items : list (option string * V)) : list string :=
  match items with
  | [] => []
  | (key, _) :: items' => Cli.column_key idx key :: column_keys (S idx) items'
  end.

(** A row with a header without a name and a cell beyond the header. *)
Definition sample_row : list (option string * string) :=
  [(Some "time", "12:00"); (Some "", "x"); (Some "level", "INFO"); (None, "more")].

(** The record of a line: the decoded value, or the line itself. *)
Definition decoded (loads : string → io json) (line : string) : json :=
  match loads line with
  | Got value => value
  | Thrown _ => JStr line
  end.

(** The loop of [_load_json_lines] over lines that are trimmed and not
    empty. *)
Fixpoint decode_lines (loads : string → io json) (lines : list string)
    : list json * option exn :=
  match lines with
  | [] => ([], None)
  | line :: lines' =>
      match loads line with
      | Got value => Cli.yield value (decode_lines loads lines')
      | Thrown JSONDecodeError => Cli.yield (JStr line) (decode_lines loads lines')
      | Thrown e => ([], Some e)
      end
  end.

(** [json.loads] raises on the line an exception that is not caught. *)
Definition uncaught (loads : string → io json) (line : string) : Prop :=
  ∃ e, loads line = Thrown e ∧ e ≠ JSONDecodeError.

(** A [json.loads] for the sample: two lines are JSON, one nests too
    deep, the others are no JSON. *)
Definition sample_loads (line : string) : io json :=
  if String.eqb line "{}" then Got (JDict [])
  else if String.eqb line "7" then Got (JInt 7)
  else if String.eqb line "[[[[" then Thrown RecursionError
  else Thrown JSONDecodeError.

(** * Properties *)

(** ** Arithmetic of the rates *)

Lemma Py_min_spec (a b : Q) : Py.min a b == Qmin a b.
Proof.
  unfold Py.min. destruct (Qle_bool a b) eqn:E.
  - apply Qle_bool_iff in E. symmetry. by apply Q.min_l.
  - assert (b <= a)%Q.
    { destruct (Qlt_le_dec b a) as [H|H]; [by apply Qlt_le_weak|].
      apply Qle_bool_iff in H. congruence. }
    symmetry. by apply Q.min_r.
Qed.

Lemma truediv_nonneg (a b : nat) : (0 <= Py.truediv a b)%Q.
Proof.
  unfold Py.truediv. destruct b as [|b].
  - simpl. unfold Qdiv, Qinv. simpl. rewrite Qmult_0_r. apply Qle_refl.
  - apply Qle_shift_div_l.
    + change 0%Q with (inject_Z 0). rewrite <- Zlt_Qlt. lia.
    + rewrite Qmult_0_l. change 0%Q with (inject_Z 0). rewrite <- Zle_Qle. lia.
Qed.

Lemma truediv_sum (a b : nat) :
  (0 < a + b)%nat → Py.truediv a (a + b) + Py.truediv b (a + b) == 1.
Proof.
  intros H. unfold Py.truediv.
  assert (Hn : ¬ inject_Z (Z.of_nat (a + b)) == 0).
  { change 0%Q with (inject_Z 0). rewrite inject_Z_injective. lia. }
  rewrite Nat2Z.inj_add, inject_Z_plus in *. by field.
Qed.

Lemma Qle_bool_false (a b : Q) : Qle_bool a b = false ↔ (b < a)%Q.
Proof.
  split; intros H.
  - apply Qnot_le_lt. intros Hle. apply Qle_bool_iff in Hle. congruence.
  - destruct (Qle_bool a b) eqn:E; [|done].
    apply Qle_bool_iff in E. by apply Qle_not_lt in E.
Qed.

(** The score of a group with a run that was not skipped lies in the unit
    interval. *)
Lemma score_bounds (p f : nat) :
  (0 < p + f)%nat →
  (0 <= 2 * Py.min (Py.truediv p (p + f)) (Py.truediv f (p + f)) <= 1)%Q.
Proof.
  intros H. rewrite Py_min_spec.
  pose proof (truediv_nonneg p (p + f)) as Hp.
  pose proof (truediv_nonneg f (p + f)) as Hf.
  pose proof (truediv_sum p f H) as Hs.
  destruct (Q.min_spec (Py.truediv p (p + f)) (Py.truediv f (p + f)))
    as [[Hlt ->]|[Hle ->]]; split; lra.
Qed.

(** ** The classifier *)

(** Rewrites the body of [_classify_test] with the named quantities. *)
Ltac classify_fold execs :=
  unfold _classify_test;
  change (count_status "passed" execs) with (passes execs);
  change (passes execs + count_status "failed" execs + count_status "error" execs)%nat
    with (effective_runs execs);
  change (count_status "failed" execs + count_status "error" execs)%nat
    with (combined_fails execs);
  fold (pass_rate execs) (fail_rate execs).

Lemma effective_runs_split (execs : list Exec) :
  effective_runs execs = (passes execs + combined_fails execs)%nat.
Proof. unfold effective_runs, passes, combined_fails. lia. Qed.

(** The two classifiers differ in the arithmetic only: the counts, the
    run identifiers and the messages are the same. *)
Lemma binary64_counts (config : Config) (config64 : Binary64.Config)
    (test_name : string) (execs : list Exec) :
  let r := _classify_test config test_name execs in
  let r64 := Binary64._classify_test config64 test_name execs in
  Binary64.test_name r64 = FlakyTestResult.test_name r
  ∧ Binary64.total_runs r64 = FlakyTestResult.total_runs r
  ∧ Binary64.pass_count r64 = FlakyTestResult.pass_count r
  ∧ Binary64.fail_count r64 = FlakyTestResult.fail_count r
  ∧ Binary64.error_count r64 = FlakyTestResult.error_count r
  ∧ Binary64.skip_count r64 = FlakyTestResult.skip_count r
  ∧ Binary64.fail_run_ids r64 = FlakyTestResult.fail_run_ids r
  ∧ Binary64.pass_run_ids r64 = FlakyTestResult.pass_run_ids r
  ∧ Binary64.error_messages r64 = FlakyTestResult.error_messages r.
Proof.
  unfold _classify_test, Binary64._classify_test.
  destruct (if (_ =? 0)%nat then _ else _) as [c sc].
  by destruct (if (_ =? 0)%nat then _ else _) as [c64 sc64].
Qed.

(** Rewrites the body of [Binary64._classify_test] with the named
    quantities. *)
Ltac classify64_fold execs :=
  unfold Binary64._classify_test;
  change (count_status "passed" execs) with (passes execs);
  change (passes execs + count_status "failed" execs + count_status "error" execs)%nat
    with (effective_runs execs);
  change (count_status "failed" execs + count_status "error" execs)%nat
    with (combined_fails execs);
  fold (pass_rate64 execs) (fail_rate64 execs).

(** Without a run that was not skipped, and below [min_runs_required]
    runs, the decision reads no float: the two classifiers agree on it,
    whatever the thresholds. *)
Lemma binary64_low_confidence (config : Config) (config64 : Binary64.Config)
    (test_name : string) (execs : list Exec) :
  Binary64.min_runs_required config64 = FlakyTestConfig.min_runs_required config →
  (Z.of_nat (effective_runs execs) < FlakyTestConfig.min_runs_required config)%Z →
  Binary64.classification (Binary64._classify_test config64 test_name execs)
  = FlakyTestResult.classification (_classify_test config test_name execs).
Proof.
  intros Hmin Hlow. classify_fold execs. classify64_fold execs. rewrite Hmin.
  destruct (effective_runs execs =? 0)%nat; [done|].
  destruct (Z.ltb_spec (Z.of_nat (effective_runs execs))
              (FlakyTestConfig.min_runs_required config)) as [_|Hge]; [done|lia].
Qed.

(** C1. With at least [min_runs_required] runs that were not skipped (and
    at least one), the score is twice the smaller of the pass rate and the
    fail rate, and the test is a true failure when the fail rate reaches
    [true_failure_threshold], else flaky when the score exceeds
    [flakiness_threshold] and the group has both a pass and a failure, else
    stable.  The rates, the score and the comparisons are those of the
    interpreter: a rate is the double nearest to the quotient of the
    counts, and a threshold is any float. *)
Theorem C1_confident_decision (config : Binary64.Config) (test_name : string)
    (execs : list Exec) :
  let r := Binary64._classify_test config test_name execs in
  let score :=
    Float.mul (Float.Num 2) (Float.min (pass_rate64 execs) (fail_rate64 execs)) in
  let is_true_failure :=
    Float.leb (Binary64.true_failure_threshold config) (fail_rate64 execs) = true in
  let is_flaky :=
    Float.ltb (Binary64.flakiness_threshold config) score = true
    ∧ (0 < combined_fails execs)%nat ∧ (0 < passes execs)%nat in
  (Binary64.min_runs_required config <= Z.of_nat (effective_runs execs))%Z →
  (0 < effective_runs execs)%nat →
  Binary64.flakiness_score r = score
  ∧ pass_rate64 execs = Float.of_Q (Z.of_nat (passes execs) # Pos.of_nat (effective_runs execs))
  ∧ fail_rate64 execs
    = Float.of_Q (Z.of_nat (combined_fails execs) # Pos.of_nat (effective_runs execs))
  ∧ (is_true_failure → Binary64.classification r = "true_failure")
  ∧ (¬ is_true_failure → is_flaky → Binary64.classification r = "flaky")
  ∧ (¬ is_true_failure → ¬ is_flaky → Binary64.classification r = "stable").
Proof.
  intros r score is_tf is_fl Hmin Hpos.
  subst r. classify64_fold execs.
  destruct (Nat.eqb_spec (effective_runs execs) 0) as [E0|_]; [lia|].
  destruct (Z.ltb_spec (Z.of_nat (effective_runs execs))
              (Binary64.min_runs_required config)) as [Hlt|_]; [lia|].
  fold score. subst is_tf is_fl.
  destruct (Float.leb (Binary64.true_failure_threshold config) (fail_rate64 execs)) eqn:Etf.
  - cbn [Binary64.flakiness_score Binary64.classification]. split_and!; done.
  - destruct (Float.ltb (Binary64.flakiness_threshold config) score) eqn:Efl;
      cbn [andb Binary64.flakiness_score Binary64.classification].
    + destruct (Nat.ltb_spec 0 (combined_fails execs)) as [Hc|Hc]; cbn [andb].
      * destruct (Nat.ltb_spec 0 (passes execs)) as [Hp|Hp].
        -- split_and!; try done. intros _ Hn. exfalso. by apply Hn.
        -- split_and!; try done. intros _ (_ & _ & ?). lia.
      * split_and!; try done. intros _ (_ & ? & _). lia.
    + split_and!; try done. by intros _ [? _].
Qed.

(** The decisions at two thresholds that are no quotient of small counts:
    two passes in three runs are not above [0.6666666666666666], and nine
    failures in ten runs reach [0.9]. *)
Lemma C1_confident_decision_witness :
  Binary64.classification
    (Binary64._classify_test
       (Binary64.mk_config (Binary64.literal "0.6666666666666666") 2 (Binary64.literal "1.0"))
       "t" two_of_three) = "stable"
  ∧ Binary64.classification
      (Binary64._classify_test
         (Binary64.mk_config (Binary64.literal "0.0") 2 (Binary64.literal "0.9"))
         "t" nine_of_ten) = "true_failure"
  ∧ Binary64.flakiness_score (Binary64._classify_test Binary64.default_config "t" mixed_runs)
    = Binary64.literal "0.8"
  ∧ Binary64.classification (Binary64._classify_test Binary64.default_config "t" mixed_runs)
    = "flaky".
Proof.
  split_and!.
  - destruct (C1_confident_decision
                (Binary64.mk_config (Binary64.literal "0.6666666666666666") 2
                   (Binary64.literal "1.0")) "t" two_of_three)
      as (_ & _ & _ & _ & _ & H).
    + by vm_compute.
    + vm_compute. lia.
    + apply H.
      * by vm_compute.
      * intros [Hs _]. by vm_compute in Hs.
  - destruct (C1_confident_decision
                (Binary64.mk_config (Binary64.literal "0.0") 2 (Binary64.literal "0.9"))
                "t" nine_of_ten)
      as (_ & _ & _ & H & _).
    + by vm_compute.
    + vm_compute. lia.
    + apply H. by vm_compute.
  - destruct (C1_confident_decision Binary64.default_config "t" mixed_runs)
      as (Hs & _).
    + by vm_compute.
    + vm_compute. lia.
    + rewrite Hs. by vm_compute.
  - destruct (C1_confident_decision Binary64.default_config "t" mixed_runs)
      as (_ & _ & _ & _ & H & _).
    + by vm_compute.
    + vm_compute. lia.
    + apply H.
      * by vm_compute.
      * split; [by vm_compute|]. split; vm_compute; lia.
Defined.

(** The score of every result lies in the unit interval. *)
Lemma classify_score_bounds (config : Config) (test_name : string) (execs : list Exec) :
  (0 <= FlakyTestResult.flakiness_score (_classify_test config test_name execs) <= 1)%Q.
Proof.
  classify_fold execs.
  destruct (Nat.eqb_spec (effective_runs execs) 0) as [E0|N0]; [simpl; lra|].
  assert (Hb : (0 <= 2 * Py.min (pass_rate execs) (fail_rate execs) <= 1)%Q).
  { unfold pass_rate, fail_rate. rewrite effective_runs_split in *.
    apply score_bounds. lia. }
  by destruct (Z.of_nat (effective_runs execs) <? _)%Z.
Qed.

(** C2. A group whose runs were all skipped is [always_skipped] with score
    0.  A group with fewer than [min_runs_required] runs that were not
    skipped (and at least one) is a true failure exactly when all of them
    failed or errored, stable exactly when none did, and flaky otherwise;
    the result is the same under any other pair of thresholds. *)
Theorem C2_low_confidence_decision (config : Config) (test_name : string)
    (execs : list Exec) :
  let r := _classify_test config test_name execs in
  (effective_runs execs = 0%nat →
     FlakyTestResult.classification r = "always_skipped"
     ∧ FlakyTestResult.flakiness_score r = 0%Q)
  ∧ ((0 < effective_runs execs)%nat →
     (Z.of_nat (effective_runs execs) < FlakyTestConfig.min_runs_required config)%Z →
     (FlakyTestResult.classification r = "true_failure"
        ↔ combined_fails execs = effective_runs execs)
     ∧ (FlakyTestResult.classification r = "stable" ↔ combined_fails execs = 0%nat)
     ∧ (FlakyTestResult.classification r = "flaky"
        ↔ combined_fails execs ≠ effective_runs execs ∧ combined_fails execs ≠ 0%nat)
     ∧ ∀ flakiness_threshold true_failure_threshold : Q,
         _classify_test
           (FlakyTestConfig.mk flakiness_threshold
              (FlakyTestConfig.min_runs_required config) true_failure_threshold)
           test_name execs = r).
Proof.
  intros r. subst r. split.
  - intros E0. classify_fold execs. by rewrite E0.
  - intros Hpos Hlt.
    assert (Hc : FlakyTestResult.classification (_classify_test config test_name execs)
                 = if (combined_fails execs =? effective_runs execs)%nat then "true_failure"
                   else if (combined_fails execs =? 0)%nat then "stable" else "flaky").
    { classify_fold execs.
      destruct (Nat.eqb_spec (effective_runs execs) 0) as [E0|_]; [lia|].
      by destruct (Z.ltb_spec (Z.of_nat (effective_runs execs))
                     (FlakyTestConfig.min_runs_required config)) as [_|Hge]; [|lia]. }
    rewrite Hc. split_and!.
    1-3: destruct (Nat.eqb_spec (combined_fails execs) (effective_runs execs)) as [E1|N1];
      [|destruct (Nat.eqb_spec (combined_fails execs) 0) as [E2|N2]];
      split; try done; try lia; intros []; done.
    intros ft tt. classify_fold execs. simpl.
    destruct (Nat.eqb_spec (effective_runs execs) 0) as [E0|_]; [lia|].
    by destruct (Z.ltb_spec (Z.of_nat (effective_runs execs))
                   (FlakyTestConfig.min_runs_required config)) as [_|Hge]; [|lia].
Qed.

Lemma C2_low_confidence_decision_witness :
  FlakyTestResult.classification (_classify_test FlakyTestConfig.default "t" skipped_runs)
    = "always_skipped"
  ∧ FlakyTestResult.classification (_classify_test FlakyTestConfig.default "t" sparse_runs)
    = "stable".
Proof.
  split.
  - destruct (C2_low_confidence_decision FlakyTestConfig.default "t" skipped_runs)
      as [H0 _].
    apply H0. by vm_compute.
  - destruct (C2_low_confidence_decision FlakyTestConfig.default "t" sparse_runs)
      as [_ H1].
    destruct H1 as (_ & Hst & _).
    + vm_compute. lia.
    + by vm_compute.
    + apply Hst. by vm_compute.
Defined.

(** C4. For a group whose statuses are all canonical, the four counts add
    up to [total_runs]; the score lies between 0 and 1. *)
Theorem C4_counts_and_score (config : Config) (test_name : string) (execs : list Exec) :
  let r := _classify_test config test_name execs in
  Forall (λ e, TestExecution.status e ∈ ["passed"; "failed"; "error"; "skipped"]) execs →
  (FlakyTestResult.pass_count r + FlakyTestResult.fail_count r
   + FlakyTestResult.error_count r + FlakyTestResult.skip_count r)%nat
  = FlakyTestResult.total_runs r
  ∧ (0 <= FlakyTestResult.flakiness_score r <= 1)%Q.
Proof.
  intros r Hcanon. split.
  - subst r. unfold _classify_test.
    destruct (if (_ =? 0)%nat then _ else _) as [c sc]. simpl.
    clear c sc. unfold count_status.
    induction Hcanon as [|e l He _ IH]; [done|].
    rewrite !filter_cons. simpl.
    repeat (apply elem_of_cons in He as [He|He]; [rewrite He|]).
    5: by apply elem_of_nil in He.
    all: repeat case_decide; try done; simpl; lia.
  - apply classify_score_bounds.
Qed.

Lemma C4_counts_and_score_witness :
  let r := _classify_test FlakyTestConfig.default "t" mixed_runs in
  (FlakyTestResult.pass_count r + FlakyTestResult.fail_count r
   + FlakyTestResult.error_count r + FlakyTestResult.skip_count r)%nat
  = FlakyTestResult.total_runs r
  ∧ (0 <= FlakyTestResult.flakiness_score r <= 1)%Q.
Proof.
  apply (C4_counts_and_score FlakyTestConfig.default "t" mixed_runs).
  unfold mixed_runs. repeat constructor.
Defined.

(** The scenarios of the specification, run on the embedding. *)

Example scenario_mixed_outcomes :
  let r := _classify_test FlakyTestConfig.default "t" mixed_runs in
  effective_runs mixed_runs = 5%nat
  ∧ pass_rate mixed_runs == 3 # 5 ∧ fail_rate mixed_runs == 2 # 5
  ∧ FlakyTestResult.flakiness_score r == 4 # 5
  ∧ FlakyTestResult.classification r = "flaky".
Proof. by vm_compute. Qed.

Example scenario_consistent_failure :
  let r := _classify_test FlakyTestConfig.default "t" failing_runs in
  fail_rate failing_runs == 1
  ∧ FlakyTestResult.flakiness_score r == 0
  ∧ FlakyTestResult.classification r = "true_failure".
Proof. by vm_compute. Qed.

Example scenario_sparse_data :
  let r := _classify_test FlakyTestConfig.default "t" sparse_runs in
  FlakyTestResult.flakiness_score r == 0
  ∧ FlakyTestResult.classification r = "stable".
Proof. by vm_compute. Qed.

Example scenario_all_skipped :
  let r := _classify_test FlakyTestConfig.default "t" skipped_runs in
  FlakyTestResult.flakiness_score r = 0%Q
  ∧ FlakyTestResult.classification r = "always_skipped".
Proof. by vm_compute. Qed.

(** ** The status normalizer *)

Lemma Py_mem_spec (x : string) (l : list string) : Py.mem x l = true ↔ x ∈ l.
Proof.
  unfold Py.mem. rewrite existsb_exists. split.
  - intros (y & Hy & E). apply String.eqb_eq in E as ->. by apply list_elem_of_In.
  - intros H. exists x. split; [by apply list_elem_of_In|apply String.eqb_refl].
Qed.

Lemma Py_mem_false (x : string) (l : list string) : Py.mem x l = false ↔ x ∉ l.
Proof.
  rewrite <- Py_mem_spec. by destruct (Py.mem x l).
Qed.

(** C6. The normalizer is total and idempotent: the trimmed, lower-cased
    input decides the status along the four synonym sets, every other input
    (the empty string too) gives [failed], and the result is a canonical
    status that the normalizer maps to itself. *)
Theorem C6_normalize_status (raw : string) :
  let key := Py.lower (Py.strip raw) in
  (key ∈ ["pass"; "passed"; "ok"; "success"] → _normalize_status raw = "passed")
  ∧ (key ∈ ["fail"; "failed"; "failure"] → _normalize_status raw = "failed")
  ∧ (key ∈ ["error"; "errored"] → _normalize_status raw = "error")
  ∧ (key ∈ ["skip"; "skipped"; "ignored"; "pending"] → _normalize_status raw = "skipped")
  ∧ (key ∉ ["pass"; "passed"; "ok"; "success"; "fail"; "failed"; "failure";
            "error"; "errored"; "skip"; "skipped"; "ignored"; "pending"] →
     _normalize_status raw = "failed")
  ∧ _normalize_status "" = "failed"
  ∧ _normalize_status raw ∈ ["passed"; "failed"; "error"; "skipped"]
  ∧ _normalize_status (_normalize_status raw) = _normalize_status raw.
Proof.
  intros key.
  assert (Hsyn : ∀ (l : list string) out,
    key ∈ l → (∀ k, k ∈ l → _normalize_status k = out) →
    (∀ k, k ∈ l → Py.lower (Py.strip k) = k) → _normalize_status raw = out).
  { intros l out Hin Hout Hfix. rewrite <- (Hout key Hin).
    unfold _normalize_status. fold key. by rewrite (Hfix key Hin). }
  split_and!.
  1-4: intros Hin; eapply Hsyn; [exact Hin|..]; intros k Hk;
    set_unfold; destruct_or!; subst k; by vm_compute.
  - intros Hnot. unfold _normalize_status. fold key.
    repeat match goal with
    | |- context [Py.mem key ?l] =>
        replace (Py.mem key l) with false
          by (symmetry; apply Py_mem_false; intros Hin; apply Hnot; set_unfold; tauto)
    end. done.
  - by vm_compute.
  - unfold _normalize_status. repeat case_match; set_solver.
  - unfold _normalize_status at 2 3. repeat case_match; by vm_compute.
Qed.

Lemma C6_normalize_status_witness :
  _normalize_status "  Passed " = "passed"
  ∧ _normalize_status "IGNORED" = "skipped"
  ∧ _normalize_status "timeout" = "failed".
Proof.
  split_and!.
  - destruct (C6_normalize_status "  Passed ") as (H & _).
    apply H. apply Py_mem_spec. by vm_compute.
  - destruct (C6_normalize_status "IGNORED") as (_ & _ & _ & H & _).
    apply H. apply Py_mem_spec. by vm_compute.
  - destruct (C6_normalize_status "timeout") as (_ & _ & _ & _ & H & _).
    apply H. apply Py_mem_false. by vm_compute.
Defined.

(** ** The summary aggregator *)

Lemma insert_by_score_perm (r : Result) (l : list Result) :
  insert_by_score r l ≡ₚ r :: l.
Proof.
  induction l as [|x l IH]; simpl; [done|].
  destruct (Qle_bool _ _); [done|]. rewrite IH. apply Permutation_swap.
Qed.

Lemma sorted_by_score_desc_perm (l : list Result) : sorted_by_score_desc l ≡ₚ l.
Proof.
  induction l as [|x l IH]; simpl; [done|].
  rewrite insert_by_score_perm. by rewrite IH.
Qed.

Lemma insert_by_score_sorted (r : Result) (l : list Result) :
  StronglySorted score_ge l → StronglySorted score_ge (insert_by_score r l).
Proof.
  induction 1 as [|x l Hs IH Hx]; simpl.
  - repeat constructor.
  - destruct (Qle_bool _ _) eqn:E.
    + apply Qle_bool_iff in E. constructor; [by constructor|].
      constructor; [exact E|].
      eapply Forall_impl; [exact Hx|]. intros y Hy. unfold score_ge in *.
      eapply Qle_trans; [exact Hy|exact E].
    + apply Qle_bool_false in E. constructor; [exact IH|].
      rewrite insert_by_score_perm. constructor; [|exact Hx].
      unfold score_ge. by apply Qlt_le_weak.
Qed.

Lemma sorted_by_score_desc_sorted (l : list Result) :
  StronglySorted score_ge (sorted_by_score_desc l).
Proof.
  induction l as [|x l IH]; simpl; [constructor|]. by apply insert_by_score_sorted.
Qed.

(** The keys of the dictionary after one [append]. *)
Lemma group_append_keys (ex : Exec) (grouped : list (string * list Exec)) :
  (group_append ex grouped).*1
  = if decide (TestExecution.test_name ex ∈ grouped.*1) then grouped.*1
    else grouped.*1 ++ [TestExecution.test_name ex].
Proof.
  induction grouped as [|[k es] g IH].
  - case_decide; [set_solver|done].
  - cbn [group_append].
    destruct (String.eqb_spec k (TestExecution.test_name ex)) as [->|Hne].
    + clear IH. rewrite decide_True by set_solver. reflexivity.
    + rewrite fmap_cons, IH. clear IH.
      destruct (decide (TestExecution.test_name ex ∈ g.*1)) as [Hin|Hin].
      * rewrite decide_True by set_solver. reflexivity.
      * rewrite decide_False by set_solver. reflexivity.
Qed.

Lemma group_fold_keys (executions : list Exec) (grouped : list (string * list Exec)) :
  let final := fold_left (λ grouped ex, group_append ex grouped) executions grouped in
  (NoDup grouped.*1 → NoDup final.*1)
  ∧ ∀ n, n ∈ final.*1 ↔ n ∈ grouped.*1 ∨ n ∈ TestExecution.test_name <$> executions.
Proof.
  revert grouped. induction executions as [|ex l IH]; intros grouped; simpl.
  - split; [done|]. set_solver.
  - destruct (IH (group_append ex grouped)) as [Hnd Hin]. split.
    + intros H. apply Hnd. rewrite group_append_keys.
      case_decide; [done|]. apply NoDup_app. split_and!; [done|set_solver|].
      apply NoDup_singleton.
    + intros n. rewrite Hin, group_append_keys. case_decide; set_solver.
Qed.

Lemma group_by_name_keys (executions : list Exec) :
  NoDup (group_by_name executions).*1
  ∧ ∀ n, n ∈ (group_by_name executions).*1 ↔ n ∈ TestExecution.test_name <$> executions.
Proof.
  destruct (group_fold_keys executions []) as [Hnd Hin]. split.
  - apply Hnd. constructor.
  - intros n. unfold group_by_name. rewrite Hin. set_solver.
Qed.

Lemma classify_test_name (config : Config) (test_name : string) (execs : list Exec) :
  FlakyTestResult.test_name (_classify_test config test_name execs) = test_name.
Proof.
  unfold _classify_test.
  by destruct (if (_ =? 0)%nat then _ else _) as [c sc].
Qed.

Lemma classify_all_names (config : Config) (executions : list Exec) :
  FlakyTestResult.test_name <$> classify_all config executions
  = (group_by_name executions).*1.
Proof.
  unfold classify_all. rewrite <- list_fmap_compose.
  apply list_fmap_ext. intros i [k es] _. apply classify_test_name.
Qed.

Lemma classification_canonical (config : Config) (test_name : string) (execs : list Exec) :
  FlakyTestResult.classification (_classify_test config test_name execs)
  ∈ ["flaky"; "true_failure"; "stable"; "always_skipped"].
Proof.
  unfold _classify_test. repeat case_match; simplify_eq; simpl; set_solver.
Qed.

Lemma with_classification_lengths (results : list Result) :
  Forall (λ r, FlakyTestResult.classification r
               ∈ ["flaky"; "true_failure"; "stable"; "always_skipped"]) results →
  (length (with_classification "flaky" results)
   + length (with_classification "true_failure" results)
   + length (with_classification "stable" results)
   + length (with_classification "always_skipped" results))%nat
  = length results.
Proof.
  unfold with_classification.
  induction 1 as [|r l Hr _ IH]; [done|].
  rewrite !filter_cons. set_unfold.
  destruct Hr as [E|[E|[E|[E|[]]]]]; rewrite E;
    repeat case_decide; try done; simpl; lia.
Qed.

Lemma analyze_nonempty (config : Config) (executions : list Exec) :
  executions ≠ [] →
  let results := classify_all config executions in
  let flaky := sorted_by_score_desc (with_classification "flaky" results) in
  analyze config executions
  = FlakyTestSummary.mk (length results) flaky
      (with_classification "true_failure" results)
      (length (with_classification "stable" results))
      (length (with_classification "always_skipped" results))
      (if (0 <? length results)%nat
       then Py.truediv (length flaky) (length results) else 0%Q)
      (Some (Metadata.mk (length executions) (size (run_id_set executions)) config)).
Proof. by destruct executions. Qed.

Lemma filter_no_name (results : list Result) (n : string) :
  n ∉ FlakyTestResult.test_name <$> results →
  filter (λ r, FlakyTestResult.test_name r = n) results = [].
Proof.
  induction results as [|x l IH]; intros Hn; [done|].
  rewrite fmap_cons in Hn. apply not_elem_of_cons in Hn as [Hx Hl].
  rewrite filter_cons, decide_False by done. by apply IH.
Qed.

Lemma filter_unique_name (results : list Result) (n : string) :
  NoDup (FlakyTestResult.test_name <$> results) →
  n ∈ FlakyTestResult.test_name <$> results →
  ∃ r, filter (λ r, FlakyTestResult.test_name r = n) results = [r].
Proof.
  induction results as [|x l IH]; intros Hnd Hin; [by apply elem_of_nil in Hin|].
  rewrite fmap_cons in Hnd, Hin. apply NoDup_cons in Hnd as [Hx Hnd].
  rewrite filter_cons. case_decide as Hn.
  - exists x. f_equal. apply filter_no_name. by rewrite <- Hn.
  - apply elem_of_cons in Hin as [Hin|Hin]; [done|]. by apply IH.
Qed.

(** Two disjoint selections from a list with distinct names have distinct
    names together. *)
Lemma NoDup_names_selections (results : list Result) (c1 c2 : string) :
  c1 ≠ c2 →
  NoDup (FlakyTestResult.test_name <$> results) →
  NoDup (FlakyTestResult.test_name
           <$> (with_classification c1 results ++ with_classification c2 results)).
Proof.
  intros Hc. unfold with_classification.
  induction results as [|x l IH]; intros Hnd; [constructor|].
  rewrite fmap_cons in Hnd. apply NoDup_cons in Hnd as [Hx Hnd].
  specialize (IH Hnd).
  assert (Hout : ∀ c, FlakyTestResult.test_name x
                      ∉ FlakyTestResult.test_name
                          <$> filter (λ r, FlakyTestResult.classification r = c) l).
  { intros c Hin. apply Hx. apply list_elem_of_fmap in Hin as (r & -> & Hr).
    apply list_elem_of_filter in Hr as [_ Hr]. apply list_elem_of_fmap. eauto. }
  rewrite !filter_cons.
  destruct (decide (FlakyTestResult.classification x = c1)) as [E1|N1];
    destruct (decide (FlakyTestResult.classification x = c2)) as [E2|N2];
    try congruence; try done.
  - rewrite <- app_comm_cons, fmap_cons. apply NoDup_cons. split; [|done].
    rewrite fmap_app. apply not_elem_of_app. split; apply Hout.
  - rewrite fmap_app, fmap_cons. rewrite fmap_app in IH.
    rewrite <- Permutation_middle. apply NoDup_cons. split; [|done].
    apply not_elem_of_app. split; apply Hout.
Qed.

(** C9. In every summary the flaky list is sorted by score, greatest first;
    the four category counts add up to [total_tests_analyzed], the number
    of distinct test names; and every test name has one result, which is in
    exactly one of the flaky list, the true-failure list, the stable count
    and the always-skipped count. *)
Theorem C9_summary_partition (config : Config) (executions : list Exec) :
  let s := analyze config executions in
  let results := classify_all config executions in
  StronglySorted score_ge (FlakyTestSummary.flaky_tests s)
  ∧ FlakyTestSummary.stable_tests s = length (with_classification "stable" results)
  ∧ FlakyTestSummary.always_skipped s
    = length (with_classification "always_skipped" results)
  ∧ (length (FlakyTestSummary.flaky_tests s)
     + length (FlakyTestSummary.true_failures s)
     + FlakyTestSummary.stable_tests s + FlakyTestSummary.always_skipped s)%nat
    = FlakyTestSummary.total_tests_analyzed s
  ∧ FlakyTestSummary.total_tests_analyzed s
    = length (remove_dups (TestExecution.test_name <$> executions))
  ∧ NoDup (FlakyTestResult.test_name
             <$> (FlakyTestSummary.flaky_tests s ++ FlakyTestSummary.true_failures s))
  ∧ ∀ n, n ∈ TestExecution.test_name <$> executions →
      ∃ r, filter (λ r, FlakyTestResult.test_name r = n) results = [r]
        ∧ exactly_one
            (r ∈ FlakyTestSummary.flaky_tests s)
            (r ∈ FlakyTestSummary.true_failures s)
            (FlakyTestResult.classification r = "stable")
            (FlakyTestResult.classification r = "always_skipped").
Proof.
  intros s results.
  destruct (decide (executions = [])) as [->|Hne].
  { subst s results. simpl. split_and!; try done; try constructor.
    intros n Hn. by apply elem_of_nil in Hn. }
  pose proof (analyze_nonempty config executions Hne) as Hs. simpl in Hs.
  fold s results in Hs. rewrite Hs. simpl. clear Hs s.
  destruct (group_by_name_keys executions) as [Hnd Hkeys].
  rewrite <- (classify_all_names config) in Hnd, Hkeys. fold results in Hnd, Hkeys.
  assert (Hcanon : Forall (λ r, FlakyTestResult.classification r
            ∈ ["flaky"; "true_failure"; "stable"; "always_skipped"]) results).
  { subst results. unfold classify_all. apply Forall_fmap, Forall_forall.
    intros [k es] _. apply classification_canonical. }
  split_and!; try done.
  - apply sorted_by_score_desc_sorted.
  - rewrite sorted_by_score_desc_perm. by apply with_classification_lengths.
  - rewrite <- (length_fmap FlakyTestResult.test_name results).
    apply Permutation_length, NoDup_Permutation; [done|apply NoDup_remove_dups|].
    intros n. by rewrite Hkeys, elem_of_remove_dups.
  - rewrite sorted_by_score_desc_perm. by apply NoDup_names_selections.
  - intros n Hn. apply Hkeys in Hn.
    destruct (filter_unique_name results n Hnd Hn) as [r Hr]. exists r.
    split; [done|].
    assert (Hin : r ∈ results).
    { assert (r ∈ filter (λ r, FlakyTestResult.test_name r = n) results) as Hf
        by (rewrite Hr; set_solver).
      by apply list_elem_of_filter in Hf as [_ ?]. }
    pose proof (proj1 (Forall_forall _ _) Hcanon r Hin) as Hc.
    unfold exactly_one, with_classification.
    rewrite sorted_by_score_desc_perm, !list_elem_of_filter.
    set_unfold. destruct Hc as [E|[E|[E|[E|[]]]]]; rewrite E; naive_solver.
Qed.

Lemma C9_summary_partition_witness :
  let s := analyze FlakyTestConfig.default two_tests in
  ∃ r, filter (λ r, FlakyTestResult.test_name r = "u")
         (classify_all FlakyTestConfig.default two_tests) = [r]
    ∧ exactly_one
        (r ∈ FlakyTestSummary.flaky_tests s)
        (r ∈ FlakyTestSummary.true_failures s)
        (FlakyTestResult.classification r = "stable")
        (FlakyTestResult.classification r = "always_skipped").
Proof.
  destruct (C9_summary_partition FlakyTestConfig.default two_tests)
    as (_ & _ & _ & _ & _ & _ & H).
  apply H. vm_compute. repeat constructor.
Defined.

Lemma Py_truthy_spec (s : string) : Py.truthy s = true ↔ s ≠ "".
Proof. by destruct s. Qed.

Lemma size_list_to_set_distinct (l : list string) :
  size (list_to_set (C := gset string) l) = length (remove_dups l).
Proof.
  rewrite <- (size_list_to_set (C := gset string) (remove_dups l))
    by apply NoDup_remove_dups.
  f_equal. apply set_eq. intros x.
  by rewrite !elem_of_list_to_set, elem_of_remove_dups.
Qed.

Lemma nonempty_run_ids (executions : list Exec) :
  TestExecution.run_id
    <$> filter (λ ex, Py.truthy (TestExecution.run_id ex) = true) executions
  = filter (λ id, id ≠ "") (TestExecution.run_id <$> executions).
Proof.
  induction executions as [|e l IH]; [done|].
  rewrite fmap_cons, !filter_cons.
  destruct (decide (Py.truthy (TestExecution.run_id e) = true)) as [Ht|Ht].
  - rewrite decide_True by (by apply Py_truthy_spec). by rewrite fmap_cons, IH.
  - rewrite decide_False by (by rewrite <- Py_truthy_spec). done.
Qed.

(** C5 as stated fails: for no execution at all, the summary has an empty
    metadata dictionary. *)
Lemma C5_metadata_counterexample :
  FlakyTestSummary.total_tests_analyzed (analyze FlakyTestConfig.default []) = 0%nat
  ∧ FlakyTestSummary.metadata (analyze FlakyTestConfig.default []) = None
  ∧ ¬ (∀ config executions, ∃ md,
         FlakyTestSummary.metadata (analyze config executions) = Some md
         ∧ Metadata.total_executions md = length executions
         ∧ Metadata.config md = config).
Proof.
  split_and!; [done..|].
  intros H. destruct (H FlakyTestConfig.default []) as (md & Hmd & _).
  discriminate Hmd.
Qed.

(** C5, amended.  For at least one execution, the summary carries the
    metadata: the number of executions, the number of distinct non-empty
    run identifiers and the configuration.  For no execution, the summary
    is the empty one: no tests, no lists, and an empty metadata
    dictionary. *)
Theorem C5_summary_metadata (config : Config) (executions : list Exec) :
  let s := analyze config executions in
  (executions ≠ [] →
     ∃ md, FlakyTestSummary.metadata s = Some md
       ∧ Metadata.total_executions md = length executions
       ∧ Metadata.unique_runs md
         = length (remove_dups
                     (filter (λ id, id ≠ "") (TestExecution.run_id <$> executions)))
       ∧ Metadata.config md = config)
  ∧ (executions = [] →
     FlakyTestSummary.total_tests_analyzed s = 0%nat
     ∧ FlakyTestSummary.flaky_tests s = []
     ∧ FlakyTestSummary.true_failures s = []
     ∧ FlakyTestSummary.metadata s = None).
Proof.
  intros s. split.
  - intros Hne. subst s. rewrite (analyze_nonempty config executions Hne).
    eexists. split; [reflexivity|]. simpl. split_and!; try done.
    unfold run_id_set. by rewrite size_list_to_set_distinct, nonempty_run_ids.
  - intros ->. by subst s.
Qed.

Lemma C5_summary_metadata_witness :
  ∃ md, FlakyTestSummary.metadata (analyze FlakyTestConfig.default two_tests) = Some md
    ∧ Metadata.total_executions md = 7%nat
    ∧ Metadata.unique_runs md = 5%nat
    ∧ Metadata.config md = FlakyTestConfig.default.
Proof.
  destruct (C5_summary_metadata FlakyTestConfig.default two_tests) as [H _].
  destruct H as (md & Hmd & Ht & Hu & Hc); [done|].
  exists md. split_and!; [done|by rewrite Ht|by rewrite Hu|done].
Defined.

(** ** Error messages *)

Lemma classify_error_messages (config : Config) (test_name : string) (execs : list Exec) :
  FlakyTestResult.error_messages (_classify_test config test_name execs)
  = message_set execs.
Proof.
  unfold _classify_test.
  by destruct (if (_ =? 0)%nat then _ else _) as [c sc].
Qed.

(** What [junit_testcase] gives for a test case with a skip marker and
    neither a failure nor an error marker. *)
Lemma junit_testcase_skipped (path : Path) (run_id : string) (tc skipped : element)
    (ex : Exec) :
  find tc "failure" = None → find tc "error" = None →
  find tc "skipped" = Some skipped →
  (junit_testcase path run_id tc).2 = Return ex →
  TestExecution.status ex = "skipped"
  ∧ TestExecution.error_message ex = Py.take 500 (attr_get skipped "message" "").
Proof.
  intros Hf He Hs. unfold junit_testcase. rewrite Hf, He, Hs.
  unfold float_of_string. destruct (Float.of_string _); simpl; [|done].
  by intros [= <-].
Qed.

(** C10. The error messages of a result are the distinct non-empty
    messages of all executions of the group, whatever their status; so the
    message of an XML skip marker, which the parser records on the skipped
    execution, is among them. *)
Theorem C10_error_messages (config : Config) (test_name : string) (execs : list Exec) :
  let r := _classify_test config test_name execs in
  (∀ m, m ∈ FlakyTestResult.error_messages r
        ↔ m ≠ "" ∧ ∃ e, e ∈ execs ∧ TestExecution.error_message e = m)
  ∧ ∀ (path : Path) (run_id : string) (tc skipped : element) (ex : Exec),
      find tc "failure" = None → find tc "error" = None →
      find tc "skipped" = Some skipped →
      (junit_testcase path run_id tc).2 = Return ex →
      ex ∈ execs →
      TestExecution.status ex = "skipped"
      ∧ TestExecution.error_message ex = Py.take 500 (attr_get skipped "message" "")
      ∧ (TestExecution.error_message ex ≠ "" →
         TestExecution.error_message ex ∈ FlakyTestResult.error_messages r).
Proof.
  intros r.
  assert (Hmem : ∀ m, m ∈ FlakyTestResult.error_messages r
                      ↔ m ≠ "" ∧ ∃ e, e ∈ execs ∧ TestExecution.error_message e = m).
  { intros m. subst r. rewrite classify_error_messages. unfold message_set.
    rewrite elem_of_list_to_set, list_elem_of_fmap. split.
    - intros (e & -> & He). apply list_elem_of_filter in He as [Ht He].
      split; [by apply Py_truthy_spec|]. eauto.
    - intros (Hm & e & He & <-). exists e. split; [done|].
      apply list_elem_of_filter. split; [by apply Py_truthy_spec|done]. }
  split; [exact Hmem|].
  intros path run_id tc skipped ex Hf He Hs Hex Hin.
  destruct (junit_testcase_skipped path run_id tc skipped ex Hf He Hs Hex) as [Hst Hmsg].
  split_and!; [done..|].
  intros Hne. apply Hmem. split; [done|]. eauto.
Qed.

Lemma C10_error_messages_witness :
  ∃ ex, (junit_testcase report_xml "run_a" skipped_testcase).2 = Return ex
    ∧ TestExecution.status ex = "skipped"
    ∧ "needs network"
      ∈ FlakyTestResult.error_messages
          (_classify_test FlakyTestConfig.default (TestExecution.test_name ex) [ex]).
Proof.
  eexists. split; [by vm_compute|].
  match goal with |- context [_classify_test _ _ [?e]] => set (ex := e) end.
  destruct (C10_error_messages FlakyTestConfig.default (TestExecution.test_name ex) [ex])
    as [_ H].
  destruct (H report_xml "run_a" skipped_testcase
              (Element "skipped" [("message", "needs network")] None []) ex)
    as (Hst & Hmsg & Hin).
  1-4: by vm_compute.
  - set_solver.
  - split; [done|]. by apply Hin.
Defined.

(** ** Parse failures *)

Lemma assoc_get_missing {V} (key : string) (default : V) (items : list (string * V)) :
  key ∉ items.*1 → assoc_get key default items = default.
Proof.
  induction items as [|[k v] l IH]; intros Hk; [done|].
  rewrite fmap_cons in Hk. apply not_elem_of_cons in Hk as [Hne Hl]. simpl in *.
  destruct (String.eqb_spec k key) as [->|_]; [done|]. by apply IH.
Qed.

(** The record of a test case whose time [float] accepts. *)
Lemma junit_testcase_duration (path : Path) (run_id : string) (tc : element) (d : Float.t) :
  Float.of_string (Py.or_else (attr_get tc "time" "0") "0") = Some d →
  ∃ ex, junit_testcase path run_id tc = ([], Return ex)
        ∧ TestExecution.duration_seconds ex = d.
Proof.
  intros Hd. unfold junit_testcase, float_of_string. rewrite Hd.
  destruct (find tc "failure"), (find tc "error"), (find tc "skipped");
    eexists; (split; [reflexivity|done]).
Qed.

(** A time that [float] rejects: the [ValueError] leaves the parser. *)
Lemma junit_testcase_bad_time (path : Path) (run_id : string) (tc : element) :
  Float.of_string (Py.or_else (attr_get tc "time" "0") "0") = None →
  junit_testcase path run_id tc = ([], Raise ValueError).
Proof. intros Hd. unfold junit_testcase, float_of_string. by rewrite Hd. Qed.

(** C3 as stated fails: a time that is not a number makes the XML parser
    raise [ValueError]; nothing is logged and no list is returned. *)
Lemma C3_parse_failure_counterexample :
  attr_get bad_time_testcase "time" "0" = "abc"
  ∧ parse_junit_xml bad_time_xml "" = ([], Raise ValueError).
Proof. split; by vm_compute. Qed.

(** C3, amended.  Each parser answers the failures of its reader that it
    handles with one warning and an empty list: an XML [ParseError]; a JSON
    decode error or [OSError], or a JSON object whose extracted value is
    not a list; an [OSError] on reading a text log.  For an XML test case
    the duration is [float] of the time attribute where [float] accepts
    it, and 0 when the attribute is missing or empty. *)
Theorem C3_parse_failures (repr : json → string) (path : Path) (run_id : string) :
  (et_parse path = Thrown ParseError →
     parse_junit_xml path run_id
     = ([LogRecord WARNING "Failed to parse JUnit XML %s: %s" (name path)], Return []))
  ∧ (json_load path = Thrown JSONDecodeError ∨ json_load path = Thrown OSError →
     parse_json_results repr path run_id
     = ([LogRecord WARNING "Failed to parse JSON results %s: %s" (name path)], Return []))
  ∧ (∀ items,
       json_load path = Got (JDict items) →
       (∀ l, assoc_get "test_results" (assoc_get "tests" (JList []) items) items ≠ JList l) →
       parse_json_results repr path run_id
       = ([LogRecord WARNING "Unexpected JSON structure in %s" (name path)], Return []))
  ∧ (read_text path = Thrown OSError →
     parse_text_log path run_id
     = ([LogRecord WARNING "Failed to read log file %s: %s" (name path)], Return []))
  ∧ ∀ tc : element,
      ("time" ∉ (attrib tc).*1 ∨ attr_get tc "time" "0" = "" →
         ∃ ex, junit_testcase path run_id tc = ([], Return ex)
               ∧ TestExecution.duration_seconds ex = Float.zero)
      ∧ (∀ d, attr_get tc "time" "0" ≠ "" →
           Float.of_string (attr_get tc "time" "0") = Some d →
           ∃ ex, junit_testcase path run_id tc = ([], Return ex)
                 ∧ TestExecution.duration_seconds ex = d).
Proof.
  split_and!.
  - intros H. unfold parse_junit_xml. by rewrite H.
  - intros [H|H]; unfold parse_json_results; by rewrite H.
  - intros items H Hnl. unfold parse_json_results. rewrite H. simpl.
    destruct (assoc_get "test_results" _ items) as [| | | | |l|] eqn:E; try done.
    by destruct (Hnl l).
  - intros H. unfold parse_text_log. by rewrite H.
  - intros tc. split.
    + intros Hmiss. apply junit_testcase_duration.
      destruct Hmiss as [Hm|Hm].
      * unfold attr_get. by rewrite assoc_get_missing.
      * by rewrite Hm.
    + intros d Hne Hd. apply junit_testcase_duration.
      unfold Py.or_else. by destruct (attr_get tc "time" "0").
Qed.

Lemma C3_parse_failures_witness :
  (∃ ex, junit_testcase report_xml "" untimed_testcase = ([], Return ex)
         ∧ TestExecution.duration_seconds ex = Float.zero)
  ∧ (∃ ex, junit_testcase report_xml "" skipped_testcase = ([], Return ex)
           ∧ TestExecution.duration_seconds ex = Float.Num (1 # 2))
  ∧ parse_json_results (λ _, "") report_xml ""
    = ([LogRecord WARNING "Failed to parse JSON results %s: %s" "report.xml"], Return []).
Proof.
  split_and!.
  - destruct (C3_parse_failures (λ _, "") report_xml "") as (_ & _ & _ & _ & H).
    destruct (H untimed_testcase) as (H0 & _). apply H0. left. vm_compute.
    apply not_elem_of_cons. split; [done|]. apply not_elem_of_nil.
  - destruct (C3_parse_failures (λ _, "") report_xml "") as (_ & _ & _ & _ & H).
    destruct (H skipped_testcase) as (_ & H1).
    destruct (H1 (Float.Num (1 # 2))) as (ex & Hex & Hd); [done|by vm_compute|].
    by exists ex.
  - destruct (C3_parse_failures (λ _, "") report_xml "") as (_ & H & _).
    apply H. by left.
Defined.

(** ** Computations that return *)

Lemma bind_Return {A B} (m : M A) (k : A → M B) (l : list log_record) (b : B) :
  m ≫= k = (l, Return b) →
  ∃ l1 a l2, m = (l1, Return a) ∧ k a = (l2, Return b) ∧ l = l1 ++ l2.
Proof.
  unfold mbind, M_bind. destruct m as [l1 [a|e|]]; [|done..].
  destruct (k a) as [l2 r] eqn:E. intros [= <- ->]. by exists l1, a, l2.
Qed.

Lemma bind_ret_l {A B} (a : A) (k : A → M B) : mret a ≫= k = k a.
Proof. unfold mbind, M_bind, mret, M_ret. by destruct (k a). Qed.

Lemma bind_assoc {A B C} (m : M A) (k : A → M B) (h : B → M C) :
  (m ≫= k) ≫= h = m ≫= (λ a, k a ≫= h).
Proof.
  unfold mbind, M_bind. destruct m as [l [a|e|]]; [|done..].
  destruct (k a) as [l1 [b|e|]]; [|done..].
  destruct (h b) as [l2 r]. by rewrite app_assoc.
Qed.

Lemma bind_ext {A B} (m : M A) (k k' : A → M B) :
  (∀ a, k a = k' a) → m ≫= k = m ≫= k'.
Proof.
  intros H. unfold mbind, M_bind. destruct m as [l [a|e|]]; [|done..].
  by rewrite H.
Qed.

(** A loop that extends a list gives the list it started from, extended
    by what the same loop gives from an empty list. *)
Lemma extend_each_app {A B} (f : A → M (list B)) (xs : list A) (acc : list B) :
  extend_each f xs acc = (ys ← extend_each f xs []; mret (acc ++ ys)).
Proof.
  revert acc. induction xs as [|x xs IH]; intros acc; cbn [extend_each].
  - by rewrite bind_ret_l, app_nil_r.
  - rewrite bind_assoc. apply bind_ext. intros ys. cbn [app].
    rewrite (IH (acc ++ ys)), (IH ys), bind_assoc.
    apply bind_ext. intros zs. by rewrite bind_ret_l, app_assoc.
Qed.

Lemma extend_each_acc {A B} (f : A → M (list B)) (xs : list A) (acc : list B)
    (l : list log_record) (r : list B) :
  extend_each f xs acc = (l, Return r) →
  ∃ ys, r = acc ++ ys ∧ extend_each f xs [] = (l, Return ys).
Proof.
  rewrite extend_each_app. intros H.
  apply bind_Return in H as (l1 & ys & l2 & Hys & Hret & ->).
  injection Hret as <- <-. exists ys. by rewrite app_nil_r.
Qed.

(** What holds of every list that the body of a loop returns holds of the
    list that the loop returns. *)
Lemma extend_each_Forall {A B} (P : B → Prop) (f : A → M (list B)) (xs : list A)
    (acc : list B) (l : list log_record) (r : list B) :
  (∀ x l ys, x ∈ xs → f x = (l, Return ys) → Forall P ys) →
  Forall P acc → extend_each f xs acc = (l, Return r) → Forall P r.
Proof.
  revert acc l. induction xs as [|x xs IH]; intros acc l Hf Hacc; cbn [extend_each].
  - by intros [= <- <-].
  - intros H. apply bind_Return in H as (l1 & ys & l2 & Hx & Hrest & ->).
    eapply IH; [| |exact Hrest].
    + intros x' l' ys' Hin. apply Hf. by right.
    + apply Forall_app. split; [done|]. eapply Hf; [by left|exact Hx].
Qed.

(** ** The directory loader *)

Lemma or_else_given (run_id fallback : string) :
  run_id ≠ "" → Py.or_else run_id fallback = run_id.
Proof. by destruct run_id. Qed.

Lemma junit_testcase_run_id (path : Path) (run_id : string) (tc : element)
    (l : list log_record) (ex : Exec) :
  run_id ≠ "" → junit_testcase path run_id tc = (l, Return ex) →
  TestExecution.run_id ex = run_id.
Proof.
  intros Hid H. unfold junit_testcase in H.
  apply bind_Return in H as (l1 & d & l2 & _ & H & _).
  rewrite (or_else_given _ _ Hid) in H.
  destruct (find tc "failure"), (find tc "error"), (find tc "skipped");
    by injection H as _ <-.
Qed.

Lemma parse_junit_xml_run_id (path : Path) (run_id : string)
    (l : list log_record) (recs : list Exec) :
  run_id ≠ "" → parse_junit_xml path run_id = (l, Return recs) →
  all_of_run run_id recs.
Proof.
  intros Hid H. unfold parse_junit_xml in H.
  destruct (et_parse path) as [root|e].
  - eapply (extend_each_Forall _ _ _ _ _ _ _ _ H). Unshelve. 2: constructor.
    intros suite l1 ys _ Hsuite.
    eapply (extend_each_Forall _ _ _ _ _ _ _ _ Hsuite). Unshelve. 2: constructor.
    intros tc l2 zs _ Htc.
    apply bind_Return in Htc as (l3 & ex & l4 & Hex & Hret & _).
    injection Hret as _ <-. constructor; [|constructor].
    by eapply junit_testcase_run_id.
  - destruct e; try done. unfold warning in H.
    apply bind_Return in H as (? & ? & ? & _ & Hret & _).
    injection Hret as _ <-. constructor.
Qed.

Lemma json_record_run_id (repr : json → string) (path : Path) (run_id : string)
    (record : list (string * json)) (l : list log_record) (ex : Exec) :
  run_id ≠ "" → json_record repr path run_id record = (l, Return ex) →
  TestExecution.run_id ex = run_id.
Proof.
  intros Hid H. unfold json_record in H.
  apply bind_Return in H as (l1 & d & l2 & _ & H & _).
  rewrite (or_else_given _ _ Hid) in H.
  destruct (json_or _ _); try done. by injection H as _ <-.
Qed.

Lemma parse_json_results_run_id (repr : json → string) (path : Path) (run_id : string)
    (l : list log_record) (recs : list Exec) :
  run_id ≠ "" → parse_json_results repr path run_id = (l, Return recs) →
  all_of_run run_id recs.
Proof.
  intros Hid H. unfold parse_json_results in H.
  assert (Hwarn : ∀ fmt l, (warning fmt (name path);; mret []) = (l, Return recs) →
                           all_of_run run_id recs).
  { intros fmt l0 H0. apply bind_Return in H0 as (? & ? & ? & _ & Hret & _).
    injection Hret as _ <-. constructor. }
  destruct (json_load path) as [data|e].
  - apply bind_Return in H as (l1 & records & l2 & _ & H & _).
    destruct records as [| | | | |records|]; try by eapply Hwarn.
    eapply (extend_each_Forall _ _ _ _ _ _ _ _ H). Unshelve. 2: constructor.
    intros record l3 ys _ Hrec. destruct record; try (injection Hrec as _ <-; constructor).
    apply bind_Return in Hrec as (l4 & ex & l5 & Hex & Hret & _).
    injection Hret as _ <-. constructor; [|constructor].
    by eapply json_record_run_id.
  - case_bool_decide; [by eapply Hwarn|done].
Qed.

Lemma parse_text_log_run_id (path : Path) (run_id : string)
    (l : list log_record) (recs : list Exec) :
  run_id ≠ "" → parse_text_log path run_id = (l, Return recs) →
  all_of_run run_id recs.
Proof.
  intros Hid H. unfold parse_text_log in H.
  destruct (read_text path) as [content|e].
  - injection H as _ <-. apply Forall_fmap, Forall_forall. intros m _. simpl.
    by apply or_else_given.
  - destruct e; try done.
    apply bind_Return in H as (? & ? & ? & _ & Hret & _).
    injection Hret as _ <-. constructor.
Qed.

(** Whatever the format and the name of the file, a parser that is given a
    run identifier puts it on every record. *)
Lemma auto_detect_run_id (repr : json → string) (path : Path) (run_id : string)
    (l : list log_record) (recs : list Exec) :
  run_id ≠ "" → _auto_detect_and_parse repr path run_id = (l, Return recs) →
  all_of_run run_id recs.
Proof.
  intros Hid. unfold _auto_detect_and_parse.
  destruct (String.eqb _ ".xml"); [by apply parse_junit_xml_run_id|].
  destruct (String.eqb _ ".json"); [by apply parse_json_results_run_id|].
  by apply parse_text_log_run_id.
Qed.

Lemma load_files_run_id (repr : json → string) (dir : Path) (run_id : string)
    (l : list log_record) (recs : list Exec) :
  run_id ≠ "" → load_files repr dir run_id [] = (l, Return recs) →
  all_of_run run_id recs.
Proof.
  intros Hid H. unfold load_files in H.
  eapply (extend_each_Forall _ _ _ _ _ _ _ _ H). Unshelve. 2: constructor.
  intros p l1 ys _ Hp. eapply auto_detect_run_id; [exact Hid|exact Hp].
Qed.

Lemma insert_by_name_perm (p : Path) (l : list Path) : insert_by_name p l ≡ₚ p :: l.
Proof.
  induction l as [|q l IH]; simpl; [done|].
  destruct (String.leb _ _); [done|]. rewrite IH. apply Permutation_swap.
Qed.

Lemma sorted_paths_perm (l : list Path) : sorted_paths l ≡ₚ l.
Proof.
  induction l as [|p l IH]; simpl; [done|].
  rewrite insert_by_name_perm. by rewrite IH.
Qed.

Lemma load_files_acc (repr : json → string) (dir : Path) (run_id : string)
    (acc : list Exec) (l : list log_record) (recs : list Exec) :
  load_files repr dir run_id acc = (l, Return recs) →
  ∃ part, recs = acc ++ part ∧ load_files repr dir run_id [] = (l, Return part).
Proof. apply extend_each_acc. Qed.

(** The loop over the subdirectories: what it returns is what it started
    from, followed by the records of each subdirectory in turn, all of them
    with the name of the subdirectory as their run. *)
Lemma load_runs (repr : json → string) (subdirs : list Path) (m : M (list Exec))
    (log : list log_record) (recs : list Exec) :
  Forall (λ d, name d ≠ "") subdirs →
  foldl (λ acc subdir, all ← acc; load_files repr subdir (name subdir) all) m subdirs
  = (log, Return recs) →
  ∃ l0 r0 parts,
    m = (l0, Return r0) ∧ recs = r0 ++ concat parts
    ∧ Forall2 (λ subdir part,
                 (∃ l, load_files repr subdir (name subdir) [] = (l, Return part))
                 ∧ all_of_run (name subdir) part) subdirs parts.
Proof.
  intros Hnames. revert m. induction Hnames as [|d ds Hd _ IH]; intros m; simpl.
  - intros ->. exists log, recs, []. by rewrite app_nil_r.
  - intros H. destruct (IH _ H) as (l1 & r1 & parts & Hstep & -> & Hparts).
    apply bind_Return in Hstep as (la & r0 & lb & -> & Hload & ->).
    apply load_files_acc in Hload as (part & -> & Hpart).
    exists la, r0, (part :: parts). split_and!; [done|by rewrite <- app_assoc|].
    constructor; [|done]. split; [by exists lb|].
    by eapply load_files_run_id.
Qed.

(** C7. When the root is not a directory, the loader logs a warning and
    returns no record.  When the root has a subdirectory, the records the
    loader returns are those of the subdirectories, one after the other,
    and every record read from a file of a subdirectory has the name of
    the subdirectory as its run identifier: a parser that is given a run
    identifier puts it on every record, whatever the name of the file. *)
Theorem C7_directory_loader (repr : json → string) (directory : Path) :
  (is_dir directory = false →
     load_results_from_directory repr directory
     = ([LogRecord WARNING "Test results directory does not exist: %s" (name directory)],
        Return []))
  ∧ (∀ (file_path : Path) (run_id : string) l recs,
       run_id ≠ "" →
       _auto_detect_and_parse repr file_path run_id = (l, Return recs) →
       all_of_run run_id recs)
  ∧ subdirectories directory ≡ₚ filter (λ d, is_dir d = true) (iterdir directory)
  ∧ (subdirectories directory ≠ [] →
     Forall (λ d, name d ≠ "") (subdirectories directory) →
     ∀ log recs,
       load_results_from_directory repr directory = (log, Return recs) →
       ∃ parts,
         recs = concat parts
         ∧ Forall2 (λ subdir part,
                      (∃ l, load_files repr subdir (name subdir) [] = (l, Return part))
                      ∧ all_of_run (name subdir) part)
             (subdirectories directory) parts).
Proof.
  split_and!.
  - intros H. unfold load_results_from_directory. by rewrite H.
  - intros file_path run_id l recs. apply auto_detect_run_id.
  - apply sorted_paths_perm.
  - intros Hsub Hnames log recs H. unfold load_results_from_directory in H.
    fold (subdirectories directory) in H.
    destruct (is_dir directory) eqn:Hdir; cbn [negb] in H; cbv iota in H.
    + apply bind_Return in H as (l1 & all & l2 & Hall & Hrest & _).
      apply bind_Return in Hrest as (? & ? & ? & _ & Hret & _).
      injection Hret as _ <-.
      destruct (subdirectories directory) as [|d ds] eqn:E; [done|].
      apply load_runs in Hall as (l0 & r0 & parts & Hm & -> & Hparts); [|done].
      injection Hm as _ <-. by exists parts.
    + exfalso. apply Hsub. unfold subdirectories, iterdir.
      unfold is_dir in Hdir. by destruct (target directory) as [[]|].
Qed.

Lemma C7_directory_loader_witness :
  load_results_from_directory (λ _, "") missing_root
  = ([LogRecord WARNING "Test results directory does not exist: %s" "nowhere"], Return [])
  ∧ ∃ log recs parts,
      load_results_from_directory (λ _, "") results_root = (log, Return recs)
      ∧ recs = concat parts
      ∧ Forall2 (λ subdir part, all_of_run (name subdir) part)
          (subdirectories results_root) parts
      ∧ (name <$> subdirectories results_root) = ["run_a"; "run_b"]
      ∧ length recs = 2%nat.
Proof.
  destruct (C7_directory_loader (λ _, "") missing_root) as (Hmiss & _).
  split; [by apply Hmiss|].
  destruct (C7_directory_loader (λ _, "") results_root) as (_ & _ & _ & H).
  destruct (load_results_from_directory (λ _, "") results_root) as [log r] eqn:E.
  vm_compute in E. injection E as <- <-.
  edestruct H as (parts & Hrecs & Hparts).
  - by vm_compute.
  - vm_compute. repeat constructor; done.
  - reflexivity.
  - eexists _, _, parts. split_and!; [reflexivity|exact Hrecs| |by vm_compute|done].
    eapply Forall2_impl; [exact Hparts|]. by intros ?? [_ ?].
Defined.

(** ** The free-text parser *)

(** *** Strings *)

#[local] Arguments String.append !_ _ / : simpl nomatch.

Lemma sapp_assoc (a b c : string) : (a +:+ b) +:+ c = a +:+ (b +:+ c).
Proof. induction a as [|x a IH]; simpl; [done|]. by rewrite IH. Qed.

Lemma sapp_nil_r (a : string) : a +:+ "" = a.
Proof. induction a as [|x a IH]; simpl; [done|]. by rewrite IH. Qed.

Lemma slength_app (a b : string) :
  String.length (a +:+ b) = (String.length a + String.length b)%nat.
Proof. induction a as [|x a IH]; simpl; [done|]. by rewrite IH. Qed.

Lemma substring_prefix (a b : string) : String.substring 0 (String.length a) (a +:+ b) = a.
Proof.
  induction a as [|x a IH]; simpl; [by destruct b|]. by rewrite IH.
Qed.

Lemma lower_length (s : string) : String.length (Py.lower s) = String.length s.
Proof. induction s as [|x s IH]; simpl; [done|]. by rewrite IH. Qed.

Lemma lower_app (a b : string) : Py.lower (a +:+ b) = Py.lower a +:+ Py.lower b.
Proof. induction a as [|x a IH]; simpl; [done|]. by rewrite IH. Qed.

(** *** The two runs of the pattern *)

Lemma span_space_spec (s : string) :
  ∃ ws, s = ws +:+ (span_space s).2 ∧ all_space ws
        ∧ String.length ws = (span_space s).1 ∧ at_word (span_space s).2.
Proof.
  induction s as [|c s (ws & Hs & Hws & Hlen & Hr)]; simpl.
  - by exists "".
  - destruct (Py.isspace c) eqn:Hc.
    + destruct (span_space s) as [k r]. simpl in *.
      exists (String c ws). simpl. split_and!; try done; by f_equal.
    + by exists "".
Qed.

Lemma span_space_app (ws r : string) :
  all_space ws → at_word r → span_space (ws +:+ r) = (String.length ws, r).
Proof.
  intros Hws Hr. induction ws as [|c ws IH]; simpl.
  - destruct r as [|c r]; [done|]. simpl in *. by rewrite Hr.
  - destruct Hws as [-> Hws]. by rewrite (IH Hws).
Qed.

Lemma span_nonspace_spec (s : string) :
  ∃ rest, s = span_nonspace s +:+ rest ∧ no_space (span_nonspace s) ∧ at_boundary rest.
Proof.
  induction s as [|c s (rest & Hs & Hn & Hb)]; simpl.
  - by exists "".
  - destruct (Py.isspace c) eqn:Hc.
    + by exists (String c s).
    + exists rest. simpl. split_and!; [by f_equal|done..].
Qed.

Lemma span_nonspace_app (nm rest : string) :
  no_space nm → at_boundary rest → span_nonspace (nm +:+ rest) = nm.
Proof.
  intros Hn Hb. induction nm as [|c nm IH]; simpl.
  - destruct rest as [|c rest]; [done|]. simpl in *. by rewrite Hb.
  - destruct Hn as [-> Hn]. by rewrite (IH Hn).
Qed.

Lemma no_space_at_word (nm rest : string) :
  nm ≠ "" → no_space nm → at_word (nm +:+ rest).
Proof. destruct nm as [|c nm]; [done|]. by intros _ [? _]. Qed.

Lemma match_tail_Some (s : string) (k : nat) (test_name : string) :
  match_tail s = Some (k, test_name) →
  ∃ ws rest, s = ws +:+ test_name +:+ rest
    ∧ ws ≠ "" ∧ all_space ws ∧ test_name ≠ "" ∧ no_space test_name
    ∧ at_boundary rest ∧ k = (String.length ws + String.length test_name)%nat.
Proof.
  unfold match_tail.
  destruct (span_space_spec s) as (ws & Hs & Hws & Hlen & _).
  destruct (span_space s) as [n r]. simpl in *.
  destruct (span_nonspace_spec r) as (rest & Hr & Hn & Hb).
  destruct (Nat.ltb_spec 0 n) as [Hpos|]; [|done].
  destruct (Py.truthy (span_nonspace r)) eqn:Ht; [|done].
  intros [= <- <-]. exists ws, rest. rewrite <- Hr.
  split_and!; try done.
  - intros ->. simpl in *. lia.
  - by apply Py_truthy_spec.
  - by rewrite Hlen.
Qed.

Lemma match_tail_app (ws test_name rest : string) :
  ws ≠ "" → all_space ws → test_name ≠ "" → no_space test_name → at_boundary rest →
  match_tail (ws +:+ test_name +:+ rest)
  = Some ((String.length ws + String.length test_name)%nat, test_name).
Proof.
  intros Hws Hsp Hnm Hns Hb. unfold match_tail.
  rewrite span_space_app by (done || by apply no_space_at_word).
  rewrite span_nonspace_app by done.
  destruct ws; [done|]. destruct test_name; [done|]. done.
Qed.

Lemma match_tail_at_word (s : string) : at_word s → match_tail s = None.
Proof.
  intros H. unfold match_tail.
  destruct s as [|c s]; [done|]. simpl in *. by rewrite H.
Qed.

(** *** The status words *)

Lemma imatch_Some (pat s r : string) :
  imatch pat s = Some r →
  ∃ pre, s = pre +:+ r ∧ Py.lower pre = Py.lower pat.
Proof.
  revert s. induction pat as [|p pat IH]; intros s; simpl.
  - intros [= ->]. by exists "".
  - destruct s as [|c s]; [done|].
    destruct (Ascii.eqb_spec (Py.lower_char c) (Py.lower_char p)) as [E|]; [|done].
    intros H. destruct (IH _ H) as (pre & -> & Hpre).
    exists (String c pre). simpl. by rewrite E, Hpre.
Qed.

Lemma imatch_app (pat pre r : string) :
  Py.lower pre = Py.lower pat → imatch pat (pre +:+ r) = Some r.
Proof.
  revert pre. induction pat as [|p pat IH]; intros [|c pre]; simpl; try done.
  intros [= -> Hpre]. rewrite Ascii.eqb_refl. by apply IH.
Qed.

Lemma imatch_mismatch (p : ascii) (pat : string) (c : ascii) (s : string) :
  Py.lower_char c ≠ Py.lower_char p → imatch (String p pat) (String c s) = None.
Proof.
  intros H. simpl. by destruct (Ascii.eqb_spec (Py.lower_char c) (Py.lower_char p)).
Qed.

(** No whitespace character is a letter of a status word. *)
Lemma space_is_no_letter (c : ascii) :
  Py.isspace c = true → Py.lower_char c ≠ "e"%char ∧ Py.lower_char c ≠ "p"%char.
Proof.
  destruct c as [[] [] [] [] [] [] [] []]; vm_compute; intros H; (done || by split).
Qed.

(** An ending that starts with [E] or [P] does not match where whitespace
    starts. *)
Lemma imatch_ending_at_space (p : ascii) (e ws tail : string) :
  Py.lower_char p = "e"%char ∨ Py.lower_char p = "p"%char →
  ws ≠ "" → all_space ws → imatch (String p e) (ws +:+ tail) = None.
Proof.
  intros Hp Hws Hsp. destruct ws as [|c ws]; [done|]. destruct Hsp as [Hc _].
  apply imatch_mismatch. destruct (space_is_no_letter c Hc) as [He Hpp].
  destruct Hp as [-> | ->]; done.
Qed.

(** What a successful alternative has matched. *)
Lemma match_alternative_Some (word : string) (ending : option string) (s : string)
    (status test_name : string) (n : nat) :
  match_alternative word ending s = Some (status, test_name, n) →
  ∃ ws rest,
    s = status +:+ ws +:+ test_name +:+ rest
    ∧ (Py.lower status = Py.lower word
       ∨ ∃ e, ending = Some e ∧ Py.lower status = Py.lower (word +:+ e))
    ∧ ws ≠ "" ∧ all_space ws ∧ test_name ≠ "" ∧ no_space test_name
    ∧ at_boundary rest
    ∧ n = String.length (status +:+ ws +:+ test_name).
Proof.
  unfold match_alternative.
  destruct (imatch word s) as [r|] eqn:Hw; [|done].
  apply imatch_Some in Hw as (pre & -> & Hpre).
  assert (Hlen : String.length word = String.length pre).
  { by rewrite <- (lower_length word), <- Hpre, lower_length. }
  assert (Hshort :
    match match_tail r with
    | Some (k, test_name) =>
        Some (String.substring 0 (String.length word) (pre +:+ r), test_name,
              (String.length word + k)%nat)
    | None => None
    end = Some (status, test_name, n) →
    ∃ ws rest,
      pre +:+ r = status +:+ ws +:+ test_name +:+ rest
      ∧ (Py.lower status = Py.lower word
         ∨ ∃ e, ending = Some e ∧ Py.lower status = Py.lower (word +:+ e))
      ∧ ws ≠ "" ∧ all_space ws ∧ test_name ≠ "" ∧ no_space test_name
      ∧ at_boundary rest
      ∧ n = String.length (status +:+ ws +:+ test_name)).
  { destruct (match_tail r) as [[k nm]|] eqn:Ht; [|done].
    rewrite Hlen, substring_prefix. intros [= <- <- <-].
    apply match_tail_Some in Ht as (ws & rest & -> & ? & ? & ? & ? & ? & ->).
    exists ws, rest. split_and!; try done; [by left|].
    by rewrite !slength_app. }
  destruct ending as [e|]; [|exact Hshort].
  destruct (imatch e r) as [r'|] eqn:He; [|exact Hshort].
  destruct (match_tail r') as [[k nm]|] eqn:Ht; [|exact Hshort].
  apply imatch_Some in He as (pre' & -> & Hpre').
  assert (Hlen' : String.length e = String.length pre').
  { by rewrite <- (lower_length e), <- Hpre', lower_length. }
  rewrite <- sapp_assoc, Hlen, Hlen', <- slength_app, substring_prefix.
  intros [= <- <- <-].
  apply match_tail_Some in Ht as (ws & rest & -> & ? & ? & ? & ? & ? & ->).
  clear Hshort. exists ws, rest. split_and!; try done.
  - right. exists e. split; [done|]. by rewrite !lower_app, Hpre, Hpre'.
  - by rewrite !slength_app.
Qed.

(** An alternative whose word starts with another letter fails. *)
Lemma match_alternative_mismatch (p : ascii) (word : string) (ending : option string)
    (c : ascii) (s : string) :
  Py.lower_char c ≠ Py.lower_char p →
  match_alternative (String p word) ending (String c s) = None.
Proof. intros H. unfold match_alternative. by rewrite imatch_mismatch. Qed.

(** An alternative matches its word without the ending. *)
Lemma match_alternative_short (word : string) (ending : option string)
    (status ws test_name rest : string) :
  Py.lower status = Py.lower word →
  match ending with
  | Some e => imatch e (ws +:+ test_name +:+ rest) = None
  | None => True
  end →
  ws ≠ "" → all_space ws → test_name ≠ "" → no_space test_name → at_boundary rest →
  match_alternative word ending (status +:+ ws +:+ test_name +:+ rest)
  = Some (status, test_name, String.length (status +:+ ws +:+ test_name)).
Proof.
  intros Hst He Hws Hsp Hnm Hns Hb. unfold match_alternative.
  rewrite (imatch_app _ _ _ Hst), match_tail_app by done.
  assert (Hlen : String.length word = String.length status).
  { by rewrite <- (lower_length word), <- Hst, lower_length. }
  rewrite Hlen, substring_prefix, !slength_app.
  destruct ending as [e|]; [|done]. by rewrite He.
Qed.

(** An alternative matches its word with the ending. *)
Lemma match_alternative_long (word e pre pre' ws test_name rest : string) :
  Py.lower pre = Py.lower word → Py.lower pre' = Py.lower e →
  ws ≠ "" → all_space ws → test_name ≠ "" → no_space test_name → at_boundary rest →
  match_alternative word (Some e) ((pre +:+ pre') +:+ ws +:+ test_name +:+ rest)
  = Some (pre +:+ pre', test_name,
          String.length ((pre +:+ pre') +:+ ws +:+ test_name)).
Proof.
  intros Hpre Hpre' Hws Hsp Hnm Hns Hb. unfold match_alternative.
  rewrite sapp_assoc, (imatch_app _ _ _ Hpre), (imatch_app _ _ _ Hpre').
  rewrite match_tail_app by done.
  assert (Hlen : String.length word = String.length pre).
  { by rewrite <- (lower_length word), <- Hpre, lower_length. }
  assert (Hlen' : String.length e = String.length pre').
  { by rewrite <- (lower_length e), <- Hpre', lower_length. }
  rewrite <- sapp_assoc, Hlen, Hlen', <- slength_app, substring_prefix.
  by rewrite !slength_app.
Qed.

Lemma lower_app_inv (s a b : string) :
  Py.lower s = a +:+ b →
  ∃ pre pre', s = pre +:+ pre' ∧ Py.lower pre = a ∧ Py.lower pre' = b.
Proof.
  revert s. induction a as [|x a IH]; intros s; simpl.
  - intros H. by exists "", s.
  - destruct s as [|c s]; [done|]. simpl. intros [= Hc Hs].
    destruct (IH _ Hs) as (pre & pre' & -> & Hpre & Hpre').
    exists (String c pre), pre'. simpl. by rewrite Hc, Hpre.
Qed.

(** An alternative fails on a status word that starts with another
    letter. *)
Lemma match_alternative_other (p : ascii) (word : string) (ending : option string)
    (status tail : string) (q : ascii) (letters : string) :
  Py.lower status = String q letters → Py.lower_char p ≠ q →
  match_alternative (String p word) ending (status +:+ tail) = None.
Proof.
  intros Hst Hne. destruct status as [|c status]; [done|].
  simpl in Hst. injection Hst as Hc _. simpl.
  apply match_alternative_mismatch. by rewrite Hc.
Qed.

(** Where the pattern matches, [match_here] finds the match. *)
Lemma match_here_complete (status ws test_name rest : string) :
  Py.lower status ∈ status_words →
  ws ≠ "" → all_space ws → test_name ≠ "" → no_space test_name → at_boundary rest →
  match_here (status +:+ ws +:+ test_name +:+ rest)
  = Some (status, test_name, String.length (status +:+ ws +:+ test_name)).
Proof.
  intros Hst Hws Hsp Hnm Hns Hb.
  assert (Hend : ∀ p e, Py.lower_char p = "e"%char ∨ Py.lower_char p = "p"%char →
                        imatch (String p e) (ws +:+ test_name +:+ rest) = None).
  { intros p e Hp. by apply imatch_ending_at_space. }
  unfold status_words in Hst. set_unfold in Hst.
  unfold match_here, status_alternatives. cbn [foldr fst snd].
  destruct Hst as [Hst|[Hst|[Hst|[Hst|[Hst|[Hst|[Hst|[]]]]]]]];
    rewrite ?(match_alternative_other _ _ _ status _ _ _ Hst) by (by vm_compute).
  - rewrite match_alternative_short; try done. apply Hend. by left.
  - apply (lower_app_inv _ "pass" "ed") in Hst as (pre & pre' & -> & Hpre & Hpre').
    by rewrite match_alternative_long.
  - rewrite match_alternative_short; try done. apply Hend. by left.
  - apply (lower_app_inv _ "fail" "ed") in Hst as (pre & pre' & -> & Hpre & Hpre').
    by rewrite match_alternative_long.
  - by rewrite match_alternative_short.
  - rewrite match_alternative_short; try done. apply Hend. by right.
  - apply (lower_app_inv _ "skip" "ped") in Hst as (pre & pre' & -> & Hpre & Hpre').
    by rewrite match_alternative_long.
Qed.

(** What [match_here] finds is a match of the pattern. *)
Lemma match_here_Some (s status test_name : string) (n : nat) :
  match_here s = Some (status, test_name, n) →
  ∃ ws rest,
    s = status +:+ ws +:+ test_name +:+ rest
    ∧ Py.lower status ∈ status_words
    ∧ ws ≠ "" ∧ all_space ws ∧ test_name ≠ "" ∧ no_space test_name
    ∧ at_boundary rest
    ∧ n = String.length (status +:+ ws +:+ test_name).
Proof.
  unfold match_here, status_alternatives. cbn [foldr fst snd]. intros H.
  repeat match type of H with
  | context [match_alternative ?w ?e s] =>
      let E := fresh "E" in
      destruct (match_alternative w e s) as [[[st nm] k]|] eqn:E;
      [injection H as -> -> ->;
       apply match_alternative_Some in E
         as (ws & rest & Hs & Hst & Hws & Hsp & Hnm & Hns & Hb & Hn);
       exists ws, rest; split_and!; try done;
       destruct Hst as [Hst|(e0 & [= <-] & Hst)]; rewrite Hst;
       apply Py_mem_spec; by vm_compute|]
  end.
  done.
Qed.

(** *** The scan *)

Lemma finditer_skip (pre rest : string) :
  finditer (String.length pre) (pre +:+ rest) = finditer 0 rest.
Proof. induction pre as [|c pre IH]; simpl; [done|]. exact IH. Qed.

Lemma finditer_no_match (c : ascii) (s : string) :
  match_here (String c s) = None → finditer 0 (String c s) = finditer 0 s.
Proof. intros H. cbn [finditer]. by rewrite H. Qed.

Lemma finditer_match (status ws test_name rest : string) :
  Py.lower status ∈ status_words →
  ws ≠ "" → all_space ws → test_name ≠ "" → no_space test_name → at_boundary rest →
  finditer 0 (status +:+ ws +:+ test_name +:+ rest)
  = (status, test_name) :: finditer 0 rest.
Proof.
  intros Hst Hws Hsp Hnm Hns Hb.
  pose proof (match_here_complete _ _ _ _ Hst Hws Hsp Hnm Hns Hb) as Hm.
  rewrite <- (finditer_skip (status +:+ ws +:+ test_name) rest).
  rewrite !sapp_assoc.
  destruct status as [|c status].
  { apply Py_mem_spec in Hst. by vm_compute in Hst. }
  simpl in *. rewrite Hm. by rewrite Nat.sub_succ, Nat.sub_0_r.
Qed.

Lemma pattern_match_shorter (s status test_name rest : string) :
  pattern_match s status test_name rest → (String.length rest < String.length s)%nat.
Proof.
  intros (ws & -> & Hst & _). rewrite !slength_app.
  destruct status; [|simpl; lia].
  apply Py_mem_spec in Hst. by vm_compute in Hst.
Qed.

(** [finditer] finds the matches of the pattern from left to right. *)
Lemma scan_finditer (s : string) : scan s (finditer 0 s).
Proof.
  remember (String.length s) as n eqn:Hn. revert s Hn.
  induction n as [n IH] using lt_wf_ind. intros s ->.
  destruct s as [|c s]; [constructor|].
  destruct (match_here (String c s)) as [[[status test_name] k]|] eqn:E.
  - apply match_here_Some in E
      as (ws & rest & Hs & Hst & Hws & Hsp & Hnm & Hns & Hb & _).
    assert (Hpm : pattern_match (String c s) status test_name rest)
      by (by exists ws).
    rewrite Hs, finditer_match by done. rewrite <- Hs.
    eapply scan_match; [exact Hpm|].
    eapply IH; [|reflexivity]. by eapply pattern_match_shorter.
  - rewrite finditer_no_match by done. apply scan_skip.
    + intros status test_name rest (ws & Hs & Hst & Hws & Hsp & Hnm & Hns & Hb).
      rewrite Hs, match_here_complete in E by done. discriminate E.
    + eapply IH; [|reflexivity]. simpl. lia.
Qed.

(** The matches from left to right are those that [finditer] finds. *)
Lemma scan_unique (s : string) (ms : list (string * string)) :
  scan s ms → ms = finditer 0 s.
Proof.
  induction 1 as [|c s ms Hno _ IH|s status test_name rest ms Hpm _ IH].
  - done.
  - rewrite finditer_no_match; [done|].
    destruct (match_here (String c s)) as [[[status test_name] k]|] eqn:E; [|done].
    apply match_here_Some in E
      as (ws & rest & Hs & Hst & Hws & Hsp & Hnm & Hns & Hb & _).
    destruct (Hno status test_name rest). by exists ws.
  - destruct Hpm as (ws & -> & Hst & Hws & Hsp & Hnm & Hns & Hb).
    rewrite finditer_match by done. by rewrite IH.
Qed.

Lemma scan_status_words (s : string) (ms : list (string * string)) :
  scan s ms → Forall (λ m, Py.lower m.1 ∈ status_words) ms.
Proof.
  induction 1 as [| |s status test_name rest ms Hpm _ IH]; [constructor|done|].
  constructor; [|done]. by destruct Hpm as (ws & _ & Hst & _).
Qed.

Lemma status_word_normalized (status : string) :
  Py.lower status ∈ status_words →
  _normalize_status (Py.lower status)
  = if bool_decide (Py.lower status ∈ ["pass"; "passed"]) then "passed"
    else if bool_decide (Py.lower status ∈ ["fail"; "failed"]) then "failed"
    else if bool_decide (Py.lower status = "error") then "error"
    else "skipped".
Proof.
  intros H. unfold status_words in H. set_unfold in H.
  destruct H as [H|[H|[H|[H|[H|[H|[H|[]]]]]]]]; rewrite H; by vm_compute.
Qed.

(** C8 as stated fails.  A status word at the end of a longer token gives
    a record; a line with two status tokens gives two records; and a name
    on the next line gives a record. *)
Lemma C8_text_lines_counterexample :
  (claimed_text_matches "BYPASS foo" = []
   ∧ parse_text_log (text_log "BYPASS foo") "r"
     = ([], Return [TestExecution.mk "foo" "passed" "r" Float.zero "" ""]))
  ∧ (claimed_text_matches "PASS a FAIL b" = [("PASS", "a")]
     ∧ parse_text_log (text_log "PASS a FAIL b") "r"
       = ([], Return [TestExecution.mk "a" "passed" "r" Float.zero "" "";
                      TestExecution.mk "b" "failed" "r" Float.zero "" ""]))
  ∧ (claimed_text_matches "build: PASS
test_login" = []
     ∧ parse_text_log (text_log "build: PASS
test_login") "r"
       = ([], Return [TestExecution.mk "test_login" "passed" "r" Float.zero "" ""])).
Proof. split_and!; by vm_compute. Qed.

(** C8, amended.  On a text of ASCII characters, the free-text parser
    emits one record for each match of the pattern, found from left to
    right without overlap: a status word among PASS, PASSED, FAIL, FAILED,
    ERROR, SKIP and SKIPPED in any letter case, anywhere in the text; then
    whitespace, line breaks included; then the longest run without
    whitespace, which is the name.  The record has the status that the
    word stands for, that name, and no duration, message or timestamp.
    Beyond ASCII the pattern also takes a letter such as the long s for
    its ASCII letter, and the property is not stated there. *)
Theorem C8_text_matches (path : Path) (run_id content : string) :
  read_text path = Got content →
  is_ascii content = true →
  ∃ ms recs,
    parse_text_log path run_id = ([], Return recs)
    ∧ scan content ms
    ∧ (∀ ms', scan content ms' → ms' = ms)
    ∧ Forall2
        (λ m ex,
           Py.lower m.1 ∈ status_words
           ∧ TestExecution.test_name ex = m.2
           ∧ TestExecution.status ex
             = (if bool_decide (Py.lower m.1 ∈ ["pass"; "passed"]) then "passed"
                else if bool_decide (Py.lower m.1 ∈ ["fail"; "failed"]) then "failed"
                else if bool_decide (Py.lower m.1 = "error") then "error"
                else "skipped")
           ∧ TestExecution.run_id ex = Py.or_else run_id (stem path)
           ∧ TestExecution.duration_seconds ex = Float.zero
           ∧ TestExecution.error_message ex = ""
           ∧ TestExecution.timestamp ex = "")
        ms recs.
Proof.
  intros Hread _.
  exists (finditer 0 content), (text_record path run_id <$> finditer 0 content).
  split_and!.
  - unfold parse_text_log. by rewrite Hread.
  - apply scan_finditer.
  - intros ms'. apply scan_unique.
  - apply Forall2_fmap_r, Forall_Forall2_diag.
    eapply Forall_impl; [exact (scan_status_words _ _ (scan_finditer content))|].
    intros m Hst. simpl. split_and!; try done. by apply status_word_normalized.
Qed.

Lemma C8_text_matches_witness :
  parse_text_log (text_log "PASSED  tests/test_auth.py::test_login (0.32s)
skip	test_logout") "run_7"
  = ([], Return [TestExecution.mk "tests/test_auth.py::test_login" "passed" "run_7"
                   Float.zero "" "";
                 TestExecution.mk "test_logout" "skipped" "run_7" Float.zero "" ""]).
Proof.
  destruct (C8_text_matches (text_log "PASSED  tests/test_auth.py::test_login (0.32s)
skip	test_logout") "run_7" "PASSED  tests/test_auth.py::test_login (0.32s)
skip	test_logout") as (ms & recs & Hparse & _); [reflexivity..|].
  rewrite Hparse. by vm_compute in Hparse; injection Hparse as <-.
Defined.

(** * Further properties of the code *)

(** ** The classifier on a group *)

Lemma count_status_perm (s : string) (l l' : list Exec) :
  l ≡ₚ l' → count_status s l = count_status s l'.
Proof. intros H. unfold count_status. by rewrite H. Qed.

Lemma run_ids_with_perm (sts : list string) (l l' : list Exec) :
  l ≡ₚ l' → run_ids_with sts l = run_ids_with sts l'.
Proof. intros H. unfold run_ids_with. by rewrite H. Qed.

Lemma message_set_perm (l l' : list Exec) : l ≡ₚ l' → message_set l = message_set l'.
Proof. intros H. unfold message_set. by rewrite H. Qed.

(** X1. The result of [_classify_test] does not depend on the order of the
    executions of the group. *)
Theorem classify_test_order (config : Config) (test_name : string)
    (execs execs' : list Exec) :
  execs ≡ₚ execs' →
  _classify_test config test_name execs = _classify_test config test_name execs'.
Proof.
  intros H. unfold _classify_test.
  rewrite !(count_status_perm _ _ _ H), (run_ids_with_perm _ _ _ H),
    (run_ids_with_perm _ _ _ H), (message_set_perm _ _ H).
  by rewrite (Permutation_length H).
Qed.

Lemma classify_test_order_witness :
  _classify_test FlakyTestConfig.default "t" mixed_runs
  = _classify_test FlakyTestConfig.default "t" mixed_runs_shuffled.
Proof.
  apply classify_test_order.
  exact (Permutation_app_comm
           [run "t" "passed" "r1"; run "t" "passed" "r2"]
           [run "t" "failed" "r3"; run "t" "passed" "r4"; run "t" "failed" "r5"]).
Defined.

(** ** Grouping *)

(** One group of the dictionary: the executions of [l] with the name of
    the group, in the order of [l]. *)
Lemma filter_name_snoc (n : string) (l : list Exec) (x : Exec) :
  filter (λ e, TestExecution.test_name e = n) (l ++ [x])
  = filter (λ e, TestExecution.test_name e = n) l
    ++ (if decide (TestExecution.test_name x = n) then [x] else []).
Proof. rewrite filter_app. by f_equal. Qed.

Lemma group_append_groups (x : Exec) (g : list (string * list Exec)) (l : list Exec) :
  NoDup g.*1 →
  Forall (λ grp, grp.2 = filter (λ e, TestExecution.test_name e = grp.1) l) g →
  filter (λ e, TestExecution.test_name e = TestExecution.test_name x) l = []
    ∨ TestExecution.test_name x ∈ g.*1 →
  Forall (λ grp, grp.2 = filter (λ e, TestExecution.test_name e = grp.1) (l ++ [x]))
    (group_append x g).
Proof.
  induction g as [|[k es] g IH]; intros Hnd Hg Hx; cbn [group_append].
  - destruct Hx as [Hx|Hx]; [|by apply elem_of_nil in Hx].
    constructor; [|constructor]. cbn [fst snd].
    by rewrite filter_name_snoc, Hx, decide_True.
  - rewrite fmap_cons in Hnd. apply NoDup_cons in Hnd as [Hk Hnd].
    apply Forall_cons in Hg as [Hes Hg]. cbn [fst snd] in *.
    destruct (String.eqb_spec k (TestExecution.test_name x)) as [->|Hne].
    + constructor.
      * cbn [fst snd]. by rewrite filter_name_snoc, decide_True, Hes.
      * apply Forall_forall. intros [n es'] Hin.
        pose proof (proj1 (Forall_forall _ _) Hg _ Hin) as Hes'. cbn [fst snd] in *.
        rewrite filter_name_snoc, decide_False, app_nil_r; [done|].
        intros Heq. apply Hk. rewrite Heq.
        apply list_elem_of_fmap. by exists (n, es').
    + constructor.
      * cbn [fst snd]. by rewrite filter_name_snoc, decide_False, app_nil_r.
      * apply IH; [done..|].
        destruct Hx as [Hx|Hx]; [by left|right].
        rewrite fmap_cons in Hx. apply elem_of_cons in Hx as [Hx|Hx]; [|done].
        by destruct Hne.
Qed.

Lemma filter_name_absent (n : string) (l : list Exec) :
  n ∉ TestExecution.test_name <$> l →
  filter (λ e, TestExecution.test_name e = n) l = [].
Proof.
  induction l as [|x l IH]; intros Hn; [done|].
  rewrite fmap_cons in Hn. apply not_elem_of_cons in Hn as [Hx Hl].
  rewrite filter_cons, decide_False by done. by apply IH.
Qed.

(** After the grouping loop, each group holds the executions of its name,
    in the order of the input. *)
Lemma group_by_name_groups (executions : list Exec) :
  Forall (λ grp, grp.2 = filter (λ e, TestExecution.test_name e = grp.1) executions)
    (group_by_name executions).
Proof.
  induction executions as [|x l IH] using rev_ind; [constructor|].
  unfold group_by_name in *. rewrite fold_left_app. cbn [fold_left].
  destruct (group_by_name_keys l) as [Hnd Hkeys]. unfold group_by_name in *.
  apply group_append_groups; [done..|].
  destruct (decide (TestExecution.test_name x ∈ TestExecution.test_name <$> l)) as [Hin|Hout].
  - right. by apply Hkeys.
  - left. by apply filter_name_absent.
Qed.

(** X2. Every result of an analysis is the classification of exactly the
    executions that bear its test name, taken in the order of the input. *)
Theorem classify_all_groups (config : Config) (executions : list Exec) (r : Result) :
  r ∈ classify_all config executions →
  FlakyTestResult.test_name r ∈ TestExecution.test_name <$> executions
  ∧ r = _classify_test config (FlakyTestResult.test_name r)
          (filter (λ e, TestExecution.test_name e = FlakyTestResult.test_name r)
             executions).
Proof.
  intros Hr. unfold classify_all in Hr.
  apply list_elem_of_fmap in Hr as ([n es] & -> & Hin). cbn [fst snd].
  rewrite classify_test_name.
  pose proof (proj1 (Forall_forall _ _) (group_by_name_groups executions) _ Hin) as Hes.
  cbn [fst snd] in Hes. split; [|by rewrite <- Hes].
  apply (proj2 (group_by_name_keys executions)).
  apply list_elem_of_fmap. by exists (n, es).
Qed.

Lemma classify_all_groups_witness :
  let r := _classify_test FlakyTestConfig.default "a"
             [run "a" "passed" "r1"; run "a" "failed" "r2"; run "a" "passed" "r3"] in
  FlakyTestResult.test_name r ∈ TestExecution.test_name <$> interleaved_runs
  ∧ r = _classify_test FlakyTestConfig.default (FlakyTestResult.test_name r)
          (filter (λ e, TestExecution.test_name e = FlakyTestResult.test_name r)
             interleaved_runs).
Proof.
  apply (classify_all_groups FlakyTestConfig.default interleaved_runs).
  apply list_elem_of_fmap.
  exists ("a", [run "a" "passed" "r1"; run "a" "failed" "r2"; run "a" "passed" "r3"]).
  split; [done|]. vm_compute. left.
Defined.

(** ** Rates and scores *)

Lemma truediv_frac (a n : nat) :
  Py.truediv a (S n) == Z.of_nat a # Pos.of_succ_nat n.
Proof.
  unfold Py.truediv, Qdiv, Qmult, Qinv, Qeq. simpl. lia.
Qed.

Lemma truediv_pos (a b : nat) :
  (0 < b)%nat → (0 < Py.truediv a b)%Q ↔ (0 < a)%nat.
Proof.
  intros Hb. destruct b as [|n]; [lia|]. rewrite truediv_frac.
  unfold Qlt. simpl. lia.
Qed.

Lemma truediv_ge_one (a b : nat) :
  (0 < b)%nat → (1 <= Py.truediv a b)%Q ↔ (b ≤ a)%nat.
Proof.
  intros Hb. destruct b as [|n]; [lia|]. rewrite truediv_frac.
  unfold Qle. simpl. lia.
Qed.


Lemma truediv_inj (a c b : nat) :
  (0 < b)%nat → Py.truediv a b == Py.truediv c b ↔ a = c.
Proof.
  intros Hb. destruct b as [|n]; [lia|]. rewrite !truediv_frac.
  unfold Qeq. simpl. nia.
Qed.

(** X3. With a run that was not skipped, the score is 0 exactly when the
    test never passed or never failed, and 1 exactly when it passed as often
    as it failed or errored. *)
Theorem score_extremes (config : Config) (test_name : string) (execs : list Exec) :
  (0 < effective_runs execs)%nat →
  let score := FlakyTestResult.flakiness_score (_classify_test config test_name execs) in
  (score == 0 ↔ passes execs = 0%nat ∨ combined_fails execs = 0%nat)
  ∧ (score == 1 ↔ passes execs = combined_fails execs).
Proof.
  intros Hpos score.
  assert (Hscore : score == 2 * Qmin (pass_rate execs) (fail_rate execs)).
  { subst score. classify_fold execs.
    destruct (Nat.eqb_spec (effective_runs execs) 0) as [E0|_]; [lia|].
    rewrite <- Py_min_spec.
    by destruct (Z.of_nat (effective_runs execs) <? _)%Z. }
  rewrite Hscore. clear Hscore score.
  pose proof (truediv_nonneg (passes execs) (effective_runs execs)) as Hp.
  pose proof (truediv_nonneg (combined_fails execs) (effective_runs execs)) as Hf.
  pose proof (truediv_pos (passes execs) _ Hpos) as Hpp.
  pose proof (truediv_pos (combined_fails execs) _ Hpos) as Hfp.
  pose proof (truediv_inj (passes execs) (combined_fails execs) _ Hpos) as Hinj.
  assert (Hsum : pass_rate execs + fail_rate execs == 1).
  { unfold pass_rate, fail_rate. rewrite effective_runs_split in *.
    apply truediv_sum. lia. }
  fold (pass_rate execs) in Hp, Hpp, Hinj. fold (fail_rate execs) in Hf, Hfp, Hinj.
  destruct (Q.min_spec (pass_rate execs) (fail_rate execs)) as [[Hlt ->]|[Hle ->]].
  - split.
    + split.
      * intros H0. left. destruct (passes execs); [done|].
        assert (0 < pass_rate execs)%Q by (apply Hpp; lia). lra.
      * intros [H0|H0].
        -- assert (¬ (0 < pass_rate execs)%Q) by (rewrite Hpp; lia). lra.
        -- assert (¬ (0 < fail_rate execs)%Q) by (rewrite Hfp; lia). lra.
    + split.
      * intros H1. lra.
      * intros Heq. apply Hinj in Heq. lra.
  - split.
    + split.
      * intros H0. right. destruct (combined_fails execs); [done|].
        assert (0 < fail_rate execs)%Q by (apply Hfp; lia). lra.
      * intros [H0|H0].
        -- assert (¬ (0 < pass_rate execs)%Q) by (rewrite Hpp; lia). lra.
        -- assert (¬ (0 < fail_rate execs)%Q) by (rewrite Hfp; lia). lra.
    + split.
      * intros H1. apply Hinj. lra.
      * intros Heq. apply Hinj in Heq. lra.
Qed.

Lemma score_extremes_witness :
  FlakyTestResult.flakiness_score
    (_classify_test FlakyTestConfig.default "t"
       [run "t" "passed" "r1"; run "t" "error" "r2"]) == 1.
Proof.
  destruct (score_extremes FlakyTestConfig.default "t"
              [run "t" "passed" "r1"; run "t" "error" "r2"]) as [_ H].
  - vm_compute. lia.
  - apply H. by vm_compute.
Defined.

(** X4. With the default configuration a test is always-skipped exactly
    when it has no run that was not skipped; a true failure exactly when it
    failed or errored and never passed; flaky exactly when it both passed
    and failed or errored; stable exactly when it passed and never failed
    nor errored. *)
Theorem default_classification (test_name : string) (execs : list Exec) :
  let c := FlakyTestResult.classification
             (_classify_test FlakyTestConfig.default test_name execs) in
  (c = "always_skipped" ↔ effective_runs execs = 0%nat)
  ∧ (c = "true_failure" ↔ passes execs = 0%nat ∧ (0 < combined_fails execs)%nat)
  ∧ (c = "flaky" ↔ (0 < passes execs)%nat ∧ (0 < combined_fails execs)%nat)
  ∧ (c = "stable" ↔ (0 < passes execs)%nat ∧ combined_fails execs = 0%nat).
Proof.
  intros c. subst c. classify_fold execs.
  pose proof (effective_runs_split execs) as Hsplit.
  destruct (Nat.eqb_spec (effective_runs execs) 0) as [E0|N0].
  { simpl. split_and!; split; try done; lia. }
  assert (Hpos : (0 < effective_runs execs)%nat) by lia.
  cbn [FlakyTestConfig.min_runs_required FlakyTestConfig.default
       FlakyTestConfig.true_failure_threshold FlakyTestConfig.flakiness_threshold].
  destruct (Z.ltb_spec (Z.of_nat (effective_runs execs)) 2) as [Hlt|Hge].
  - destruct (Nat.eqb_spec (combined_fails execs) (effective_runs execs)) as [E1|N1];
      [|destruct (Nat.eqb_spec (combined_fails execs) 0) as [E2|N2]];
      simpl; split_and!; split; try done; lia.
  - pose proof (truediv_ge_one (combined_fails execs) _ Hpos) as Hone.
    pose proof (truediv_pos (passes execs) _ Hpos) as Hpp.
    pose proof (truediv_pos (combined_fails execs) _ Hpos) as Hfp.
    fold (pass_rate execs) in Hpp. fold (fail_rate execs) in Hone, Hfp.
    destruct (Qle_bool 1 (fail_rate execs)) eqn:Etf.
    + apply Qle_bool_iff, Hone in Etf. simpl. split_and!; split; try done; lia.
    + apply Qle_bool_false in Etf.
      assert (Hcf : (combined_fails execs < effective_runs execs)%nat).
      { destruct (Nat.lt_ge_cases (combined_fails execs) (effective_runs execs)); [done|].
        apply Hone in H. lra. }
      destruct (Nat.ltb_spec 0 (combined_fails execs)) as [Hc|Hc];
        destruct (Nat.ltb_spec 0 (passes execs)) as [Hp|Hp]; try lia.
      * assert (Hs : Qle_bool (2 * Py.min (pass_rate execs) (fail_rate execs)) 0 = false).
        { apply Qle_bool_false. rewrite Py_min_spec.
          apply Hpp in Hp. apply Hfp in Hc.
          destruct (Q.min_spec (pass_rate execs) (fail_rate execs)) as [[_ ->]|[_ ->]]; lra. }
        rewrite Hs. simpl. split_and!; split; try done; lia.
      * rewrite andb_false_r. simpl. split_and!; split; try done; lia.
Qed.

(** ** The summary *)





(** ** Trimming and letter case *)

Lemma isspace_lower_char (c : ascii) : Py.isspace (Py.lower_char c) = Py.isspace c.
Proof. destruct c as [[] [] [] [] [] [] [] []]; by vm_compute. Qed.

Lemma lower_char_idem (c : ascii) : Py.lower_char (Py.lower_char c) = Py.lower_char c.
Proof. destruct c as [[] [] [] [] [] [] [] []]; by vm_compute. Qed.

Lemma lower_idem (s : string) : Py.lower (Py.lower s) = Py.lower s.
Proof. induction s as [|c s IH]; simpl; [done|]. by rewrite lower_char_idem, IH. Qed.

Lemma lower_empty (s : string) : Py.lower s = "" ↔ s = "".
Proof. by destruct s. Qed.

Lemma lstrip_lower (s : string) :
  Py.lstrip_by Py.isspace (Py.lower s) = Py.lower (Py.lstrip_by Py.isspace s).
Proof.
  induction s as [|c s IH]; simpl; [done|].
  rewrite isspace_lower_char. by destruct (Py.isspace c).
Qed.

Lemma rstrip_lower (s : string) :
  Py.rstrip_by Py.isspace (Py.lower s) = Py.lower (Py.rstrip_by Py.isspace s).
Proof.
  induction s as [|c s IH]; simpl; [done|].
  rewrite IH, isspace_lower_char.
  destruct (Py.rstrip_by Py.isspace s); simpl; [|done].
  by destruct (Py.isspace c).
Qed.

Lemma strip_lower (s : string) : Py.strip (Py.lower s) = Py.lower (Py.strip s).
Proof. unfold Py.strip. by rewrite lstrip_lower, rstrip_lower. Qed.

Lemma rstrip_idem (s : string) :
  Py.rstrip_by Py.isspace (Py.rstrip_by Py.isspace s) = Py.rstrip_by Py.isspace s.
Proof.
  induction s as [|c s IH]; simpl; [done|].
  destruct (Py.rstrip_by Py.isspace s) as [|d t] eqn:E.
  - destruct (Py.isspace c) eqn:Hc; simpl; [done|]. by rewrite Hc.
  - cbn [Py.rstrip_by]. cbn [Py.rstrip_by] in IH. by rewrite IH.
Qed.

Lemma lstrip_at_word (s : string) : at_word (Py.lstrip_by Py.isspace s).
Proof.
  induction s as [|c s IH]; simpl; [done|].
  destruct (Py.isspace c) eqn:Hc; [done|]. simpl. done.
Qed.

Lemma lstrip_of_at_word (s : string) : at_word s → Py.lstrip_by Py.isspace s = s.
Proof. destruct s as [|c s]; simpl; [done|]. by intros ->. Qed.

Lemma rstrip_at_word (s : string) : at_word s → at_word (Py.rstrip_by Py.isspace s).
Proof.
  destruct s as [|c s]; simpl; [done|]. intros Hc.
  destruct (Py.rstrip_by Py.isspace s); [by rewrite Hc|done].
Qed.

Lemma strip_idem (s : string) : Py.strip (Py.strip s) = Py.strip s.
Proof.
  unfold Py.strip.
  rewrite (lstrip_of_at_word (Py.rstrip_by _ _))
    by apply rstrip_at_word, lstrip_at_word.
  apply rstrip_idem.
Qed.

Lemma lstrip_padding (ws s : string) :
  all_space ws → Py.lstrip_by Py.isspace (ws +:+ s) = Py.lstrip_by Py.isspace s.
Proof.
  induction ws as [|c ws IH]; simpl; [done|]. intros [-> Hws]. by apply IH.
Qed.

Lemma rstrip_all_space (ws : string) : all_space ws → Py.rstrip_by Py.isspace ws = "".
Proof.
  induction ws as [|c ws IH]; simpl; [done|]. intros [-> Hws]. by rewrite IH.
Qed.

Lemma rstrip_padding (s ws : string) :
  all_space ws → Py.rstrip_by Py.isspace (s +:+ ws) = Py.rstrip_by Py.isspace s.
Proof.
  intros Hws. induction s as [|c s IH]; simpl; [by apply rstrip_all_space|].
  by rewrite IH.
Qed.

Lemma lstrip_app_at_word (s t : string) :
  s ≠ "" → at_word s → Py.lstrip_by Py.isspace (s +:+ t) = s +:+ t.
Proof. destruct s as [|c s]; [done|]. simpl. by intros _ ->. Qed.

Lemma strip_padding (ws s ws' : string) :
  all_space ws → all_space ws' → Py.strip (ws +:+ s +:+ ws') = Py.strip s.
Proof.
  intros Hws Hws'. unfold Py.strip. rewrite lstrip_padding by done.
  destruct (Py.lstrip_by Py.isspace s) as [|c t] eqn:E.
  - (* [s] is whitespace only *)
    assert (Hs : all_space s).
    { clear -E. induction s as [|c s IH]; simpl in *; [done|].
      destruct (Py.isspace c) eqn:Hc; [|done]. split; [done|]. by apply IH. }
    rewrite lstrip_padding by done.
    assert (Hl : ∀ w, all_space w → Py.lstrip_by Py.isspace w = "").
    { clear. induction w as [|c w IH]; simpl; [done|]. intros [-> Hw]. by apply IH. }
    by rewrite (Hl _ Hws').
  - pose proof (lstrip_at_word s) as Hc. rewrite E in Hc.
    assert (Hsplit : ∃ pre, s = pre +:+ String c t ∧ all_space pre).
    { clear -E. induction s as [|d s IH]; simpl in *; [done|].
      destruct (Py.isspace d) eqn:Hd.
      - destruct (IH E) as (pre & -> & Hpre). by exists (String d pre).
      - injection E as -> ->. by exists "". }
    destruct Hsplit as (pre & -> & Hpre).
    rewrite sapp_assoc, lstrip_padding by done.
    rewrite (lstrip_app_at_word (String c t)) by done.
    by apply rstrip_padding.
Qed.

(** X6. The normalizer ignores letter case and surrounding whitespace: the
    lower-cased, the trimmed and the padded input normalize like the input
    itself. *)
Theorem normalize_status_insensitive (raw ws ws' : string) :
  all_space ws → all_space ws' →
  _normalize_status (Py.lower raw) = _normalize_status raw
  ∧ _normalize_status (Py.strip raw) = _normalize_status raw
  ∧ _normalize_status (ws +:+ raw +:+ ws') = _normalize_status raw.
Proof.
  intros Hws Hws'. unfold _normalize_status.
  by rewrite strip_lower, lower_idem, strip_idem, strip_padding.
Qed.

Lemma normalize_status_insensitive_witness :
  _normalize_status ("  " +:+ "Passed" +:+ "   ") = _normalize_status "Passed".
Proof.
  apply (normalize_status_insensitive "Passed" "  " "   "); by vm_compute.
Defined.

(** ** What every parser keeps *)

Lemma normalize_status_canonical (raw : string) :
  _normalize_status raw ∈ canonical_statuses.
Proof. unfold _normalize_status, canonical_statuses. repeat case_match; set_solver. Qed.

(** What holds of the record of every test case holds of the records of
    the report. *)
Lemma parse_junit_xml_Forall (P : Exec → Prop) (path : Path) (run_id : string)
    (l : list log_record) (recs : list Exec) :
  (∀ tc l ex, junit_testcase path run_id tc = (l, Return ex) → P ex) →
  parse_junit_xml path run_id = (l, Return recs) → Forall P recs.
Proof.
  intros HP H. unfold parse_junit_xml in H.
  destruct (et_parse path) as [root|e].
  - eapply (extend_each_Forall _ _ _ _ _ _ _ _ H). Unshelve. 2: constructor.
    intros suite l1 ys _ Hsuite.
    eapply (extend_each_Forall _ _ _ _ _ _ _ _ Hsuite). Unshelve. 2: constructor.
    intros tc l2 zs _ Htc.
    apply bind_Return in Htc as (l3 & ex & l4 & Hex & Hret & _).
    injection Hret as _ <-. constructor; [|constructor]. by eapply HP.
  - destruct e; try done.
    apply bind_Return in H as (? & ? & ? & _ & Hret & _).
    injection Hret as _ <-. constructor.
Qed.

Lemma parse_json_results_Forall (P : Exec → Prop) (repr : json → string) (path : Path)
    (run_id : string) (l : list log_record) (recs : list Exec) :
  (∀ record l ex, json_record repr path run_id record = (l, Return ex) → P ex) →
  parse_json_results repr path run_id = (l, Return recs) → Forall P recs.
Proof.
  intros HP H. unfold parse_json_results in H.
  assert (Hwarn : ∀ fmt l, (warning fmt (name path);; mret []) = (l, Return recs) →
                           Forall P recs).
  { intros fmt l0 H0. apply bind_Return in H0 as (? & ? & ? & _ & Hret & _).
    injection Hret as _ <-. constructor. }
  destruct (json_load path) as [data|e].
  - apply bind_Return in H as (l1 & records & l2 & _ & H & _).
    destruct records as [| | | | |records|]; try by eapply Hwarn.
    eapply (extend_each_Forall _ _ _ _ _ _ _ _ H). Unshelve. 2: constructor.
    intros record l3 ys _ Hrec. destruct record; try (injection Hrec as _ <-; constructor).
    apply bind_Return in Hrec as (l4 & ex & l5 & Hex & Hret & _).
    injection Hret as _ <-. constructor; [|constructor]. by eapply HP.
  - case_bool_decide; [by eapply Hwarn|done].
Qed.

Lemma parse_text_log_Forall (P : Exec → Prop) (path : Path) (run_id : string)
    (l : list log_record) (recs : list Exec) :
  (∀ m, P (text_record path run_id m)) →
  parse_text_log path run_id = (l, Return recs) → Forall P recs.
Proof.
  intros HP H. unfold parse_text_log in H.
  destruct (read_text path) as [content|e].
  - injection H as _ <-. apply Forall_fmap, Forall_forall. intros m _. apply HP.
  - destruct e; try done.
    apply bind_Return in H as (? & ? & ? & _ & Hret & _).
    injection Hret as _ <-. constructor.
Qed.

Lemma auto_detect_Forall (P : Exec → Prop) (repr : json → string) (path : Path)
    (run_id : string) (l : list log_record) (recs : list Exec) :
  (∀ tc l ex, junit_testcase path run_id tc = (l, Return ex) → P ex) →
  (∀ record l ex, json_record repr path run_id record = (l, Return ex) → P ex) →
  (∀ m, P (text_record path run_id m)) →
  _auto_detect_and_parse repr path run_id = (l, Return recs) → Forall P recs.
Proof.
  intros Hx Hj Ht. unfold _auto_detect_and_parse.
  destruct (String.eqb _ ".xml"); [by apply parse_junit_xml_Forall|].
  destruct (String.eqb _ ".json"); [by apply parse_json_results_Forall|].
  by apply parse_text_log_Forall.
Qed.

(** What holds of the records of every file holds of the records of the
    directory. *)
Lemma load_results_Forall (P : Exec → Prop) (repr : json → string) (directory : Path)
    (log : list log_record) (recs : list Exec) :
  (∀ path run_id l rs, _auto_detect_and_parse repr path run_id = (l, Return rs) →
                       Forall P rs) →
  load_results_from_directory repr directory = (log, Return recs) → Forall P recs.
Proof.
  intros HP H. unfold load_results_from_directory in H.
  assert (Hfiles : ∀ dir run_id acc l rs,
    Forall P acc → load_files repr dir run_id acc = (l, Return rs) → Forall P rs).
  { intros dir run_id acc l rs Hacc Hl. unfold load_files in Hl.
    eapply (extend_each_Forall _ _ _ _ _ _ _ Hacc Hl). Unshelve.
    intros p l1 ys _ Hp. eapply HP. exact Hp. }
  destruct (is_dir directory); cbn [negb] in H; cbv iota in H.
  - apply bind_Return in H as (l1 & all & l2 & Hall & Hrest & _).
    apply bind_Return in Hrest as (? & ? & ? & _ & Hret & _).
    injection Hret as _ <-.
    destruct (sorted_paths _) as [|d ds]; [by eapply Hfiles|].
    revert Hall. generalize (d :: ds). intros subdirs.
    assert (Hstart : ∀ l0 r0, (mret [] : M (list Exec)) = (l0, Return r0) → Forall P r0).
    { by intros l0 r0 [= _ <-]. }
    revert Hstart. generalize (mret [] : M (list Exec)). revert l1 all.
    induction subdirs as [|s ss IH]; intros l1 all m Hm Hfold; simpl in Hfold.
    + by eapply Hm.
    + eapply IH; [|exact Hfold].
      intros l0 r0 Hstep.
      apply bind_Return in Hstep as (la & ra & lb & Hma & Hload & _).
      eapply Hfiles; [|exact Hload]. by eapply Hm.
  - apply bind_Return in H as (? & ? & ? & _ & Hret & _).
    injection Hret as _ <-. constructor.
Qed.

Lemma junit_testcase_status (path : Path) (run_id : string) (tc : element)
    (l : list log_record) (ex : Exec) :
  junit_testcase path run_id tc = (l, Return ex) →
  TestExecution.status ex ∈ canonical_statuses.
Proof.
  intros H. unfold junit_testcase in H.
  apply bind_Return in H as (l1 & d & l2 & _ & H & _).
  unfold canonical_statuses.
  destruct (find tc "failure"), (find tc "error"), (find tc "skipped");
    injection H as _ <-; set_solver.
Qed.

Lemma json_record_status (repr : json → string) (path : Path) (run_id : string)
    (record : list (string * json)) (l : list log_record) (ex : Exec) :
  json_record repr path run_id record = (l, Return ex) →
  TestExecution.status ex ∈ canonical_statuses.
Proof.
  intros H. unfold json_record in H.
  apply bind_Return in H as (l1 & d & l2 & _ & H & _).
  destruct (json_or _ _); try done. injection H as _ <-.
  apply normalize_status_canonical.
Qed.

(** X7. Every record that a parser returns for a file, and every record
    that the directory loader returns, has one of the four canonical
    statuses. *)
Theorem parsed_status_canonical (repr : json → string) (path : Path) (run_id : string)
    (l : list log_record) (recs : list Exec) :
  (_auto_detect_and_parse repr path run_id = (l, Return recs) →
     Forall (λ ex, TestExecution.status ex ∈ canonical_statuses) recs)
  ∧ (load_results_from_directory repr path = (l, Return recs) →
     Forall (λ ex, TestExecution.status ex ∈ canonical_statuses) recs).
Proof.
  assert (Hfile : ∀ p rid l0 rs,
    _auto_detect_and_parse repr p rid = (l0, Return rs) →
    Forall (λ ex, TestExecution.status ex ∈ canonical_statuses) rs).
  { intros p rid l0 rs. apply auto_detect_Forall.
    - intros tc l1 ex. apply junit_testcase_status.
    - intros record l1 ex. apply json_record_status.
    - intros m. apply normalize_status_canonical. }
  split; [by apply Hfile|].
  intros H. eapply load_results_Forall; [|exact H]. exact Hfile.
Qed.

Lemma parsed_status_canonical_witness :
  ∃ l recs, load_results_from_directory (λ _, "") results_root = (l, Return recs)
    ∧ length recs = 2%nat
    ∧ Forall (λ ex, TestExecution.status ex ∈ canonical_statuses) recs.
Proof.
  destruct (load_results_from_directory (λ _, "") results_root) as [l r] eqn:E.
  pose proof E as E'. vm_compute in E'. injection E' as <- <-.
  eexists _, _. split; [exact E|]. split; [done|].
  eapply (proj2 (parsed_status_canonical (λ _, "") results_root "" _ _)). exact E.
Defined.

Lemma take_length (n : nat) (s : string) : (String.length (Py.take n s) ≤ n)%nat.
Proof.
  unfold Py.take. revert s. induction n as [|n IH]; intros [|c s]; simpl; try lia.
  specialize (IH s). lia.
Qed.

Lemma junit_testcase_message (path : Path) (run_id : string) (tc : element)
    (l : list log_record) (ex : Exec) :
  junit_testcase path run_id tc = (l, Return ex) →
  (String.length (TestExecution.error_message ex) ≤ 500)%nat.
Proof.
  intros H. unfold junit_testcase in H.
  apply bind_Return in H as (l1 & d & l2 & _ & H & _).
  destruct (find tc "failure"), (find tc "error"), (find tc "skipped");
    injection H as _ <-; apply take_length.
Qed.

Lemma json_record_message (repr : json → string) (path : Path) (run_id : string)
    (record : list (string * json)) (l : list log_record) (ex : Exec) :
  json_record repr path run_id record = (l, Return ex) →
  (String.length (TestExecution.error_message ex) ≤ 500)%nat.
Proof.
  intros H. unfold json_record in H.
  apply bind_Return in H as (l1 & d & l2 & _ & H & _).
  destruct (json_or _ _); try done. injection H as _ <-. apply take_length.
Qed.

(** X8. No record that a parser or the directory loader returns has an
    error message of more than 500 characters. *)
Theorem parsed_message_bounded (repr : json → string) (path : Path) (run_id : string)
    (l : list log_record) (recs : list Exec) :
  (_auto_detect_and_parse repr path run_id = (l, Return recs) →
     Forall (λ ex, (String.length (TestExecution.error_message ex) ≤ 500)%nat) recs)
  ∧ (load_results_from_directory repr path = (l, Return recs) →
     Forall (λ ex, (String.length (TestExecution.error_message ex) ≤ 500)%nat) recs).
Proof.
  assert (Hfile : ∀ p rid l0 rs,
    _auto_detect_and_parse repr p rid = (l0, Return rs) →
    Forall (λ ex, (String.length (TestExecution.error_message ex) ≤ 500)%nat) rs).
  { intros p rid l0 rs. apply auto_detect_Forall.
    - intros tc l1 ex. apply junit_testcase_message.
    - intros record l1 ex. apply json_record_message.
    - intros m. simpl. lia. }
  split; [by apply Hfile|].
  intros H. eapply load_results_Forall; [|exact H]. exact Hfile.
Qed.

Lemma parsed_message_bounded_witness :
  ∃ l recs, _auto_detect_and_parse (λ _, "") verbose_xml "" = (l, Return recs)
    ∧ (String.length <$> (TestExecution.error_message <$> recs)) = [500%nat]
    ∧ Forall (λ ex, (String.length (TestExecution.error_message ex) ≤ 500)%nat) recs.
Proof.
  destruct (_auto_detect_and_parse (λ _, "") verbose_xml "") as [l r] eqn:E.
  pose proof E as E'. vm_compute in E'. injection E' as <- <-.
  eexists _, _. split; [exact E|]. split; [by vm_compute|].
  eapply (proj1 (parsed_message_bounded (λ _, "") verbose_xml "" _ _)). exact E.
Defined.

(** ** The order of the files and the runs *)

Lemma ascii_compare_N (a b : ascii) :
  Ascii.compare a b = N.compare (N_of_ascii a) (N_of_ascii b).
Proof. reflexivity. Qed.

Lemma string_leb_trans (s1 s2 s3 : string) :
  String.leb s1 s2 = true → String.leb s2 s3 = true → String.leb s1 s3 = true.
Proof.
  unfold String.leb. revert s2 s3.
  induction s1 as [|a s1 IH]; intros [|b s2] [|c s3]; simpl; try done.
  rewrite !ascii_compare_N.
  destruct (N.compare_spec (N_of_ascii a) (N_of_ascii b)) as [Hab|Hab|Hab];
    destruct (N.compare_spec (N_of_ascii b) (N_of_ascii c)) as [Hbc|Hbc|Hbc];
    destruct (N.compare_spec (N_of_ascii a) (N_of_ascii c)) as [Hac|Hac|Hac];
    try done; try lia.
  apply IH.
Qed.

Lemma insert_by_name_sorted (p : Path) (l : list Path) :
  StronglySorted name_le l → StronglySorted name_le (insert_by_name p l).
Proof.
  induction 1 as [|q l Hl IH Hq]; simpl; [by repeat constructor|].
  destruct (String.leb (name p) (name q)) eqn:E.
  - constructor; [by constructor|]. constructor; [done|].
    eapply Forall_impl; [exact Hq|]. intros r Hr.
    by eapply string_leb_trans.
  - constructor; [done|]. rewrite insert_by_name_perm.
    constructor; [|done]. destruct (String.leb_total (name p) (name q)); congruence.
Qed.

Lemma sorted_paths_sorted (l : list Path) : StronglySorted name_le (sorted_paths l).
Proof.
  induction l as [|p l IH]; simpl; [constructor|]. by apply insert_by_name_sorted.
Qed.

(** [sorted] of the same entries, listed in another order. *)
Lemma sorted_paths_order (l l' : list Path) :
  l ≡ₚ l' → NoDup (name <$> l) → sorted_paths l = sorted_paths l'.
Proof.
  intros Hperm Hnd.
  apply (StronglySorted_unique_strong name_le);
    [|apply sorted_paths_sorted..|by rewrite !sorted_paths_perm].
  intros p q Hp Hq Hpq Hqp.
  rewrite sorted_paths_perm in Hp. rewrite sorted_paths_perm, <- Hperm in Hq.
  assert (Hn : name p = name q) by by apply String.leb_antisym.
  apply list_elem_of_lookup in Hp as [i Hi]. apply list_elem_of_lookup in Hq as [j Hj].
  assert (i = j) as ->.
  { eapply NoDup_lookup; [exact Hnd| |]; rewrite list_lookup_fmap.
    - by rewrite Hi.
    - rewrite Hj. simpl. by rewrite Hn. }
  congruence.
Qed.

Lemma filter_names_NoDup (P : Path → Prop) `{∀ p, Decision (P p)} (l : list Path) :
  NoDup (name <$> l) → NoDup (name <$> filter P l).
Proof.
  intros Hnd.
  exact (sublist_NoDup _ _ Hnd (fmap_sublist name _ _ (sublist_filter P l))).
Qed.

Lemma load_files_order (repr : json → string) (d d' : Path) (run_id : string)
    (acc : list Exec) :
  iterdir d ≡ₚ iterdir d' → NoDup (name <$> iterdir d) →
  load_files repr d run_id acc = load_files repr d' run_id acc.
Proof.
  intros Hperm Hnd. unfold load_files. by rewrite (sorted_paths_order _ _ Hperm Hnd).
Qed.

(** X9. The loader does not depend on the order in which the file system
    lists the entries of a directory, whose names are distinct: neither for
    the root nor for the files of one run. *)
Theorem loader_listing_order (repr : json → string) (n : string)
    (entries entries' : list (string * node)) :
  entries ≡ₚ entries' → NoDup entries.*1 →
  load_results_from_directory repr (Path_ n (Some (Dir entries)))
  = load_results_from_directory repr (Path_ n (Some (Dir entries')))
  ∧ ∀ run_id acc,
      load_files repr (Path_ n (Some (Dir entries))) run_id acc
      = load_files repr (Path_ n (Some (Dir entries'))) run_id acc.
Proof.
  intros Hperm Hnd.
  set (d := Path_ n (Some (Dir entries))). set (d' := Path_ n (Some (Dir entries'))).
  assert (Hiter : iterdir d ≡ₚ iterdir d').
  { unfold iterdir. simpl. by rewrite Hperm. }
  assert (Hnames : NoDup (name <$> iterdir d)).
  { unfold iterdir. simpl. rewrite <- list_fmap_compose. exact Hnd. }
  split; [|intros run_id acc; by apply load_files_order].
  unfold load_results_from_directory. change (is_dir d') with (is_dir d).
  change (name d') with (name d).
  rewrite (sorted_paths_order (filter (λ d, is_dir d = true) (iterdir d))
             (filter (λ d, is_dir d = true) (iterdir d'))),
    (load_files_order repr d d' "" []); [done..| |].
  - by rewrite Hiter.
  - by apply filter_names_NoDup.
Qed.

Lemma loader_listing_order_witness :
  load_results_from_directory (λ _, "") flat_root
  = load_results_from_directory (λ _, "") flat_root_relisted.
Proof.
  eapply proj1.
  refine (loader_listing_order (λ _, "") "results" _ _
            (Permutation_app_comm [_] [_; _]) _).
  apply (bool_decide_unpack _). by vm_compute.
Defined.

(** ** The two layouts of the results directory *)

(** X10. As soon as the root holds one subdirectory, the files at the root
    are not read: the loader gives what it gives for the subdirectories
    alone. *)
Theorem root_files_ignored (repr : json → string) (n : string)
    (entries : list (string * node)) :
  Exists is_dir_entry entries →
  load_results_from_directory repr (Path_ n (Some (Dir entries)))
  = load_results_from_directory repr (Path_ n (Some (Dir (filter is_dir_entry entries)))).
Proof.
  intros Hsub. unfold load_results_from_directory.
  change (is_dir (Path_ n (Some (Dir (filter is_dir_entry entries)))))
    with (is_dir (Path_ n (Some (Dir entries)))).
  destruct (is_dir _); [|done]. cbn [negb]. cbv iota.
  unfold iterdir. cbn [target name].
  assert (Hf : ∀ l : list (string * node),
    filter (λ d, is_dir d = true) ((λ e, Path_ e.1 (Some e.2)) <$> l)
    = (λ e, Path_ e.1 (Some e.2)) <$> filter is_dir_entry l).
  { intros l. induction l as [|e l IH]; [done|].
    rewrite fmap_cons, !filter_cons. unfold is_dir_entry at 1.
    destruct (decide (is_dir _ = true)); by rewrite IH. }
  rewrite !Hf, list_filter_filter_l by done.
  destruct (sorted_paths _) as [|d ds] eqn:E; [|done].
  exfalso. apply Exists_exists in Hsub as (e & He & Hdir).
  assert (Hin : Path_ e.1 (Some e.2) ∈ sorted_paths
            ((λ e, Path_ e.1 (Some e.2)) <$> filter is_dir_entry entries)).
  { rewrite sorted_paths_perm. apply list_elem_of_fmap. exists e.
    split; [done|]. by apply list_elem_of_filter. }
  rewrite E in Hin. by apply elem_of_nil in Hin.
Qed.

Lemma root_files_ignored_witness :
  load_results_from_directory (λ _, "") results_root
  = load_results_from_directory (λ _, "") results_root_runs_only.
Proof.
  apply (root_files_ignored (λ _, "") "results"). by apply Exists_cons_hd.
Defined.

Lemma substring_length (i k : nat) (s : string) :
  (i + k ≤ String.length s)%nat → String.length (String.substring i k s) = k.
Proof.
  revert i k. induction s as [|c s IH]; intros [|i] [|k]; simpl; try done; try lia.
  - intros H. rewrite (IH 0%nat k); [done|lia].
  - intros H. apply (IH i 0%nat). lia.
  - intros H. apply (IH i (S k)). lia.
Qed.

(** A name with a suffix has a stem. *)
Lemma stem_of_suffixed (p : Path) : suffix p ≠ "" → stem p ≠ "".
Proof.
  unfold suffix, stem, split_name. destruct (rfind_dot (name p)) as [i|]; [|done].
  destruct (_ && _) eqn:E; [|done]. simpl. intros _ Hs.
  apply andb_true_iff in E as [Hi Hn]. apply Nat.ltb_lt in Hi, Hn.
  assert (Hlen := substring_length 0 i (name p)). rewrite Hs in Hlen.
  simpl in Hlen. lia.
Qed.

Lemma result_file_stem (p : Path) : is_result_file p = true → stem p ≠ "".
Proof.
  unfold is_result_file. intros H. apply andb_true_iff in H as [_ H].
  apply stem_of_suffixed. intros Hs. by rewrite Hs in H.
Qed.

Lemma junit_testcase_run (path : Path) (run_id : string) (tc : element)
    (l : list log_record) (ex : Exec) :
  junit_testcase path run_id tc = (l, Return ex) →
  TestExecution.run_id ex = Py.or_else run_id (stem path).
Proof.
  intros H. unfold junit_testcase in H.
  apply bind_Return in H as (l1 & d & l2 & _ & H & _).
  destruct (find tc "failure"), (find tc "error"), (find tc "skipped");
    by injection H as _ <-.
Qed.

Lemma json_record_run (repr : json → string) (path : Path) (run_id : string)
    (record : list (string * json)) (l : list log_record) (ex : Exec) :
  json_record repr path run_id record = (l, Return ex) →
  TestExecution.run_id ex = Py.or_else run_id (stem path).
Proof.
  intros H. unfold json_record in H.
  apply bind_Return in H as (l1 & d & l2 & _ & H & _).
  destruct (json_or _ _); try done. by injection H as _ <-.
Qed.

(** X11. In a directory without subdirectories, the run of every record
    is the stem of a result file of the directory, the file it was read
    from, and it is not empty. *)
Theorem flat_directory_run_ids (repr : json → string) (directory : Path)
    (log : list log_record) (recs : list Exec) :
  subdirectories directory = [] →
  load_results_from_directory repr directory = (log, Return recs) →
  Forall (λ ex, TestExecution.run_id ex ≠ ""
                ∧ ∃ p, p ∈ iterdir directory ∧ is_result_file p = true
                       ∧ TestExecution.run_id ex = stem p) recs.
Proof.
  intros Hflat H. unfold load_results_from_directory in H.
  fold (subdirectories directory) in H. rewrite Hflat in H.
  destruct (is_dir directory); cbn [negb] in H; cbv iota in H.
  - apply bind_Return in H as (l1 & all & l2 & Hall & Hrest & _).
    apply bind_Return in Hrest as (? & ? & ? & _ & Hret & _).
    injection Hret as _ <-. unfold load_files in Hall.
    eapply (extend_each_Forall _ _ _ _ _ _ _ _ Hall). Unshelve. 2: constructor.
    intros p l0 ys Hp Hys.
    apply list_elem_of_filter in Hp as [Hres Hp]. rewrite sorted_paths_perm in Hp.
    eapply Forall_impl.
    + eapply (auto_detect_Forall
                (λ ex, TestExecution.run_id ex = Py.or_else "" (stem p)));
        [| | |exact Hys].
      * intros tc l' ex. apply junit_testcase_run.
      * intros record l' ex. apply json_record_run.
      * done.
    + intros ex Hex. simpl in Hex. split.
      * rewrite Hex. by apply result_file_stem.
      * by exists p.
  - apply bind_Return in H as (? & ? & ? & _ & Hret & _).
    injection Hret as _ <-. constructor.
Qed.

Lemma flat_directory_run_ids_witness :
  ∃ l recs, load_results_from_directory (λ _, "") flat_root = (l, Return recs)
    ∧ TestExecution.run_id <$> recs = ["a_run"; "b_run"]
    ∧ Forall (λ ex, TestExecution.run_id ex ≠ ""
                ∧ ∃ p, p ∈ iterdir flat_root ∧ is_result_file p = true
                       ∧ TestExecution.run_id ex = stem p) recs.
Proof.
  destruct (load_results_from_directory (λ _, "") flat_root) as [l r] eqn:E.
  pose proof E as E'. vm_compute in E'. injection E' as <- <-.
  eexists _, _. split; [exact E|]. split; [done|].
  eapply (flat_directory_run_ids (λ _, "") flat_root); [by vm_compute|exact E].
Defined.

(** ** Runs that are counted *)

Lemma counts_split (execs : list Exec) :
  (count_status "passed" execs + count_status "failed" execs
   + count_status "error" execs + count_status "skipped" execs
   + length (filter (λ e, TestExecution.status e ∉ canonical_statuses) execs))%nat
  = length execs.
Proof.
  unfold count_status, canonical_statuses.
  induction execs as [|e l IH]; [done|].
  rewrite !filter_cons. simpl.
  repeat case_decide; simpl; try lia; try congruence; exfalso; set_solver.
Qed.

Lemma uncounted_none (execs : list Exec) :
  length (filter (λ e, TestExecution.status e ∉ canonical_statuses) execs) = 0%nat
  ↔ Forall (λ e, TestExecution.status e ∈ canonical_statuses) execs.
Proof.
  induction execs as [|e l IH]; [by split; [constructor|]|].
  rewrite filter_cons, Forall_cons. case_decide as Hd; simpl.
  - split; [done|]. by intros [H _].
  - rewrite IH. split; [|by intros [_ H]]. intros H. split; [|done].
    by destruct (decide (TestExecution.status e ∈ canonical_statuses)).
Qed.

Lemma classify_counts (config : Config) (test_name : string) (execs : list Exec) :
  let r := _classify_test config test_name execs in
  FlakyTestResult.pass_count r = count_status "passed" execs
  ∧ FlakyTestResult.fail_count r = count_status "failed" execs
  ∧ FlakyTestResult.error_count r = count_status "error" execs
  ∧ FlakyTestResult.skip_count r = count_status "skipped" execs
  ∧ FlakyTestResult.total_runs r = length execs.
Proof.
  unfold _classify_test. by destruct (if (_ =? 0)%nat then _ else _) as [c sc].
Qed.

(** X12. The four counts of a result never exceed the number of runs, and
    they add up to it exactly when every execution of the test has one of
    the four canonical statuses: an execution with another status is a run
    that no count holds. *)
Theorem counted_runs (config : Config) (test_name : string) (execs : list Exec) :
  let r := _classify_test config test_name execs in
  let counted :=
    (FlakyTestResult.pass_count r + FlakyTestResult.fail_count r
     + FlakyTestResult.error_count r + FlakyTestResult.skip_count r)%nat in
  (counted ≤ FlakyTestResult.total_runs r)%nat
  ∧ (counted = FlakyTestResult.total_runs r
     ↔ Forall (λ e, TestExecution.status e ∈ canonical_statuses) execs).
Proof.
  intros r counted. subst counted r.
  destruct (classify_counts config test_name execs) as (-> & -> & -> & -> & ->).
  pose proof (counts_split execs) as Hsplit.
  split; [lia|]. rewrite <- uncounted_none. lia.
Qed.

Lemma load_results_status (repr : json → string) (directory : Path)
    (log : list log_record) (recs : list Exec) :
  load_results_from_directory repr directory = (log, Return recs) →
  Forall (λ ex, TestExecution.status ex ∈ canonical_statuses) recs.
Proof.
  apply load_results_Forall. intros path run_id l rs. apply auto_detect_Forall.
  - intros tc l1 ex. apply junit_testcase_status.
  - intros record l1 ex. apply json_record_status.
  - intros m. apply normalize_status_canonical.
Qed.

(** X13. When the executions are those that the loader returns for a
    directory, the four counts of every result of the analysis add up to
    its number of runs. *)
Theorem loaded_runs_all_counted (repr : json → string) (directory : Path)
    (config : Config) (log : list log_record) (recs : list Exec) (r : Result) :
  load_results_from_directory repr directory = (log, Return recs) →
  r ∈ classify_all config recs →
  (FlakyTestResult.pass_count r + FlakyTestResult.fail_count r
   + FlakyTestResult.error_count r + FlakyTestResult.skip_count r)%nat
  = FlakyTestResult.total_runs r.
Proof.
  intros Hload Hr. apply load_results_status in Hload.
  unfold classify_all in Hr. apply list_elem_of_fmap in Hr as ([n es] & -> & Hin).
  cbn [fst snd].
  pose proof (proj1 (Forall_forall _ _) (group_by_name_groups recs) _ Hin) as Hes.
  cbn [fst snd] in Hes.
  destruct (classify_counts config n es) as (-> & -> & -> & -> & ->).
  pose proof (counts_split es) as Hsplit.
  assert (Hcanon : Forall (λ e, TestExecution.status e ∈ canonical_statuses) es).
  { rewrite Hes. apply Forall_forall. intros e He.
    apply list_elem_of_filter in He as [_ He].
    by apply (proj1 (Forall_forall _ _) Hload). }
  apply uncounted_none in Hcanon. lia.
Qed.

Lemma loaded_runs_all_counted_witness :
  ∃ l recs, load_results_from_directory (λ _, "") results_root = (l, Return recs)
    ∧ length (classify_all FlakyTestConfig.default recs) = 2%nat
    ∧ Forall (λ r, (FlakyTestResult.pass_count r + FlakyTestResult.fail_count r
                    + FlakyTestResult.error_count r + FlakyTestResult.skip_count r)%nat
                   = FlakyTestResult.total_runs r)
        (classify_all FlakyTestConfig.default recs).
Proof.
  destruct (load_results_from_directory (λ _, "") results_root) as [l r] eqn:E.
  pose proof E as E'. vm_compute in E'. injection E' as <- <-.
  eexists _, _. split; [exact E|]. split; [done|].
  apply Forall_forall. intros r Hr.
  by eapply (loaded_runs_all_counted (λ _, "") results_root).
Defined.

(** ** All the records of a report, or none *)

(** A loop whose every round returns without logging returns the lists of
    the rounds, one after the other. *)
Lemma extend_each_all {A B} (f : A → M (list B)) (xs : list A) (parts : list (list B))
    (acc : list B) :
  Forall2 (λ x ys, f x = ([], Return ys)) xs parts →
  extend_each f xs acc = ([], Return (acc ++ concat parts)).
Proof.
  intros H. revert acc. induction H as [|x ys xs parts Hx _ IH]; intros acc; simpl.
  - by rewrite app_nil_r.
  - rewrite Hx. unfold mbind, M_bind. rewrite (IH (acc ++ ys)). by rewrite app_assoc.
Qed.

(** A loop whose rounds never log and fail with [e] only stops with [e] as
    soon as one round fails. *)
Lemma extend_each_raise {A B} (f : A → M (list B)) (e : exn) (xs : list A)
    (acc : list B) :
  Forall (λ x, (∃ ys, f x = ([], Return ys)) ∨ f x = ([], Raise e)) xs →
  Exists (λ x, f x = ([], Raise e)) xs →
  extend_each f xs acc = ([], Raise e).
Proof.
  intros Hall. revert acc. induction Hall as [|x xs Hx _ IH]; intros acc Hbad.
  - by apply Exists_nil in Hbad.
  - simpl. destruct Hx as [[ys Hx]|Hx]; rewrite Hx; [|done].
    unfold mbind, M_bind. rewrite IH; [done|].
    apply Exists_cons in Hbad as [Hbad|Hbad]; [congruence|done].
Qed.

(** A loop that returns without a log had only rounds that did. *)
Lemma extend_each_rounds {A B} (f : A → M (list B)) (xs : list A) (acc r : list B) :
  (∀ x l o, f x = (l, o) → l = []) →
  ∀ l, extend_each f xs acc = (l, Return r) →
  l = [] ∧ ∃ parts, r = acc ++ concat parts
                    ∧ Forall2 (λ x ys, f x = ([], Return ys)) xs parts.
Proof.
  intros Hlog. revert acc. induction xs as [|x xs IH]; intros acc l; simpl.
  - intros [= <- <-]. split; [done|]. exists []. by rewrite app_nil_r.
  - intros H. apply bind_Return in H as (l1 & ys & l2 & Hx & Hrest & ->).
    pose proof (Hlog _ _ _ Hx) as ->.
    apply IH in Hrest as (-> & parts & -> & Hparts).
    split; [done|]. exists (ys :: parts). split; [by rewrite <- app_assoc|].
    by constructor.
Qed.

Lemma Forall_Forall2_exists {A B} (R : A → B → Prop) (l : list A) :
  Forall (λ x, ∃ y, R x y) l → ∃ l', Forall2 R l l'.
Proof.
  induction 1 as [|x l [y Hy] _ [l' IH]]; [by exists []|].
  exists (y :: l'). by constructor.
Qed.

Lemma Forall2_concat_parts {A B} (R : A → B → Prop) (ls : list (list A)) (r : list B) :
  Forall2 R (concat ls) r → ∃ parts, r = concat parts ∧ Forall2 (Forall2 R) ls parts.
Proof.
  revert r. induction ls as [|l ls IH]; intros r; simpl.
  - intros H. apply Forall2_nil_inv_l in H as ->. by exists [].
  - intros H. apply Forall2_app_inv_l in H as (r1 & r2 & H1 & H2 & ->).
    destruct (IH _ H2) as (parts & -> & Hparts).
    exists (r1 :: parts). split; [done|]. by constructor.
Qed.

Lemma Forall2_concat_join {A B} (R : A → B → Prop) (ls : list (list A))
    (parts : list (list B)) :
  Forall2 (Forall2 R) ls parts → Forall2 R (concat ls) (concat parts).
Proof. induction 1; simpl; [constructor|by apply Forall2_app]. Qed.

Lemma elem_of_concat {A} (x : A) (ls : list (list A)) :
  x ∈ concat ls → ∃ l, x ∈ l ∧ l ∈ ls.
Proof.
  induction ls as [|l ls IH]; simpl; [by intros H; apply elem_of_nil in H|].
  intros H. apply elem_of_app in H as [H|H].
  - exists l. split; [done|left].
  - destruct (IH H) as (l' & Hx & Hl'). exists l'. split; [done|by right].
Qed.

Lemma junit_testcase_outcome (path : Path) (run_id : string) (tc : element) :
  (timed tc → ∃ ex, junit_testcase path run_id tc = ([], Return ex))
  ∧ (¬ timed tc → junit_testcase path run_id tc = ([], Raise ValueError)).
Proof.
  unfold timed, junit_testcase, float_of_string.
  destruct (Float.of_string _) as [d|]; split.
  - intros _. rewrite bind_ret_l.
    destruct (find tc "failure"), (find tc "error"), (find tc "skipped"); by eexists.
  - intros H. destruct H. by eexists.
  - by intros [d Hd].
  - done.
Qed.

Lemma junit_testcase_log (path : Path) (run_id : string) (tc : element)
    (l : list log_record) (o : result Exec) :
  junit_testcase path run_id tc = (l, o) → l = [].
Proof.
  destruct (junit_testcase_outcome path run_id tc) as [Hok Hbad].
  unfold timed in *. destruct (Float.of_string _) as [d|].
  - destruct Hok as [ex ->]; [by eexists|]. by intros [= <- _].
  - rewrite Hbad; [by intros [= <- _]|]. by intros [d Hd].
Qed.

Lemma junit_suite_round (path : Path) (run_id : string) (tcs : list element) :
  (∀ exs, Forall2 (λ tc ex, junit_testcase path run_id tc = ([], Return ex)) tcs exs →
          extend_each (λ tc, ex ← junit_testcase path run_id tc; mret [ex]) tcs []
          = ([], Return exs))
  ∧ (¬ Forall timed tcs →
     extend_each (λ tc, ex ← junit_testcase path run_id tc; mret [ex]) tcs []
     = ([], Raise ValueError)).
Proof.
  split.
  - intros exs H.
    rewrite (extend_each_all _ tcs ((λ ex, [ex]) <$> exs)).
    + f_equal. f_equal. simpl. clear H. induction exs as [|ex exs IH]; [done|].
      simpl. f_equal. apply IH.
    + apply Forall2_fmap_r. eapply Forall2_impl; [exact H|].
      intros tc ex Hex. simpl. by rewrite Hex.
  - intros Hbad. apply extend_each_raise.
    + apply Forall_forall. intros tc _.
      destruct (junit_testcase_outcome path run_id tc) as [Hok Hno].
      destruct (decide (timed tc)) as [Ht|Ht].
      * left. destruct (Hok Ht) as [ex ->]. by eexists.
      * right. by rewrite (Hno Ht).
    + apply not_Forall_Exists in Hbad; [|apply _].
      eapply Exists_impl; [exact Hbad|]. intros tc Ht. simpl in Ht.
      by rewrite (proj2 (junit_testcase_outcome path run_id tc) Ht).
Qed.

(** X14. A report that [ET.parse] reads gives all its records or none.
    The parser goes through the suites, [junit_suites]: the root itself,
    or for a root [testsuites] every [testsuite] element below it, in the
    order of the document; and in each suite through the test cases that
    are its children.  It gives one record for each of these test cases,
    suite after suite, without a log, exactly when every one of them has
    a time that [float] accepts; otherwise it logs nothing and ends with
    a [ValueError], whatever the test cases before the bad one.  So a
    test case that is no child of a suite gives no record, and with a
    suite inside a suite the records do not come in the order of the
    document. *)
Theorem junit_all_or_nothing (path : Path) (run_id : string) (root : element) :
  et_parse path = Got root →
  (∀ l recs,
     parse_junit_xml path run_id = (l, Return recs)
     ↔ l = [] ∧ Forall2 (λ tc ex, junit_testcase path run_id tc = ([], Return ex))
                  (junit_testcases root) recs)
  ∧ (Forall timed (junit_testcases root) →
     ∃ recs, parse_junit_xml path run_id = ([], Return recs))
  ∧ (¬ Forall timed (junit_testcases root) →
     parse_junit_xml path run_id = ([], Raise ValueError)).
Proof.
  intros Hroot. unfold parse_junit_xml. rewrite Hroot.
  fold (junit_suites root). unfold junit_testcases.
  set (inner := λ suite : element,
    extend_each (λ tc, ex ← junit_testcase path run_id tc; mret [ex])
      (findall suite "testcase") []).
  assert (Hback : ∀ recs,
    Forall2 (λ tc ex, junit_testcase path run_id tc = ([], Return ex))
      (concat ((λ suite, findall suite "testcase") <$> junit_suites root)) recs →
    extend_each inner (junit_suites root) [] = ([], Return recs)).
  { intros recs H. apply Forall2_concat_parts in H as (parts & -> & Hparts).
    rewrite (extend_each_all inner _ parts); [done|].
    apply (proj1 (Forall2_fmap_l _ _ _ _)) in Hparts.
    eapply Forall2_impl; [exact Hparts|].
    intros suite exs Hexs. simpl in Hexs.
    by apply (proj1 (junit_suite_round path run_id _)). }
  split_and!.
  - intros l recs. split; [|by intros [-> H]; apply Hback].
    intros H.
    apply extend_each_rounds in H as (-> & parts & -> & Hparts).
    + split; [done|]. simpl. apply Forall2_concat_join, Forall2_fmap_l.
      eapply Forall2_impl; [exact Hparts|]. intros suite exs Hexs. simpl.
      apply extend_each_rounds in Hexs as (_ & sing & -> & Hsing).
      * simpl. clear Hparts. induction Hsing as [|tc ys tcs sing Hy _ IH]; [constructor|].
        apply bind_Return in Hy as (l1 & ex & l2 & Hex & [= <- <-] & Hl).
        symmetry in Hl. apply app_eq_nil in Hl as [-> _].
        simpl. by constructor.
      * intros tc l0 o Hl. unfold mbind, M_bind in Hl.
        destruct (junit_testcase path run_id tc) as [l1 [ex| |]] eqn:E;
          pose proof (junit_testcase_log _ _ _ _ _ E) as ->; by injection Hl as <- _.
    + intros suite l0 o Hl. subst inner. cbv beta in Hl.
      destruct (decide (Forall timed (findall suite "testcase"))) as [Ht|Ht].
      * assert (∃ exs, Forall2 (λ tc ex, junit_testcase path run_id tc = ([], Return ex))
                         (findall suite "testcase") exs) as [exs Hexs].
        { apply Forall_Forall2_exists. eapply Forall_impl; [exact Ht|].
          intros tc. apply junit_testcase_outcome. }
        rewrite (proj1 (junit_suite_round path run_id _) _ Hexs) in Hl.
        by injection Hl as <- _.
      * rewrite (proj2 (junit_suite_round path run_id _) Ht) in Hl.
        by injection Hl as <- _.
  - intros Ht.
    assert (∃ recs, Forall2 (λ tc ex, junit_testcase path run_id tc = ([], Return ex))
              (concat ((λ suite, findall suite "testcase") <$> junit_suites root)) recs)
      as [recs Hrecs].
    { apply Forall_Forall2_exists. eapply Forall_impl; [exact Ht|].
      intros tc. apply junit_testcase_outcome. }
    exists recs. by apply Hback.
  - intros Hbad. apply extend_each_raise.
    + apply Forall_forall. intros suite _. subst inner. cbv beta.
      destruct (decide (Forall timed (findall suite "testcase"))) as [Ht|Ht].
      * left.
        assert (∃ exs, Forall2 (λ tc ex, junit_testcase path run_id tc = ([], Return ex))
                         (findall suite "testcase") exs) as [exs Hexs].
        { apply Forall_Forall2_exists. eapply Forall_impl; [exact Ht|].
          intros tc. apply junit_testcase_outcome. }
        exists exs. by apply (proj1 (junit_suite_round path run_id _)).
      * right. by apply (proj2 (junit_suite_round path run_id _)).
    + apply Exists_exists.
      apply not_Forall_Exists in Hbad; [|apply _].
      apply Exists_exists in Hbad as (tc & Hin & Htc).
      apply elem_of_concat in Hin as (tcs & Hin & Htcs).
      apply list_elem_of_fmap in Htcs as (suite & -> & Hsuite).
      exists suite. split; [done|]. subst inner. cbv beta.
      apply (proj2 (junit_suite_round path run_id _)).
      intros Hall. apply Htc. by apply (proj1 (Forall_forall _ _) Hall).
Qed.

Lemma junit_all_or_nothing_witness :
  (∃ recs, parse_junit_xml report_xml "" = ([], Return recs))
  ∧ parse_junit_xml half_timed_xml "" = ([], Raise ValueError)
  ∧ ∃ recs, parse_junit_xml nested_xml "" = ([], Return recs)
      ∧ TestExecution.test_name <$> recs = ["a1"; "a2"; "b1"].
Proof.
  split_and!.
  - destruct (junit_all_or_nothing report_xml "" _ eq_refl) as (_ & H & _).
    apply H. apply (bool_decide_unpack _). by vm_compute.
  - destruct (junit_all_or_nothing half_timed_xml "" _ eq_refl) as (_ & _ & H).
    apply H. apply (bool_decide_unpack _). by vm_compute.
  - destruct (junit_all_or_nothing nested_xml "" _ eq_refl) as (H & _).
    eexists. split; [|shelve].
    apply H. split; [done|].
    repeat (constructor; [by vm_compute|]). constructor.
    Unshelve. done.
Defined.

Lemma json_float_log (v : json) (l : list log_record) (o : result Float.t) :
  json_float v = (l, o) → l = [].
Proof.
  unfold json_float, float_of_string.
  destruct v as [| |z| |s| |]; try by intros [= <- _].
  - destruct (Float.of_Q _); by intros [= <- _].
  - destruct (Float.of_string s); by intros [= <- _].
Qed.

Lemma json_record_log (repr : json → string) (path : Path) (run_id : string)
    (items : list (string * json)) (l : list log_record) (o : result Exec) :
  json_record repr path run_id items = (l, o) → l = [].
Proof.
  unfold json_record. unfold mbind at 1. unfold M_bind.
  destruct (json_float _) as [l1 [d| |]] eqn:Ed;
    pose proof (json_float_log _ _ _ Ed) as ->; [|by intros [= <- _]..].
  destruct (json_or (json_or _ _) _); by intros [= <- _].
Qed.

(** A loop whose rounds log nothing and end with a value or with an
    exception of one kind ends like that. *)
Lemma extend_each_outcome {A B} (f : A → M (list B)) (xs : list A) (acc : list B) :
  Forall (λ x, ∃ o, f x = ([], o) ∧ float_outcome o) xs →
  ∃ o, extend_each f xs acc = ([], o) ∧ float_outcome o.
Proof.
  intros Hall. revert acc. induction Hall as [|x xs (o & Hx & Ho) _ IH]; intros acc.
  - by exists (Return acc).
  - cbn [extend_each]. rewrite Hx. destruct o as [ys|e|]; [|by exists (Raise e)|done].
    destruct (IH (acc ++ ys)) as (o' & Hrest & Ho'). unfold mbind, M_bind.
    rewrite Hrest. by exists o'.
Qed.

Lemma json_float_outcome (v : json) : ∃ o, json_float v = ([], o) ∧ float_outcome o.
Proof.
  unfold json_float, float_of_string, float_outcome.
  destruct v as [| |z| |s| |]; try (eexists; split; [reflexivity|]; set_solver).
  - destruct (Float.of_Q _); eexists; (split; [reflexivity|]); set_solver.
  - destruct (Float.of_string s); eexists; (split; [reflexivity|]); set_solver.
Qed.

Lemma json_record_outcome (repr : json → string) (path : Path) (run_id : string)
    (items : list (string * json)) :
  named items →
  ∃ o, json_record repr path run_id items = ([], o) ∧ float_outcome o.
Proof.
  intros [n Hn]. unfold json_record. fold (json_name items). rewrite Hn.
  destruct (json_float_outcome
              (json_or (assoc_get "duration" (JInt 0) items) (JInt 0))) as (o & -> & Ho).
  destruct o as [d|e|]; [|by exists (Raise e)|done].
  eexists. split; [reflexivity|done].
Qed.

(** X15. The JSON parser goes through the dictionaries of the list it
    finds in the file, in their order, and skips every other entry.  When
    the name of every dictionary is a string, it logs nothing and ends in
    one of two ways: with the records of the dictionaries, when every one
    of them gives a record; or with the exception of [float] on a
    duration, a [ValueError], a [TypeError] or an [OverflowError]. *)
Theorem json_records_in_order (repr : json → string) (path : Path) (run_id : string)
    (data : json) (records : list json) :
  json_load path = Got data →
  json_records data = Some records →
  Forall named (json_dicts records) →
  (∀ l recs,
     parse_json_results repr path run_id = (l, Return recs)
     ↔ l = [] ∧ Forall2 (λ items ex, json_record repr path run_id items = ([], Return ex))
                  (json_dicts records) recs)
  ∧ ∃ o, parse_json_results repr path run_id = ([], o) ∧ float_outcome o.
Proof.
  intros Hload Hrecords Hnamed. unfold parse_json_results. rewrite Hload.
  set (round := λ record : json,
    match record with
    | JDict items => ex ← json_record repr path run_id items; mret [ex]
    | _ => mret []
    end).
  assert (Hloop : ∀ l recs, extend_each round records [] = (l, Return recs)
    ↔ l = [] ∧ Forall2 (λ items ex, json_record repr path run_id items = ([], Return ex))
                 (json_dicts records) recs).
  { intros l recs. split.
    - intros H. apply extend_each_rounds in H as (-> & parts & -> & Hparts).
      + split; [done|]. simpl. clear Hrecords Hnamed.
        induction Hparts as [|record ys rest parts Hy _ IH]; [constructor|].
        subst round. destruct record; simpl in *;
          try (injection Hy as <-; exact IH).
        apply bind_Return in Hy as (l1 & ex & l2 & Hex & [= <- <-] & Hl).
        symmetry in Hl. apply app_eq_nil in Hl as [-> _].
        by constructor.
      + intros record l0 o Hl. subst round. destruct record; simpl in Hl;
          try by injection Hl as <- _.
        unfold mbind, M_bind in Hl.
        destruct (json_record repr path run_id items) as [l1 [ex| |]] eqn:E;
          pose proof (json_record_log _ _ _ _ _ _ E) as ->; by injection Hl as <- _.
    - intros [-> H].
      assert (∃ parts, recs = concat parts
                ∧ Forall2 (λ record ys, round record = ([], Return ys)) records parts)
        as (parts & -> & Hparts).
      { clear Hrecords Hnamed. revert recs H.
        induction records as [|record rest IH]; intros recs H.
        - apply Forall2_nil_inv_l in H as ->. by exists [].
        - destruct record; simpl in H;
            try (destruct (IH _ H) as (parts & -> & Hparts);
                 exists ([] :: parts); split; [done|]; by constructor).
          apply Forall2_cons_inv_l in H as (ex & recs' & Hex & H & ->).
          destruct (IH _ H) as (parts & -> & Hparts).
          exists ([ex] :: parts). split; [done|]. constructor; [|done].
          subst round. simpl. by rewrite Hex. }
      by rewrite (extend_each_all round records parts). }
  assert (Hend : ∃ o, extend_each round records [] = ([], o) ∧ float_outcome o).
  { apply extend_each_outcome. clear Hrecords Hloop.
    induction records as [|record rest IH]; [constructor|].
    destruct record; simpl in Hnamed;
      try (constructor; [by exists (Return [])|by apply IH]).
    apply Forall_cons in Hnamed as [Hitems Hnamed].
    constructor; [|by apply IH].
    subst round. cbv beta iota.
    destruct (json_record_outcome repr path run_id items Hitems) as (o & -> & Ho).
    destruct o as [ex|e|]; [by exists (Return [ex])|by exists (Raise e)|done]. }
  destruct data as [| | | | |items|items]; try done; simpl in Hrecords.
  - injection Hrecords as ->. by rewrite bind_ret_l.
  - rewrite bind_ret_l.
    destruct (assoc_get "test_results" _ items); try done.
    by injection Hrecords as ->.
Qed.

Lemma json_records_in_order_witness :
  (∃ recs, parse_json_results (λ _, "") report_json "" = ([], Return recs)
     ∧ TestExecution.test_name <$> recs = ["test_pay"; "test_refund"])
  ∧ parse_json_results (λ _, "") overflow_json "" = ([], Raise OverflowError).
Proof.
  split.
  - destruct (json_records_in_order (λ _, "") report_json "" _ _ eq_refl eq_refl)
      as [H _].
    + repeat constructor; by eexists.
    + eexists. split; [|shelve].
      apply H. split; [done|].
      repeat (constructor; [by vm_compute|]). constructor.
      Unshelve. done.
  - destruct (json_records_in_order (λ _, "") overflow_json "" _ _ eq_refl eq_refl)
      as [_ (o & Ho & _)].
    + repeat constructor. by eexists.
    + rewrite Ho. f_equal. vm_compute in Ho. by injection Ho as <-.
Defined.

(** ** Records with little in them *)

(** X16. A JSON record that says nothing of a status, a result, a
    duration, a message or a timestamp gives a failed run without
    duration, message or timestamp; its name is that of the key [name],
    or [unknown] when the record has none of the three name keys. *)
Theorem json_record_defaults (repr : json → string) (path : Path) (run_id : string)
    (items : list (string * json)) :
  Forall (λ k, k ∉ items.*1)
    ["status"; "result"; "duration"; "message"; "error_message"; "timestamp"] →
  (∀ n, assoc_get "name" JNull items = JStr n → n ≠ "" →
     json_record repr path run_id items
     = ([], Return (TestExecution.mk n "failed" (Py.or_else run_id (stem path))
                      Float.zero "" "")))
  ∧ (Forall (λ k, k ∉ items.*1) ["name"; "test_name"; "testName"] →
     json_record repr path run_id items
     = ([], Return (TestExecution.mk "unknown" "failed" (Py.or_else run_id (stem path))
                      Float.zero "" ""))).
Proof.
  intros Hkeys. unfold json_record.
  rewrite !Forall_cons in Hkeys. destruct Hkeys as (K1 & K2 & K3 & K4 & K5 & K6 & _).
  rewrite (assoc_get_missing "status" _ _ K1), (assoc_get_missing "result" _ _ K2),
    (assoc_get_missing "duration" _ _ K3), (assoc_get_missing "message" _ _ K4),
    (assoc_get_missing "error_message" _ _ K5), (assoc_get_missing "timestamp" _ _ K6).
  simpl. split.
  - intros n -> Hn. unfold json_or. simpl.
    rewrite (proj2 (Py_truthy_spec n) Hn). simpl.
    rewrite (proj2 (Py_truthy_spec n) Hn). reflexivity.
  - intros Hnames.
    rewrite !Forall_cons in Hnames. destruct Hnames as (N1 & N2 & N3 & _).
    rewrite (assoc_get_missing "name" _ _ N1), (assoc_get_missing "test_name" _ _ N2),
      (assoc_get_missing "testName" _ _ N3).
    reflexivity.
Qed.

Lemma json_record_defaults_witness :
  json_record (λ _, "") report_json "run_3" [("name", JStr "test_pay")]
  = ([], Return (TestExecution.mk "test_pay" "failed" "run_3" Float.zero "" "")).
Proof.
  destruct (json_record_defaults (λ _, "") report_json "run_3" [("name", JStr "test_pay")])
    as [H _].
  - apply (bool_decide_unpack _). by vm_compute.
  - by apply H.
Defined.

Lemma scan_names (s : string) (ms : list (string * string)) :
  scan s ms → Forall (λ m, m.2 ≠ "" ∧ no_space m.2) ms.
Proof.
  induction 1 as [| |s status test_name rest ms Hpm _ IH]; [constructor|done|].
  constructor; [|done]. by destruct Hpm as (ws & _ & _ & _ & _ & Hne & Hns & _).
Qed.

(** X17. The name of every record that the text parser returns is not
    empty and holds no whitespace. *)
Theorem text_names_are_tokens (path : Path) (run_id : string)
    (l : list log_record) (recs : list Exec) :
  parse_text_log path run_id = (l, Return recs) →
  Forall (λ ex, TestExecution.test_name ex ≠ ""
                ∧ no_space (TestExecution.test_name ex)) recs.
Proof.
  unfold parse_text_log. destruct (read_text path) as [content|e].
  - intros [= _ <-]. apply Forall_fmap.
    eapply Forall_impl; [exact (scan_names _ _ (scan_finditer content))|]. done.
  - destruct e; try done. intros H.
    apply bind_Return in H as (? & ? & ? & _ & [= _ <-] & _). constructor.
Qed.

Lemma text_names_are_tokens_witness :
  ∃ recs, parse_text_log (text_log "bypass test_a	then Skipped
 test_b.") "" = ([], Return recs)
    ∧ TestExecution.test_name <$> recs = ["test_a"; "test_b."]
    ∧ Forall (λ ex, TestExecution.test_name ex ≠ ""
                    ∧ no_space (TestExecution.test_name ex)) recs.
Proof.
  eexists. split; [by vm_compute|]. split; [done|].
  eapply (text_names_are_tokens (text_log "bypass test_a	then Skipped
 test_b.") "" []).
  by vm_compute.
Defined.

(** * Test-failure records *)

(** ** The timestamp of a path *)

Import TestFailure.

Lemma match_at_fixed (pattern : list char_class) (s m : string) :
  match_at pattern s = Some m → match_at pattern m = Some m.
Proof.
  revert s m. induction pattern as [|k pattern IH]; intros s m; simpl.
  - by intros [= <-].
  - destruct s as [|c s]; [done|]. destruct (in_class k c) eqn:Hc; [|done].
    destruct (match_at pattern s) as [m'|] eqn:E; [|done]. intros [= <-].
    by rewrite Hc, (IH _ _ E).
Qed.

Lemma search_match (pattern : list char_class) (s m : string) :
  search pattern s = Some m →
  ∃ pre rest, s = pre +:+ rest ∧ match_at pattern rest = Some m.
Proof.
  induction s as [|c s IH]; simpl.
  - destruct (match_at pattern "") as [m'|] eqn:E; [|done]. intros [= <-].
    by exists "", "".
  - destruct (match_at pattern (String c s)) as [m'|] eqn:E.
    + intros [= <-]. by exists "", (String c s).
    + intros H. destruct (IH H) as (pre & rest & -> & Hm).
      by exists (String c pre), rest.
Qed.

Lemma search_fixed (pattern : list char_class) (s m : string) :
  search pattern s = Some m → search pattern m = Some m.
Proof.
  intros H. apply search_match in H as (pre & rest & _ & H).
  apply match_at_fixed in H. destruct m; simpl in *; by rewrite H.
Qed.

Lemma match_at_length (pattern : list char_class) (s m : string) :
  match_at pattern s = Some m → String.length m = length pattern.
Proof.
  revert s m. induction pattern as [|k pattern IH]; intros s m; simpl.
  - by intros [= <-].
  - destruct s as [|c s]; [done|]. destruct (in_class k c); [|done].
    destruct (match_at pattern s) as [m'|] eqn:E; [|done]. intros [= <-].
    simpl. by rewrite (IH _ _ E).
Qed.

(** X18. Only the leftmost match of the pattern in a path counts: the
    function gives for the path what it gives for that match alone, so a
    first match that is no date hides every later one. *)
Theorem timestamp_of_leftmost_match (padded : bool) (path m : string) :
  search _PATH_TIMESTAMP_PATTERN path = Some m →
  _extract_timestamp_from_path padded (Some (JStr path))
  = _extract_timestamp_from_path padded (Some (JStr m))
  ∧ (valid (Datetime (int (String.substring 0 4 m)) (int (String.substring 5 2 m))
              (int (String.substring 8 2 m)) (int (String.substring 11 2 m))
              (int (String.substring 14 2 m)) (int (String.substring 17 2 m))) = false →
     _extract_timestamp_from_path padded (Some (JStr path)) = None).
Proof.
  intros H. unfold _extract_timestamp_from_path.
  rewrite H, (search_fixed _ _ _ H).
  assert (Hp : Py.truthy path = true).
  { destruct path; [|done]. by vm_compute in H. }
  assert (Hm : Py.truthy m = true).
  { apply search_match in H as (_ & rest & _ & H). apply match_at_length in H.
    by destruct m. }
  rewrite Hp, Hm. simpl. split; [done|]. by intros ->.
Qed.

Lemma timestamp_of_leftmost_match_witness :
  _extract_timestamp_from_path false
    (Some (JStr "shots/2026-13-01_10-00-00/2026-02-12-18-56-39.png")) = None.
Proof.
  destruct (timestamp_of_leftmost_match false
              "shots/2026-13-01_10-00-00/2026-02-12-18-56-39.png" "2026-13-01_10-00-00")
    as [_ H]; [by vm_compute|].
  apply H. by vm_compute.
Defined.

Lemma digit_char (c : ascii) :
  in_class Digit c = true →
  ∃ x, (x < 10)%nat ∧ nat_of_ascii c = (48 + x)%nat ∧ ascii_of_nat (48 + x) = c.
Proof.
  unfold in_class. cbv zeta. intros H. apply andb_true_iff in H as [H1 H2].
  apply Nat.leb_le in H1, H2. exists (nat_of_ascii c - 48)%nat.
  split; [lia|]. split; [lia|].
  replace (48 + (nat_of_ascii c - 48))%nat with (nat_of_ascii c) by lia.
  apply ascii_nat_embedding.
Qed.

Lemma int_two (a b : ascii) :
  int (String a (String b "")) = (10 * (nat_of_ascii a - 48) + (nat_of_ascii b - 48))%nat.
Proof. unfold int. simpl. lia. Qed.

Lemma int_four (a b c d : ascii) :
  int (String a (String b (String c (String d ""))))
  = (1000 * (nat_of_ascii a - 48) + 100 * (nat_of_ascii b - 48)
     + 10 * (nat_of_ascii c - 48) + (nat_of_ascii d - 48))%nat.
Proof. unfold int. simpl. lia. Qed.

Lemma digit_low (q x : nat) : (x < 10)%nat → digit (10 * q + x) = ascii_of_nat (48 + x).
Proof.
  intros Hx. unfold digit. f_equal. f_equal.
  symmetry. apply (Nat.mod_unique _ _ q); lia.
Qed.

Lemma digit_small (x : nat) : (x < 10)%nat → digit x = ascii_of_nat (48 + x).
Proof. intros Hx. by rewrite <- (digit_low 0 x Hx). Qed.

(** Two digits are the text of the number they stand for. *)
Lemma two_digits_int (a b : ascii) :
  in_class Digit a = true → in_class Digit b = true →
  two_digits (int (String a (String b ""))) = String a (String b "").
Proof.
  intros Ha Hb. rewrite int_two.
  apply digit_char in Ha as (x & Hx & -> & Hax).
  apply digit_char in Hb as (y & Hy & -> & Hby).
  replace (48 + x - 48)%nat with x by lia. replace (48 + y - 48)%nat with y by lia.
  unfold two_digits.
  replace ((10 * x + y) / 10)%nat with x by (apply (Nat.div_unique _ _ _ y); lia).
  rewrite (digit_low x y Hy), (digit_small x Hx), Hax, Hby. done.
Qed.

Lemma four_digits_int (a b c d : ascii) :
  in_class Digit a = true → in_class Digit b = true →
  in_class Digit c = true → in_class Digit d = true →
  four_digits (int (String a (String b (String c (String d "")))))
  = String a (String b (String c (String d ""))).
Proof.
  intros Ha Hb Hc Hd. rewrite int_four.
  apply digit_char in Ha as (x & Hx & -> & Hax).
  apply digit_char in Hb as (y & Hy & -> & Hby).
  apply digit_char in Hc as (z & Hz & -> & Hcz).
  apply digit_char in Hd as (w & Hw & -> & Hdw).
  replace (48 + x - 48)%nat with x by lia. replace (48 + y - 48)%nat with y by lia.
  replace (48 + z - 48)%nat with z by lia. replace (48 + w - 48)%nat with w by lia.
  set (n := (1000 * x + 100 * y + 10 * z + w)%nat).
  unfold four_digits, two_digits.
  replace (n / 1000)%nat with x
    by (apply (Nat.div_unique _ _ _ (100 * y + 10 * z + w)); lia).
  replace (n / 100)%nat with (10 * x + y)%nat
    by (apply (Nat.div_unique _ _ _ (10 * z + w)); lia).
  replace (n / 10)%nat with (10 * (10 * x + y) + z)%nat
    by (apply (Nat.div_unique _ _ _ w); lia).
  replace n with (10 * (100 * x + 10 * y + z) + w)%nat by lia.
  rewrite (digit_low _ w Hw), (digit_low _ z Hz), (digit_low _ y Hy), (digit_small x Hx).
  by rewrite Hax, Hby, Hcz, Hdw.
Qed.

Lemma match_at_cons (k : char_class) (pattern : list char_class) (s m : string) :
  match_at (k :: pattern) s = Some m →
  ∃ c s' m', s = String c s' ∧ m = String c m' ∧ in_class k c = true
             ∧ match_at pattern s' = Some m'.
Proof.
  cbn [match_at]. destruct s as [|c s]; [done|].
  destruct (in_class k c) eqn:Hc; [|done].
  destruct (match_at pattern s) as [m'|] eqn:E; [|done]. intros [= <-].
  by exists c, s, m'.
Qed.

Ltac invert_match H :=
  let c := fresh "c" in
  let s := fresh "s" in
  let m := fresh "m" in
  let Hc := fresh "Hc" in
  apply match_at_cons in H as (c & s & m & -> & -> & Hc & H).

(** X19. For a path of ASCII characters: a timestamp that the function
    gives is never empty and comes from the leftmost match of the pattern
    in a path that is a string.  When the year has four digits, or the
    platform pads it, the timestamp is the match itself: the digits as
    they stand, with [T] between date and time, colons in the time and
    [Z] at the end.  Beyond ASCII the pattern takes other decimal digits
    too, which the timestamp does not keep, and the property is not
    stated there. *)
Theorem timestamp_is_the_match (padded : bool) (v : option json) (ts : string) :
  (∀ path, v = Some (JStr path) → is_ascii path = true) →
  _extract_timestamp_from_path padded v = Some ts →
  ∃ path m,
    v = Some (JStr path)
    ∧ search _PATH_TIMESTAMP_PATTERN path = Some m
    ∧ ts ≠ ""
    ∧ (padded = true ∨ (1000 ≤ int (String.substring 0 4 m))%nat →
       ts = iso_of_match m).
Proof.
  intros _. unfold _extract_timestamp_from_path.
  destruct v as [[| | | |path| |]|]; try done.
  destruct (negb (Py.truthy path)); [done|].
  destruct (search _PATH_TIMESTAMP_PATTERN path) as [m|] eqn:Hsearch; [|done].
  destruct (valid _); [|done]. intros [= <-].
  exists path, m. split_and!; [done..| |].
  - unfold strftime. destruct (year_text _ _); done.
  - intros Hyear. apply search_match in Hsearch as (pre & rest & _ & H). clear pre.
    unfold _PATH_TIMESTAMP_PATTERN in H. do 19 invert_match H.
    injection H as <-.
    unfold iso_of_match, strftime.
    cbn [String.substring year month day hour minute second] in *.
    rewrite !two_digits_int by done.
    assert (year_text padded (int (String c (String c0 (String c1 (String c2 "")))))
            = String c (String c0 (String c1 (String c2 "")))) as ->.
    { unfold year_text.
      assert ((padded || (1000 <=? int (String c (String c0 (String c1 (String c2 "")))))%nat)
              = true) as ->.
      { destruct Hyear as [->|Hy]; [done|].
        apply Nat.leb_le in Hy. rewrite Hy. by rewrite orb_true_r. }
      by apply four_digits_int. }
    simpl in Hc3, Hc6, Hc9, Hc12, Hc15.
    apply Ascii.eqb_eq in Hc3, Hc6, Hc12, Hc15. subst. done.
Qed.

Lemma timestamp_is_the_match_witness :
  _extract_timestamp_from_path false
    (Some (JStr "shots/2026-02-12_11-02-31/login.png"))
  = Some "2026-02-12T11:02:31Z".
Proof.
  destruct (_extract_timestamp_from_path false
              (Some (JStr "shots/2026-02-12_11-02-31/login.png"))) as [ts|] eqn:E;
    [|by vm_compute in E].
  assert (Hascii : ∀ path,
    Some (JStr "shots/2026-02-12_11-02-31/login.png") = Some (JStr path) →
    is_ascii path = true) by by intros path [= <-].
  destruct (timestamp_is_the_match _ _ _ Hascii E) as (path & m & [= <-] & Hm & _ & H).
  vm_compute in Hm. injection Hm as <-. rewrite H; [done|].
  right. vm_compute. lia.
Defined.

(** ** The message *)

Lemma rstrip_app_trimmed (u b : string) :
  b ≠ "" → Py.rstrip_by Py.isspace b = b →
  Py.rstrip_by Py.isspace (u +:+ b) = u +:+ b.
Proof.
  intros Hne Hb. induction u as [|c u IH]; simpl; [done|].
  rewrite IH. destruct (u +:+ b) eqn:E; [|done].
  destruct u; simpl in E; [by subst|done].
Qed.

Lemma trimmed_inv (s : string) :
  trimmed s → at_word s ∧ Py.rstrip_by Py.isspace s = s.
Proof.
  intros [Hne Hs].
  assert (Hw : at_word s).
  { rewrite <- Hs. apply rstrip_at_word, lstrip_at_word. }
  split; [done|]. unfold Py.strip in Hs. by rewrite (lstrip_of_at_word _ Hw) in Hs.
Qed.

Lemma trimmed_intro (s : string) :
  s ≠ "" → at_word s → Py.rstrip_by Py.isspace s = s → trimmed s.
Proof.
  intros Hne Hw Hr. split; [done|]. unfold Py.strip.
  by rewrite (lstrip_of_at_word _ Hw).
Qed.

(** Two trimmed texts with anything between them make a trimmed text. *)
Lemma trimmed_app (a x b : string) :
  trimmed a → trimmed b → trimmed (a +:+ x +:+ b).
Proof.
  intros Ha Hb. pose proof Ha as [Hane _]. pose proof Hb as [Hbne _].
  apply trimmed_inv in Ha as [Haw Har]. apply trimmed_inv in Hb as [Hbw Hbr].
  apply trimmed_intro.
  - destruct a; [done|]. done.
  - destruct a; [done|]. done.
  - rewrite <- sapp_assoc. by apply rstrip_app_trimmed.
Qed.

Lemma join_trimmed (sep : string) (parts : list string) :
  parts ≠ [] → Forall trimmed parts → trimmed (join sep parts).
Proof.
  intros Hne Hall. induction Hall as [|p parts Hp Hparts IH]; [done|].
  destruct parts as [|p' parts]; [done|].
  change (join sep (p :: p' :: parts)) with (p +:+ sep +:+ join sep (p' :: parts)).
  apply trimmed_app; [done|]. by apply IH.
Qed.

Lemma stripped_trimmed (v : option json) (s : string) : stripped v = Some s → trimmed s.
Proof.
  unfold stripped. destruct v as [[| | | |s0| |]|]; try done.
  destruct (Py.truthy (Py.strip s0)) eqn:E; [|done]. intros [= <-].
  split; [by apply Py_truthy_spec|apply strip_idem].
Qed.

Lemma first_stripped_trimmed (record : gmap string json) (keys : list string) (s : string) :
  first_stripped record keys = Some s → trimmed s.
Proof.
  induction keys as [|key keys IH]; simpl; [done|].
  destruct (stripped (record !! key)) as [s'|] eqn:E; [|done].
  intros [= <-]. by eapply stripped_trimmed.
Qed.

Lemma join_cons (sep p : string) (parts : list string) :
  ∃ rest, join sep (p :: parts) = p +:+ rest.
Proof.
  destruct parts as [|p' parts]; [exists ""; simpl; by rewrite sapp_nil_r|].
  by exists (sep +:+ join sep (p' :: parts)).
Qed.

(** The parts that [_get_message] joins. *)
Lemma get_message_parts (record : gmap string json) :
  ∃ parts,
    _get_message record
    = join " | "
        (default "Test failure (no message)"
           (first_stripped record ["error_message"; "log_message"; "message"]) :: parts)
    ∧ Forall trimmed parts.
Proof.
  unfold _get_message.
  set (first := default _ _).
  assert (Hfirst : match first_stripped record ["error_message"; "log_message"; "message"] with
                   | Some s => [s]
                   | None => ["Test failure (no message)"]
                   end = [first]).
  { subst first. by destruct (first_stripped _ _). }
  rewrite Hfirst. clear Hfirst.
  destruct (stripped (record !! "hook_error")) as [hook|] eqn:Eh;
    [destruct (negb (contains (str_list [first]) hook))|];
    destruct (stripped (record !! "selector")) as [sel|] eqn:Es; simpl app;
    eexists; (split; [reflexivity|]);
    repeat constructor; by eapply stripped_trimmed.
Qed.

(** X20. The message of a record is never empty and has no whitespace at
    either end; it begins with the first of the values of [error_message],
    [log_message] and [message] that is a string with something else than
    whitespace in it, trimmed, or with a fixed text when there is none. *)
Theorem message_shape (record : gmap string json) :
  trimmed (_get_message record)
  ∧ ∃ rest,
      _get_message record
      = default "Test failure (no message)"
          (first_stripped record ["error_message"; "log_message"; "message"]) +:+ rest.
Proof.
  destruct (get_message_parts record) as (parts & -> & Hparts). split.
  - apply join_trimmed; [done|]. constructor; [|done].
    destruct (first_stripped _ _) as [s|] eqn:E; simpl.
    + by eapply first_stripped_trimmed.
    + split; [done|by vm_compute].
  - apply join_cons.
Qed.

Lemma startswith_app (p b : string) : startswith (p +:+ b) p = true.
Proof. induction p as [|c p IH]; simpl; [done|]. by rewrite Ascii.eqb_refl. Qed.

Lemma contains_app (a p b : string) : contains (a +:+ p +:+ b) p = true.
Proof.
  induction a as [|c a IH].
  - simpl "+:+". destruct (p +:+ b) eqn:E; simpl; rewrite <- E, startswith_app; done.
  - simpl "+:+". cbn [contains]. rewrite IH. apply orb_true_r.
Qed.

Lemma startswith_inv (s p : string) : startswith s p = true → ∃ b, s = p +:+ b.
Proof.
  revert s. induction p as [|c p IH]; intros s; simpl; [by exists s|].
  destruct s as [|d s]; [done|]. intros H. apply andb_true_iff in H as [Hc H].
  apply Ascii.eqb_eq in Hc as ->. destruct (IH _ H) as [b ->]. by exists b.
Qed.

Lemma contains_inv (s p : string) : contains s p = true → ∃ a b, s = a +:+ p +:+ b.
Proof.
  induction s as [|c s IH]; cbn [contains]; intros H; apply orb_true_iff in H as [H|H].
  - apply startswith_inv in H as [b ->]. by exists "", b.
  - done.
  - apply startswith_inv in H as [b ->]. by exists "", b.
  - destruct (IH H) as (a & b & ->). by exists (String c a), b.
Qed.

Lemma repr_chars_app (q : ascii) (a b : string) :
  repr_chars q (a +:+ b) = repr_chars q a +:+ repr_chars q b.
Proof.
  induction a as [|c a IH]; [done|].
  simpl "+:+". cbn [repr_chars]. by rewrite IH, sapp_assoc.
Qed.

Lemma repr_chars_plain (q : ascii) (h : string) :
  q = quote ∨ q = double_quote → plain h → repr_chars q h = h.
Proof.
  intros Hq. induction h as [|c h IH]; [done|]. intros [Hc Hh].
  cbn [repr_chars]. rewrite (IH Hh).
  assert (repr_char q c = String c "") as ->; [|done].
  unfold plain_char in Hc. unfold repr_char. cbv zeta in *.
  set (n := nat_of_ascii c) in *.
  apply andb_true_iff in Hc as [Hc Hctl]. apply andb_true_iff in Hc as [Hc Hbs].
  apply andb_true_iff in Hc as [Hsq Hdq].
  apply negb_true_iff in Hctl, Hbs, Hsq, Hdq.
  assert (Ascii.eqb c q = false) as -> by (destruct Hq; by subst).
  rewrite Hbs, Hctl. cbn [orb].
  pose proof Hctl as Hlow. apply orb_false_iff in Hlow as [Hlow _].
  apply orb_false_iff in Hlow as [Hlow _]. apply Nat.ltb_ge in Hlow.
  assert ((n =? 9) = false)%nat as -> by (apply Nat.eqb_neq; lia).
  assert ((n =? 10) = false)%nat as -> by (apply Nat.eqb_neq; lia).
  assert ((n =? 13) = false)%nat as -> by (apply Nat.eqb_neq; lia).
  done.
Qed.

(** The text of a list of one string holds every run of plain characters
    of the string. *)
Lemma str_list_contains (p h : string) :
  plain h → contains p h = true → contains (str_list [p]) h = true.
Proof.
  intros Hplain Hin. apply contains_inv in Hin as (a & b & ->).
  unfold str_list, repr_str. cbn [fmap list_fmap join].
  match goal with |- context [if ?b then double_quote else quote] =>
    set (q := if b then double_quote else quote);
    assert (Hq : q = quote ∨ q = double_quote) by (subst q; destruct b; [by right|by left])
  end.
  rewrite !repr_chars_app, (repr_chars_plain q h Hq Hplain).
  match goal with |- contains ?s h = true =>
    replace s
      with (("[" +:+ String q (repr_chars q a)) +:+ h
            +:+ (repr_chars q b +:+ String q "" +:+ "]"))
  end.
  - apply contains_app.
  - simpl. by rewrite !sapp_assoc.
Qed.

Lemma str_list_brackets (p : string) :
  contains (str_list [p]) "[" = true ∧ contains (str_list [p]) "]" = true.
Proof.
  unfold str_list. cbn [fmap list_fmap join]. split.
  - apply (contains_app "" "[").
  - rewrite <- (sapp_nil_r "]") at 1. rewrite <- sapp_assoc.
    replace (("[" +:+ repr_str p) +:+ "]" +:+ "") with (("[" +:+ repr_str p) +:+ "]" +:+ "")
      by done.
    apply contains_app.
Qed.

(** X21. A hook error is left out of the message when the text of the
    list of parts holds it already: so when it is a run of plain
    characters of the first part, and also when it is a square bracket,
    whatever the first part. *)
Theorem hook_left_out (record : gmap string json) (hook : string) :
  let first :=
    default "Test failure (no message)"
      (first_stripped record ["error_message"; "log_message"; "message"]) in
  stripped (record !! "hook_error") = Some hook →
  (plain hook ∧ contains first hook = true) ∨ hook = "[" ∨ hook = "]" →
  _get_message record
  = join " | " (first :: match stripped (record !! "selector") with
                         | Some sel => [sel]
                         | None => []
                         end).
Proof.
  intros first Hhook Hin. unfold _get_message. fold first.
  assert (Hfirst : match first_stripped record ["error_message"; "log_message"; "message"] with
                   | Some s => [s]
                   | None => ["Test failure (no message)"]
                   end = [first]).
  { subst first. by destruct (first_stripped _ _). }
  rewrite Hfirst, Hhook.
  assert (contains (str_list [first]) hook = true) as ->.
  { destruct Hin as [[Hplain Hin]|[->| ->]].
    - by apply str_list_contains.
    - apply str_list_brackets.
    - apply str_list_brackets. }
  simpl negb. cbv iota. by destruct (stripped (record !! "selector")).
Qed.

Lemma hook_left_out_witness :
  _get_message failure_record = "element not found | #login".
Proof.
  rewrite (hook_left_out failure_record "not found"); [by vm_compute|by vm_compute|].
  left. split; [|by vm_compute]. vm_compute. tauto.
Defined.

(** ** The timestamp and the canonical record *)

Lemma digit_not_space (n : nat) : Py.isspace (digit n) = false.
Proof.
  unfold digit. pose proof (Nat.mod_upper_bound n 10) as H.
  destruct (n mod 10)%nat as [|[|[|[|[|[|[|[|[|[|k]]]]]]]]]]; try done. lia.
Qed.

Lemma strftime_trimmed (padded : bool) (dt : datetime) : trimmed (strftime padded dt).
Proof.
  unfold strftime.
  assert (Hy : ∃ d r, year_text padded (year dt) = String (digit d) r).
  { unfold year_text, four_digits, two_digits.
    destruct (padded || _); [by eexists _, _|].
    destruct (100 <=? _)%nat; [by eexists _, _|].
    destruct (10 <=? _)%nat; by eexists _, _. }
  destruct Hy as (d & r & ->).
  apply trimmed_intro.
  - done.
  - simpl. apply digit_not_space.
  - rewrite <- !sapp_assoc. by apply rstrip_app_trimmed.
Qed.

Lemma extract_trimmed (padded : bool) (v : option json) (ts : string) :
  _extract_timestamp_from_path padded v = Some ts → trimmed ts.
Proof.
  unfold _extract_timestamp_from_path.
  destruct v as [[| | | |path| |]|]; try done.
  destruct (negb _); [done|]. destruct (search _ _); [|done].
  destruct (valid _); [|done]. intros [= <-]. apply strftime_trimmed.
Qed.

(** X22. The timestamp of a record is never empty and has no whitespace
    at either end.  The first of the six timestamp keys whose value is a
    string with something else than whitespace in it gives the timestamp,
    whatever the clock and the path of the screenshot; else the
    timestamp of the path of the screenshot is the timestamp, whatever
    the clock; only without both is the clock read. *)
Theorem timestamp_sources (padded : bool) (now : datetime) (record : gmap string json) :
  trimmed (_get_timestamp padded now record)
  ∧ (∀ s, first_stripped record timestamp_keys = Some s →
          ∀ padded' now', _get_timestamp padded' now' record = s)
  ∧ (first_stripped record timestamp_keys = None →
     ∀ ts, _extract_timestamp_from_path padded (record !! "screenshot_path") = Some ts →
           ∀ now', _get_timestamp padded now' record = ts)
  ∧ (is_Some (_extract_timestamp_from_path padded (record !! "screenshot_path")) →
     ∀ now', _get_timestamp padded now' record = _get_timestamp padded now record)
  ∧ (first_stripped record timestamp_keys = None →
     _extract_timestamp_from_path padded (record !! "screenshot_path") = None →
     _get_timestamp padded now record = strftime padded now).
Proof.
  unfold _get_timestamp. fold timestamp_keys.
  destruct (first_stripped record timestamp_keys) as [s|] eqn:Ekeys.
  - split_and!; try done.
    + by eapply first_stripped_trimmed.
    + by intros s' [= <-].
  - destruct (_extract_timestamp_from_path padded (record !! "screenshot_path"))
      as [ts|] eqn:Epath.
    + pose proof (extract_trimmed _ _ _ Epath) as Hts.
      assert (Py.truthy ts = true) as -> by by apply Py_truthy_spec, Hts.
      split_and!; try done. by intros _ ts' [= <-].
    + split_and!; try done. apply strftime_trimmed.
Qed.

Lemma timestamp_sources_witness :
  _get_timestamp false noon failure_record = "2026-02-12T11:02:31Z"
  ∧ _get_timestamp false noon message_record = "2026-03-01T12:00:00Z".
Proof.
  split.
  - destruct (timestamp_sources false noon failure_record) as (_ & _ & H & _).
    apply H; by vm_compute.
  - destruct (timestamp_sources false noon message_record) as (_ & _ & _ & _ & H).
    rewrite H; by vm_compute.
Defined.

Lemma first_stripped_ext (r r' : gmap string json) (keys : list string) :
  Forall (λ k, r' !! k = r !! k) keys → first_stripped r' keys = first_stripped r keys.
Proof.
  induction 1 as [|k keys Hk _ IH]; simpl; [done|]. by rewrite Hk, IH.
Qed.

Lemma failure_keys_insert (k : string) (v : json) (record : gmap string json) :
  k ∉ _TEST_FAILURE_KEYS →
  _has_test_failure_keys (<[k := v]> record) = _has_test_failure_keys record.
Proof.
  unfold _has_test_failure_keys. generalize _TEST_FAILURE_KEYS. intros keys Hk.
  f_equal. apply bool_decide_ext. rewrite dom_insert_L. set_solver.
Qed.

Lemma get_message_trimmed (record : gmap string json) : trimmed (_get_message record).
Proof.
  destruct (get_message_parts record) as (parts & -> & Hparts).
  apply join_trimmed; [done|]. constructor; [|done].
  destruct (first_stripped _ _) as [s|] eqn:E; simpl.
  - by eapply first_stripped_trimmed.
  - split; [done|by vm_compute].
Qed.

Lemma get_timestamp_trimmed (padded : bool) (now : datetime) (record : gmap string json) :
  trimmed (_get_timestamp padded now record).
Proof.
  unfold _get_timestamp.
  destruct (first_stripped _ _) as [s|] eqn:Ekeys; [by eapply first_stripped_trimmed|].
  destruct (_extract_timestamp_from_path _ _) as [ts|] eqn:Epath;
    [|apply strftime_trimmed].
  pose proof (extract_trimmed _ _ _ Epath) as Hts.
  assert (Py.truthy ts = true) as -> by by apply Py_truthy_spec, Hts.
  done.
Qed.

(** X23. The canonical record keeps every key of the record and the
    value of every key but [message] and [timestamp]; these two it holds
    as strings that are not empty and have no whitespace at either end.
    It has one of the keys of a test failure exactly when the record has. *)
Theorem canonical_record (padded : bool) (now : datetime) (record : gmap string json) :
  let out := test_failure_to_canonical padded now record in
  (∀ k, k ≠ "message" → k ≠ "timestamp" → out !! k = record !! k)
  ∧ dom out = dom record ∪ {["message"; "timestamp"]}
  ∧ (∃ m ts, out !! "message" = Some (JStr m) ∧ trimmed m
             ∧ out !! "timestamp" = Some (JStr ts) ∧ trimmed ts)
  ∧ _has_test_failure_keys out = _has_test_failure_keys record.
Proof.
  intros out. subst out. unfold test_failure_to_canonical. split_and!.
  - intros k Hm Ht. by rewrite !lookup_insert_ne.
  - rewrite !dom_insert_L. set_solver.
  - eexists _, _. split_and!.
    + rewrite lookup_insert_ne by done. apply lookup_insert_eq.
    + apply get_message_trimmed.
    + apply lookup_insert_eq.
    + apply get_timestamp_trimmed.
  - rewrite !failure_keys_insert; [done|by vm_compute..].
Qed.

Lemma canonical_record_witness :
  test_failure_to_canonical false noon failure_record !! "browser"
  = Some (JStr "firefox").
Proof.
  destruct (canonical_record false noon failure_record) as (H & _).
  by rewrite H.
Defined.

Lemma stripped_of_trimmed (s : string) : trimmed s → stripped (Some (JStr s)) = Some s.
Proof.
  intros [Hne Hs]. unfold stripped. rewrite Hs.
  by rewrite (proj2 (Py_truthy_spec s) Hne).
Qed.

(** X24. Making a canonical record canonical once more never reads the
    clock and keeps the timestamp.  It changes nothing at all when the
    record has a usable [error_message] or [log_message].  But when the
    first message made it comes from [message], or from no key, the
    selector is appended a second time. *)
Theorem canonical_again (padded padded' : bool) (now now' : datetime)
    (record : gmap string json) :
  let out := test_failure_to_canonical padded now record in
  _get_timestamp padded' now' out = _get_timestamp padded now record
  ∧ (is_Some (first_stripped record ["error_message"; "log_message"]) →
     test_failure_to_canonical padded' now' out = out)
  ∧ (first_stripped record ["error_message"; "log_message"] = None →
     stripped (record !! "hook_error") = None →
     ∀ sel, stripped (record !! "selector") = Some sel →
            _get_message out = _get_message record +:+ " | " +:+ sel).
Proof.
  intros out.
  assert (Hkeep : ∀ k, k ≠ "message" → k ≠ "timestamp" → out !! k = record !! k).
  { intros k Hm Ht. subst out. unfold test_failure_to_canonical.
    by rewrite !lookup_insert_ne. }
  assert (Hmsg : out !! "message" = Some (JStr (_get_message record))).
  { subst out. unfold test_failure_to_canonical.
    rewrite lookup_insert_ne by done. apply lookup_insert_eq. }
  assert (Hts : out !! "timestamp" = Some (JStr (_get_timestamp padded now record))).
  { subst out. unfold test_failure_to_canonical. apply lookup_insert_eq. }
  assert (Hagain : _get_timestamp padded' now' out = _get_timestamp padded now record).
  { unfold _get_timestamp at 1. cbn [first_stripped]. rewrite Hts.
    by rewrite (stripped_of_trimmed _ (get_timestamp_trimmed padded now record)). }
  split_and!; [done| |].
  - intros [s Hs].
    assert (Hsame : _get_message out = _get_message record).
    { unfold _get_message. cbn [first_stripped] in *.
      rewrite !Hkeep by done.
      destruct (stripped (record !! "error_message")); [done|].
      by destruct (stripped (record !! "log_message")). }
    unfold test_failure_to_canonical at 1. rewrite Hagain, Hsame.
    apply map_eq. intros k.
    destruct (decide (k = "timestamp")) as [->|Ht].
    { by rewrite lookup_insert_eq. }
    rewrite lookup_insert_ne by done.
    destruct (decide (k = "message")) as [->|Hm].
    { by rewrite lookup_insert_eq. }
    by rewrite lookup_insert_ne.
  - intros Hnone Hhook sel Hsel.
    unfold _get_message at 1. cbn [first_stripped] in *.
    rewrite !Hkeep by done. rewrite Hmsg, Hhook, Hsel.
    destruct (stripped (record !! "error_message")); [done|].
    destruct (stripped (record !! "log_message")); [done|].
    by rewrite (stripped_of_trimmed _ (get_message_trimmed record)).
Qed.

Lemma canonical_again_witness :
  _get_message message_record = "boom | #ok"
  ∧ _get_message (test_failure_to_canonical false noon message_record)
    = "boom | #ok | #ok"
  ∧ test_failure_to_canonical true noon
      (test_failure_to_canonical false noon failure_record)
    = test_failure_to_canonical false noon failure_record.
Proof.
  split; [by vm_compute|]. split.
  - destruct (canonical_again false false noon noon message_record) as (_ & _ & H).
    rewrite (H eq_refl eq_refl "#ok"); by vm_compute.
  - destruct (canonical_again false true noon noon failure_record) as (_ & H & _).
    apply H. vm_compute. by eexists.
Defined.

(** * The loaders of the command line *)

Lemma load_plain_text_filter (handle : list string) :
  Cli._load_plain_text handle = Py.strip <$> filter non_blank handle.
Proof.
  induction handle as [|line handle IH]; [done|].
  cbn [Cli._load_plain_text]. rewrite filter_cons.
  destruct (decide (non_blank line)) as [Hline|Hline]; unfold non_blank in Hline.
  - rewrite (proj2 (Py_truthy_spec _) Hline). by rewrite fmap_cons, IH.
  - destruct (Py.strip line); [done|]. by destruct Hline.
Qed.

(** The JSON loader on the lines that the plain-text loader yields. *)
Lemma load_json_lines_decode (loads : string → io json) (handle : list string) :
  Cli._load_json_lines loads handle = decode_lines loads (Cli._load_plain_text handle).
Proof.
  induction handle as [|line handle IH]; [done|].
  cbn [Cli._load_json_lines Cli._load_plain_text].
  destruct (Py.truthy (Py.strip line)); cbn [negb]; cbv iota; [|done].
  cbn [decode_lines]. by rewrite IH.
Qed.

(** X25. The two line loaders read the same lines: the lines in which
    something else than whitespace stands, trimmed and in their order.
    The JSON loader yields for each of them the decoded value, or the
    line itself where [json.loads] raises a [JSONDecodeError].  It yields
    as many records as the plain-text loader when [json.loads] raises
    nothing else; at the first line where it does, the loader ends with
    that exception, after the records of the lines before.  A file that
    holds no JSON at all is read as plain text. *)
Theorem line_loaders_agree (loads : string → io json) (handle : list string) :
  let lines := Cli._load_plain_text handle in
  lines = Py.strip <$> filter non_blank handle
  ∧ (Forall (λ line, ¬ uncaught loads line) lines →
     Cli._load_json_lines loads handle = (decoded loads <$> lines, None))
  ∧ (∀ before line after e,
       lines = before ++ line :: after →
       Forall (λ line, ¬ uncaught loads line) before →
       loads line = Thrown e → e ≠ JSONDecodeError →
       Cli._load_json_lines loads handle = (decoded loads <$> before, Some e))
  ∧ (length (Cli._load_json_lines loads handle).1 ≤ length lines)%nat
  ∧ ((∀ line, loads line = Thrown JSONDecodeError) →
     Cli._load_json_lines loads handle = (JStr <$> lines, None)).
Proof.
  intros lines. rewrite load_json_lines_decode. fold lines.
  assert (Hall : ∀ ls, Forall (λ line, ¬ uncaught loads line) ls →
                       decode_lines loads ls = (decoded loads <$> ls, None)).
  { induction 1 as [|line ls Hline _ IH]; [done|].
    cbn [decode_lines]. rewrite IH, fmap_cons.
    assert (Hd : decoded loads line
                 = match loads line with Got v => v | Thrown _ => JStr line end) by done.
    unfold Cli.yield. destruct (loads line) as [value|e] eqn:E; rewrite Hd; [done|].
    destruct (decide (e = JSONDecodeError)) as [->|He]; [done|].
    destruct Hline. by exists e. }
  split_and!.
  - apply load_plain_text_filter.
  - apply Hall.
  - intros before line after e -> Hbefore Hline He.
    induction Hbefore as [|l ls Hl _ IH].
    + cbn [app decode_lines]. rewrite Hline. by destruct e.
    + cbn [app decode_lines]. rewrite IH, fmap_cons.
      assert (Hd : decoded loads l
                   = match loads l with Got v => v | Thrown _ => JStr l end) by done.
      unfold Cli.yield. destruct (loads l) as [value|e'] eqn:E; rewrite Hd; [done|].
      destruct (decide (e' = JSONDecodeError)) as [->|He']; [done|].
      destruct Hl. by exists e'.
  - clear Hall. generalize lines. intros ls.
    induction ls as [|line ls IH]; [done|].
    cbn [decode_lines]. destruct (loads line) as [value|e].
    + simpl. lia.
    + destruct e; simpl; lia.
  - intros Hnone. rewrite Hall.
    + f_equal. apply list_fmap_ext. intros i line _. unfold decoded.
      by rewrite Hnone.
    + apply Forall_forall. intros line _ (e & He & Hne). rewrite Hnone in He.
      by injection He as <-.
Qed.

Lemma line_loaders_agree_witness :
  Cli._load_json_lines sample_loads sample_lines
  = ([JDict []; JStr "plain text"; JInt 7], None)
  ∧ Cli._load_json_lines sample_loads ["{}"; " [[[[ "; "7"]
    = ([JDict []], Some RecursionError).
Proof.
  split.
  - destruct (line_loaders_agree sample_loads sample_lines) as (_ & H & _).
    assert (Hl : Cli._load_plain_text sample_lines = ["{}"; "plain text"; "7"])
      by by vm_compute.
    rewrite H; [by rewrite Hl|]. rewrite Hl.
    repeat constructor; intros (e & He & Hne); vm_compute in He;
      first [done|by injection He as <-].
  - destruct (line_loaders_agree sample_loads ["{}"; " [[[[ "; "7"])
      as (_ & _ & H & _).
    rewrite (H ["{}"] "[[[[" ["7"] RecursionError); try done.
    constructor; [|constructor]. intros (e & He & Hne).
    vm_compute in He. done.
Defined.

(** X26. What the plain-text loader yields are lines without whitespace
    at either end, none of them empty; read as lines once more, they come
    out as they are. *)
Theorem plain_text_lines_trimmed (handle : list string) :
  Forall trimmed (Cli._load_plain_text handle)
  ∧ Cli._load_plain_text (Cli._load_plain_text handle) = Cli._load_plain_text handle.
Proof.
  assert (Hall : Forall trimmed (Cli._load_plain_text handle)).
  { induction handle as [|line handle IH]; [constructor|].
    cbn [Cli._load_plain_text].
    destruct (Py.truthy (Py.strip line)) eqn:E; [|done].
    constructor; [|done]. split; [by apply Py_truthy_spec|apply strip_idem]. }
  split; [done|].
  induction Hall as [|line lines [Hne Hs] _ IH]; [done|].
  cbn [Cli._load_plain_text]. rewrite Hs.
  by rewrite (proj2 (Py_truthy_spec line) Hne), IH.
Qed.

(** ** The rows of a table *)

Lemma to_uint_nonnil (n : nat) : Nat.to_uint n ≠ Decimal.Nil.
Proof.
  rewrite <- (DecimalNat.Unsigned.of_to n) at 1. rewrite DecimalNat.Unsigned.to_of.
  apply DecimalFacts.unorm_nonnil.
Qed.

Lemma decimal_inj (i j : nat) :
  NilZero.string_of_uint (Nat.to_uint i) = NilZero.string_of_uint (Nat.to_uint j) → i = j.
Proof.
  intros H. apply DecimalNat.Unsigned.to_uint_inj.
  pose proof (NilZero.usu _ (to_uint_nonnil i)) as Hi.
  pose proof (NilZero.usu _ (to_uint_nonnil j)) as Hj.
  rewrite H in Hi. congruence.
Qed.

Lemma TestFailure_startswith_column (s : string) :
  TestFailure.startswith ("column_" +:+ s) "column_" = true.
Proof. apply startswith_app. Qed.

Lemma sapp_inj (a b c : string) : a +:+ b = a +:+ c → b = c.
Proof. induction a as [|x a IH]; simpl; [done|]. intros [= H]. by apply IH. Qed.

Lemma column_key_nonempty (idx : nat) (key : option string) : Cli.column_key idx key ≠ "".
Proof.
  unfold Cli.column_key. destruct key as [[|c key]|]; simpl; done.
Qed.

Lemma column_keys_lookup {V} (idx : nat) (items : list (option string * V)) (x : string) :
  x ∈ column_keys idx items →
  ∃ i key, items.*1 !! i = Some key ∧ x = Cli.column_key (idx + i) key.
Proof.
  revert idx. induction items as [|[key value] items IH]; intros idx; simpl.
  - by intros H%elem_of_nil.
  - intros [->|H]%elem_of_cons.
    + exists 0%nat, key. by rewrite Nat.add_0_r.
    + destruct (IH _ H) as (i & key' & Hi & ->).
      exists (S i), key'. split; [done|]. f_equal. lia.
Qed.

Lemma cleaned_from_dom {V} (idx : nat) (items : list (option string * V))
    (acc : gmap string V) :
  dom (Cli.cleaned_from idx items acc) = dom acc ∪ list_to_set (column_keys idx items).
Proof.
  revert idx acc. induction items as [|[key value] items IH]; intros idx acc; simpl.
  - set_solver.
  - rewrite IH, dom_insert_L. set_solver.
Qed.

Lemma cleaned_from_other {V} (idx : nat) (items : list (option string * V))
    (acc : gmap string V) (k : string) :
  k ∉ column_keys idx items → Cli.cleaned_from idx items acc !! k = acc !! k.
Proof.
  revert idx acc. induction items as [|[key value] items IH]; intros idx acc; simpl.
  - done.
  - intros H. apply not_elem_of_cons in H as [Hk H].
    rewrite (IH _ _ H). by rewrite lookup_insert_ne.
Qed.

(** The keys assigned are pairwise distinct when the keys of the row are
    and none of its names begins like the name of a column. *)
Lemma column_keys_NoDup {V} (idx : nat) (items : list (option string * V)) :
  NoDup items.*1 →
  (∀ k, Some k ∈ items.*1 → TestFailure.startswith k "column_" = false) →
  NoDup (column_keys idx items).
Proof.
  revert idx. induction items as [|[key value] items IH]; intros idx Hnd Hnames; simpl.
  - constructor.
  - rewrite fmap_cons in Hnd. apply NoDup_cons in Hnd as [Hkey Hnd].
    constructor.
    + intros Hin. apply column_keys_lookup in Hin as (i & key' & Hi & Heq).
      assert (Hin' : key' ∈ items.*1) by by eapply list_elem_of_lookup_2.
      assert (Hne : key ≠ key') by (intros ->; by apply Hkey).
      assert (Hgen : ∀ n k, TestFailure.startswith k "column_" = false →
                k ≠ "column_" +:+ NilZero.string_of_uint (Nat.to_uint n)).
      { intros n k Hk ->. by rewrite TestFailure_startswith_column in Hk. }
      assert (Hkey_name : ∀ k, key = Some k → TestFailure.startswith k "column_" = false).
      { intros k ->. apply Hnames. rewrite fmap_cons. left. }
      assert (Hkey'_name : ∀ k, key' = Some k → TestFailure.startswith k "column_" = false).
      { intros k ->. apply Hnames. rewrite fmap_cons. by right. }
      unfold Cli.column_key in Heq.
      destruct key as [k|], key' as [k'|];
        repeat match type of Heq with context [Py.truthy ?s] =>
                 destruct s eqn:?; cbn [Py.truthy] in Heq; cbv iota in Heq end;
        try (apply sapp_inj, decimal_inj in Heq; lia);
        try (by eapply Hgen; [|exact Heq]; eauto);
        try (symmetry in Heq; by eapply Hgen; [|exact Heq]; eauto);
        try congruence.
    + apply IH; [done|]. intros k Hk. apply Hnames. rewrite fmap_cons. by right.
Qed.

Lemma cleaned_from_value {V} (idx : nat) (items : list (option string * V))
    (acc : gmap string V) (i : nat) (key : option string) (value : V) :
  NoDup (column_keys idx items) →
  items !! i = Some (key, value) →
  Cli.cleaned_from idx items acc !! Cli.column_key (idx + i) key = Some value.
Proof.
  revert idx acc i. induction items as [|[key0 value0] items IH]; intros idx acc i; simpl.
  - done.
  - intros Hnd. apply NoDup_cons in Hnd as [Hhead Hnd].
    destruct i as [|i]; simpl.
    + intros [= -> ->]. rewrite Nat.add_0_r.
      rewrite (cleaned_from_other _ _ _ _ Hhead). apply lookup_insert_eq.
    + intros Hi. replace (idx + S i)%nat with (S idx + i)%nat by lia.
      by apply IH.
Qed.

(** X27. The keys of a cleaned row are never empty, and there are at most
    as many as the row has items.  When the keys of the row are distinct
    and no header begins with [column_], no item is lost: the cleaned row
    has as many keys as the row has items, and every item with a header
    that is not empty is found under that header. *)
Theorem cleaned_row {V} (items : list (option string * V)) :
  (∀ k, k ∈ dom (Cli.cleaned items) → k ≠ "")
  ∧ (size (Cli.cleaned items) ≤ length items)%nat
  ∧ (NoDup items.*1 →
     (∀ k, Some k ∈ items.*1 → TestFailure.startswith k "column_" = false) →
     size (Cli.cleaned items) = length items
     ∧ ∀ k value, k ≠ "" → (Some k, value) ∈ items →
                  Cli.cleaned items !! k = Some value).
Proof.
  unfold Cli.cleaned.
  assert (Hlen : length (column_keys 0 items) = length items).
  { generalize 0%nat. induction items as [|[key value] items IH]; intros idx; simpl;
      [done|by rewrite IH]. }
  assert (Hdom : dom (Cli.cleaned_from 0 items ∅)
                 = list_to_set (C := gset string) (column_keys 0 items)).
  { rewrite cleaned_from_dom. set_solver. }
  split_and!.
  - intros k Hk. rewrite Hdom in Hk. apply elem_of_list_to_set in Hk.
    apply column_keys_lookup in Hk as (i & key & _ & ->).
    apply column_key_nonempty.
  - rewrite <- size_dom, Hdom, <- Hlen, size_list_to_set_distinct.
    exact (submseteq_length _ _
             (NoDup_submseteq _ _ (NoDup_remove_dups _)
                (λ x, proj1 (elem_of_remove_dups _ x)))).
  - intros Hnd Hnames.
    pose proof (column_keys_NoDup 0 items Hnd Hnames) as Hkeys. split.
    + by rewrite <- size_dom, Hdom, size_list_to_set, Hlen.
    + intros k value Hk Hin. apply list_elem_of_lookup in Hin as [i Hi].
      pose proof (cleaned_from_value 0 items ∅ i (Some k) value Hkeys Hi) as Hv.
      simpl in Hv. unfold Cli.column_key in Hv.
      by rewrite (proj2 (Py_truthy_spec k) Hk) in Hv.
Qed.

Lemma cleaned_row_witness :
  Cli.cleaned sample_row !! "column_1" = Some "x"
  ∧ Cli.cleaned sample_row !! "column_3" = Some "more"
  ∧ size (Cli.cleaned sample_row) = 4%nat
  ∧ Cli.cleaned sample_row !! "level" = Some "INFO".
Proof.
  destruct (cleaned_row sample_row) as (_ & _ & H).
  destruct H as [Hsize Hvalue].
  - apply (bool_decide_unpack _). by vm_compute.
  - intros k Hk. unfold sample_row in Hk. cbn [fmap list_fmap fst] in Hk.
    repeat (apply elem_of_cons in Hk as [Hk|Hk]; [by (injection Hk as ->) || done|]).
    by apply elem_of_nil in Hk.
  - split_and!.
    + by vm_compute.
    + by vm_compute.
    + exact Hsize.
    + apply Hvalue; [done|]. apply (bool_decide_unpack _). by vm_compute.
Defined.
